(** * cursor-stats: usage accounting and billing-period reconciliation

    A shallow embedding of the accounting core of the extension:

    - [services/api.ts]   ([fetchMonthData], [fetchCursorStats],
      [checkUsageBasedStatus], [getCurrentUsageLimit],
      [getStripeSessionUrl]),
    - [services/team.ts]  ([checkTeamMembership], [extractUserSpend]),
    - [utils/updateStats.ts] ([updateStats]: cost totals, unpaid amount,
      usage-based percentage and period, unknown-model detection and
      its one-shot notification).

    Conventions of the embedding.

    - JavaScript strings are [string]s of 8-bit characters; the invoice
      descriptions the parser looks at are ASCII.
    - A JavaScript number that is an amount of money is an exact rational
      ([Q]); rounding of binary floating point is not modelled.  A number
      that may be [NaN] is an [option].
    - [undefined] and a missing property are [None].
    - Network collaborators are the fields of a [World] record; code that
      awaits, throws and catches runs in a small state-and-error monad
      whose state holds the cache file and the log of requests sent. *)

From Stdlib Require Import String Ascii List ZArith QArith Qround Qabs Qminmax Lia Bool.
From Stdlib Require Import DecimalString DecimalN DecimalPos.
Import ListNotations.

Set Implicit Arguments.

Local Open Scope string_scope.
Local Open Scope Z_scope.

(* ================================================================= *)
(** ** JavaScript strings *)

Module JS.

Definition isDigit (c : ascii) : bool :=
  let n := N_of_ascii c in ((48 <=? n) && (n <=? 57))%N.

Definition isUpper (c : ascii) : bool :=
  let n := N_of_ascii c in ((65 <=? n) && (n <=? 90))%N.

Definition isLower (c : ascii) : bool :=
  let n := N_of_ascii c in ((97 <=? n) && (n <=? 122))%N.

(** [\w] *)
Definition isWord (c : ascii) : bool :=
  isDigit c || isUpper c || isLower c || Ascii.eqb c "_".

(** [\s] and the characters [trim] removes (TAB, LF, VT, FF, CR, SP). *)
Definition isSpace (c : ascii) : bool :=
  let n := N_of_ascii c in (((9 <=? n) && (n <=? 13)) || (n =? 32))%N.

(** [.] without the [s] flag: anything but a line terminator. *)
Definition isDot (c : ascii) : bool :=
  let n := N_of_ascii c in negb ((n =? 10) || (n =? 13))%N.

Definition lowerChar (c : ascii) : ascii :=
  if isUpper c then ascii_of_N (N_of_ascii c + 32) else c.

(** [s.toLowerCase()] *)
Fixpoint toLowerCase (s : string) : string :=
  match s with
  | EmptyString => EmptyString
  | String c s' => String (lowerChar c) (toLowerCase s')
  end.

(** [s.startsWith(p)] *)
Definition startsWith (s p : string) : bool := String.prefix p s.

(** [s.includes(sub)] *)
Fixpoint includes (s sub : string) : bool :=
  if String.prefix sub s then true
  else match s with
       | EmptyString => false
       | String _ s' => includes s' sub
       end.

Fixpoint rev_string (s acc : string) : string :=
  match s with
  | EmptyString => acc
  | String c s' => rev_string s' (String c acc)
  end.

Definition reverse (s : string) : string := rev_string s EmptyString.

(** [s.endsWith(p)] *)
Definition endsWith (s p : string) : bool :=
  String.prefix (reverse p) (reverse s).

Fixpoint trimStart (s : string) : string :=
  match s with
  | String c s' => if isSpace c then trimStart s' else s
  | EmptyString => EmptyString
  end.

(** [s.trim()] *)
Definition trim (s : string) : string :=
  reverse (trimStart (reverse (trimStart s))).

(** [s.substring(n)] *)
Fixpoint substringFrom (n : nat) (s : string) : string :=
  match n, s with
  | O, _ => s
  | S n', String _ s' => substringFrom n' s'
  | S _, EmptyString => EmptyString
  end.

(** [s.substring(0, n)] *)
Fixpoint substringTo (n : nat) (s : string) : string :=
  match n, s with
  | S n', String c s' => String c (substringTo n' s')
  | _, _ => EmptyString
  end.

(** [s.replace(p, r)] with a string pattern: the first occurrence only. *)
Fixpoint replaceFirst (s p r : string) : string :=
  if String.prefix p s then r ++ substringFrom (String.length p) s
  else match s with
       | EmptyString => EmptyString
       | String c s' => String c (replaceFirst s' p r)
       end.

Fixpoint repeat (c : ascii) (n : nat) : string :=
  match n with
  | O => EmptyString
  | S n' => String c (repeat c n')
  end.

(** [s.padStart(w, c)] with a one-character filler. *)
Definition padStart (s : string) (w : nat) (c : ascii) : string :=
  repeat c (w - String.length s) ++ s.

(** [xs.join(sep)] *)
Fixpoint join (sep : string) (xs : list string) : string :=
  match xs with
  | [] => EmptyString
  | [x] => x
  | x :: rest => x ++ sep ++ join sep rest
  end.

(** A non-empty string is truthy. *)
Definition truthyStr (s : string) : bool :=
  match s with EmptyString => false | _ => true end.

(** *** Numbers and their text *)

Definition digitVal (c : ascii) : Z := Z.of_N (N_of_ascii c) - 48.

Fixpoint digitsPrefix (s : string) : string :=
  match s with
  | String c s' => if isDigit c then String c (digitsPrefix s') else EmptyString
  | EmptyString => EmptyString
  end.

Fixpoint digitsValue (s : string) (acc : Z) : Z :=
  match s with
  | String c s' => digitsValue s' (10 * acc + digitVal c)
  | EmptyString => acc
  end.

(** [parseInt(s)] for the texts the program hands it, which are the
    [(\d+)] captures: the value of the leading run of digits, [NaN]
    ([None]) when there is none. *)
Definition parseInt (s : string) : option Z :=
  match digitsPrefix s with
  | EmptyString => None
  | ds => Some (digitsValue ds 0)
  end.

(** Decimal text of a natural number, as [n.toString()] prints it. *)
Definition natText (n : Z) : string :=
  NilEmpty.string_of_uint (N.to_uint (Z.to_N n)).

(** [x.toFixed(f)]: the integer [n] nearest to [|x| * 10^f] (the larger
    one on a tie), printed with at least [f + 1] digits and a point before
    the last [f]; a minus sign in front when [x < 0]. *)
Definition roundHalfUp (x : Q) : Z := Qfloor (x + (1 # 2)).

Definition toFixed (f : nat) (x : Q) : string :=
  let neg := Qnum x <? 0 in
  let n := roundHalfUp (Qabs x * inject_Z (10 ^ Z.of_nat f)) in
  let m := padStart (natText n) (S f) "0" in
  let k := (String.length m - f)%nat in
  let body := match f with
              | O => m
              | _ => substringTo k m ++ "." ++ substringFrom k m
              end in
  if neg then "-" ++ body else body.

(** [toFixed] of a number that may be [NaN]. *)
Definition toFixedNum (f : nat) (x : option Q) : string :=
  match x with Some q => toFixed f q | None => "NaN" end.

(** [parseFloat(s)]: optional blanks and sign, digits, an optional
    fraction; [NaN] ([None]) without a digit.  Exponents are not read:
    the program only parses back the texts [toFixed] printed. *)
Definition parseFloat (s : string) : option Q :=
  let s0 := trimStart s in
  let '(neg, s1) :=
    match s0 with
    | String "-" r => (true, r)
    | String "+" r => (false, r)
    | _ => (false, s0)
    end in
  let ip := digitsPrefix s1 in
  let r1 := substringFrom (String.length ip) s1 in
  let fp := match r1 with
            | String "." r2 => digitsPrefix r2
            | _ => EmptyString
            end in
  match ip, fp with
  | EmptyString, EmptyString => None
  | _, _ =>
      let v := (inject_Z (digitsValue ip 0)
                + inject_Z (digitsValue fp 0)
                  / inject_Z (10 ^ Z.of_nat (String.length fp)))%Q in
      Some (if neg then (- v)%Q else v)
  end.

End JS.

(* ================================================================= *)
(** ** Regular expressions

    The backtracking semantics of JavaScript regular expressions for the
    constructs the program's patterns use: character classes, sequence,
    ordered alternation, greedy and lazy repetition, capture groups,
    [^], [$] and [\b].  A pattern of the source is written as a value
    of [regex]; [exec] is [RegExp.prototype.exec] without the [g] flag
    and [replaceAll] is [String.prototype.replace] with it. *)

Module Regex.

Inductive regex : Type :=
| Eps                                    (* the empty pattern *)
| Chr (p : ascii -> bool)                (* one character of a class *)
| Cat (r1 r2 : regex)                    (* r1 r2 *)
| Alt (r1 r2 : regex)                    (* r1|r2, r1 tried first *)
| Rep (greedy : bool) (r : regex)        (* r* and r*? *)
| Grp (n : nat) (r : regex)              (* the n-th capture group *)
| Bol                                    (* ^ *)
| Eol                                    (* $ *)
| Wordb.                                 (* \b *)

(** A position in the subject: the character before it ([None] at the
    start) and the text after it. *)
Definition cursor : Type := (option ascii * string)%type.

Definition captures : Type := list (nat * string).

(** What a successful match leaves: the groups and the cursor after it. *)
Definition outcome : Type := (captures * cursor)%type.

Definition orElse (a b : option outcome) : option outcome :=
  match a with Some x => Some x | None => b end.

Definition consumed (i i' : cursor) : string :=
  JS.substringTo (String.length (snd i) - String.length (snd i')) (snd i).

Definition wordBefore (i : cursor) : bool :=
  match fst i with Some c => JS.isWord c | None => false end.

Definition wordAfter (i : cursor) : bool :=
  match snd i with String c _ => JS.isWord c | EmptyString => false end.

(** [rmatch r i c k]: match [r] at [i], then continue with [k]; the first
    alternative for which [k] succeeds wins.  An iteration of a repetition
    that consumes nothing is refused, as the language specifies. *)
Fixpoint rmatch (r : regex) (i : cursor) (c : captures)
         (k : cursor -> captures -> option outcome) {struct r}
  : option outcome :=
  match r with
  | Eps => k i c
  | Chr p =>
      match snd i with
      | String a s' => if p a then k (Some a, s') c else None
      | EmptyString => None
      end
  | Cat r1 r2 => rmatch r1 i c (fun i' c' => rmatch r2 i' c' k)
  | Alt r1 r2 => orElse (rmatch r1 i c k) (rmatch r2 i c k)
  | Rep greedy r' =>
      (fix loop (n : nat) (i : cursor) (c : captures) : option outcome :=
         match n with
         | O => k i c
         | S n' =>
             let again :=
               rmatch r' i c
                 (fun i' c' =>
                    if (String.length (snd i') <? String.length (snd i))%nat
                    then loop n' i' c' else None) in
             if greedy then orElse again (k i c) else orElse (k i c) again
         end) (S (String.length (snd i))) i c
  | Grp n r' => rmatch r' i c (fun i' c' => k i' ((n, consumed i i') :: c'))
  | Bol => match fst i with None => k i c | Some _ => None end
  | Eol => match snd i with EmptyString => k i c | String _ _ => None end
  | Wordb => if xorb (wordBefore i) (wordAfter i) then k i c else None
  end.

(** The result of [exec]: the text before the match, the matched text,
    the groups and the cursor after the match. *)
Record result : Type := mkResult {
  whole : string;
  groups : captures;
  after : cursor
}.

Definition matchAt (r : regex) (i : cursor) : option result :=
  match rmatch r i [] (fun i' c' => Some (c', i')) with
  | Some (c', i') => Some (mkResult (consumed i i') c' i')
  | None => None
  end.

Fixpoint search (r : regex) (prev : option ascii) (s : string)
  : option result :=
  match matchAt r (prev, s) with
  | Some m => Some m
  | None =>
      match s with
      | EmptyString => None
      | String a s' => search r (Some a) s'
      end
  end.

(** [s.match(r)] for a pattern without the [g] flag. *)
Definition exec (r : regex) (s : string) : option result :=
  search r None s.

(** [m[n]]: the text of group [n], [undefined] if it took no part. *)
Fixpoint lookup (n : nat) (c : captures) : option string :=
  match c with
  | [] => None
  | (m, s) :: c' => if Nat.eqb m n then Some s else lookup n c'
  end.

Definition group (n : nat) (m : result) : option string :=
  lookup n (groups m).

(** [s.replace(r, '')] with the [g] flag: every match, left to right, is
    deleted. *)
Fixpoint deleteAll (fuel : nat) (r : regex) (prev : option ascii)
         (s : string) : string :=
  match fuel with
  | O => s
  | S fuel' =>
      match matchAt r (prev, s), s with
      | Some m, _ =>
          if (String.length (snd (after m)) <? String.length s)%nat
          then deleteAll fuel' r (fst (after m)) (snd (after m))
          else match s with
               | EmptyString => EmptyString
               | String a s' => String a (deleteAll fuel' r (Some a) s')
               end
      | None, String a s' => String a (deleteAll fuel' r (Some a) s')
      | None, EmptyString => EmptyString
      end
  end.

Definition replaceAll (r : regex) (s : string) : string :=
  deleteAll (S (String.length s)) r None s.

(** *** Pattern syntax *)

Definition chr (a : ascii) : regex := Chr (Ascii.eqb a).

(** A letter under the [i] flag. *)
Definition chri (a : ascii) : regex :=
  Chr (fun x => Ascii.eqb (JS.lowerChar x) (JS.lowerChar a)).

Fixpoint lit (s : string) : regex :=
  match s with
  | EmptyString => Eps
  | String a EmptyString => chr a
  | String a s' => Cat (chr a) (lit s')
  end.

Fixpoint liti (s : string) : regex :=
  match s with
  | EmptyString => Eps
  | String a EmptyString => chri a
  | String a s' => Cat (chri a) (liti s')
  end.

Definition digit : regex := Chr JS.isDigit.          (* \d *)
Definition space : regex := Chr JS.isSpace.          (* \s *)
Definition dot : regex := Chr JS.isDot.              (* . *)
Definition plus (r : regex) : regex := Cat r (Rep true r).      (* r+ *)
Definition lazyPlus (r : regex) : regex := Cat r (Rep false r). (* r+? *)
Definition opt (r : regex) : regex := Alt r Eps.                (* r? *)
Definition oneOf (s : string) : regex :=                        (* [abc] *)
  Chr (fun x => JS.includes s (String x EmptyString)).

Fixpoint alts (rs : list regex) : regex :=
  match rs with
  | [] => Eps
  | [r] => r
  | r :: rs' => Alt r (alts rs')
  end.

Fixpoint seq (rs : list regex) : regex :=
  match rs with
  | [] => Eps
  | [r] => r
  | r :: rs' => Cat r (seq rs')
  end.

End Regex.

(* ================================================================= *)
(** ** The host's [Date]

    A date is kept in the calendar fields the program reads
    ([getFullYear], [getMonth], [getDate]) plus the milliseconds within
    the day.  [setMonth] and [setFullYear] follow the language's
    [MakeDay]: the month is reduced modulo 12 into the year, and a day
    past the end of the month runs on into the following months.  The
    local time zone is taken to be UTC. *)

Module JSDate.

Record t : Type := mk {
  year : Z;
  month : Z;        (* 0 = January ... 11 = December *)
  date : Z;         (* day of the month, from 1 *)
  time : Z          (* milliseconds since midnight *)
}.

Definition isLeap (y : Z) : bool :=
  ((y mod 4 =? 0) && negb (y mod 100 =? 0)) || (y mod 400 =? 0).

Definition daysInMonth (y m : Z) : Z :=
  if m =? 1 then (if isLeap y then 29 else 28)
  else if (m =? 3) || (m =? 5) || (m =? 8) || (m =? 10) then 30
  else 31.

(** Days beyond the end of month [m] are counted into the next month. *)
Fixpoint roll (fuel : nat) (y m d : Z) : Z * Z * Z :=
  match fuel with
  | O => (y, m, d)
  | S fuel' =>
      if d <=? daysInMonth y m then (y, m, d)
      else if m =? 11 then roll fuel' (y + 1) 0 (d - daysInMonth y m)
           else roll fuel' y (m + 1) (d - daysInMonth y m)
  end.

(** [MakeDay(y, m, d)] for [d >= 1]. *)
Definition makeDay (y m d : Z) : Z * Z * Z :=
  roll (Z.to_nat d) (y + m / 12) (m mod 12) d.

Definition make (y m d ms : Z) : t :=
  let '(y', m', d') := makeDay y m d in mk y' m' d' ms.

Definition getFullYear (x : t) : Z := year x.
Definition getMonth (x : t) : Z := month x.
Definition getDate (x : t) : Z := date x.

(** [x.setMonth(m)] *)
Definition setMonth (x : t) (m : Z) : t := make (year x) m (date x) (time x).

(** [x.setFullYear(y)] *)
Definition setFullYear (x : t) (y : Z) : t :=
  make y (month x) (date x) (time x).

(** [a < b] on the time values. *)
Definition ltb (a b : t) : bool :=
  if year a <? year b then true else
  if year b <? year a then false else
  if month a <? month b then true else
  if month b <? month a then false else
  if date a <? date b then true else
  if date b <? date a then false else
  time a <? time b.

(** A date as [Date] holds it. *)
Definition valid (x : t) : Prop :=
  0 <= month x < 12 /\ 1 <= date x <= daysInMonth (year x) (month x).

(** [new Date(s)] for the timestamps the service sends,
    [YYYY-MM-DDTHH:MM:SS.sssZ]; anything else is an invalid date
    ([None]). *)
Definition field (from len : nat) (s : string) : option Z :=
  let f := String.substring from len s in
  if (String.length (JS.digitsPrefix f) =? len)%nat
  then Some (JS.digitsValue f 0) else None.

Definition parse (s : string) : option t :=
  match field 0 4 s, field 5 2 s, field 8 2 s,
        field 11 2 s, field 14 2 s, field 17 2 s with
  | Some y, Some mo, Some d, Some hh, Some mi, Some ss =>
      if (String.substring 4 1 s =? "-")%string
         && (String.substring 7 1 s =? "-")%string
         && (String.substring 10 1 s =? "T")%string
         && (1 <=? mo) && (mo <=? 12) && (1 <=? d) && (d <=? 31)
         && (hh <? 24) && (mi <? 60) && (ss <? 60)
      then
        let ms := match field 20 3 s with Some v => v | None => 0 end in
        Some (make y (mo - 1) d (((hh * 60 + mi) * 60 + ss) * 1000 + ms))
      else None
  | _, _, _, _, _, _ => None
  end.

End JSDate.

(* ================================================================= *)
(** ** Payloads and results ([interfaces/types.ts]) *)

(** Modelled from the spec: the error a collaborator call rejects with;
    the program reads its [message] and [response.status]. *)
Record Error : Type := mkError {
  message : string;
  status : option Z
}.

Inductive Result (A : Type) : Type :=
| Ok (a : A)
| Err (e : Error).

Arguments Ok {A} a.
Arguments Err {A} e.

(** Modelled from the spec: one entry of the individual-usage payload,
    [{numRequests, maxRequestUsage (optional), numTokens}]. *)
Record ModelUsage : Type := mkModelUsage {
  numRequests : Z;
  maxRequestUsage : option Z;
  numTokens : Z
}.

(** Modelled from the spec: the individual-usage payload,
    [CursorUsageResponse]: the entries the program reads and
    [startOfMonth]. *)
Record CursorUsageResponse : Type := mkUsage {
  gpt4 : ModelUsage;              (* data['gpt-4'] *)
  gpt4_32k : ModelUsage;          (* data['gpt-4-32k'] *)
  usage_startOfMonth : string
}.

(** Modelled from the spec: the team-membership payload [TeamInfo],
    [{teams: sequence of {id}}]. *)
Record TeamInfo : Type := mkTeamInfo {
  teams : list Z
}.

(** Modelled from the spec: the team-detail payload [TeamMemberInfo],
    [{userId, teamMembers}]. *)
Record TeamMemberInfo : Type := mkTeamMemberInfo {
  detail_userId : Z;
  teamMembers : list Z
}.

(** Modelled from the spec: one member of the team-spend payload,
    [TeamMemberSpend]. *)
Record TeamMemberSpend : Type := mkMemberSpend {
  member_userId : Z;
  member_name : string;
  member_email : string;
  member_role : string;
  member_spendCents : option Z;
  member_fastPremiumRequests : option Z;
  member_hardLimitOverrideDollars : Z
}.

(** Modelled from the spec: the team-spend payload [TeamSpendResponse]. *)
Record TeamSpendResponse : Type := mkTeamSpend {
  teamMemberSpend : list TeamMemberSpend;
  totalMembers : Z
}.

(** Modelled from the spec: the persisted cache record [UserCache],
    [{userId, jwtSub, isTeamMember, teamId, lastChecked, startOfMonth}];
    [JSON.stringify] leaves out a property that is [undefined]. *)
Record UserCache : Type := mkCache {
  cache_userId : Z;
  cache_jwtSub : option string;
  cache_isTeamMember : bool;
  cache_teamId : option Z;
  cache_lastChecked : Z;
  cache_startOfMonth : string
}.

(** Modelled from the spec: a raw invoice line,
    [{description, cents (optional)}]. *)
Record RawItem : Type := mkRaw {
  raw_description : string;
  raw_cents : option Z
}.

(** Modelled from the spec: the monthly invoice payload,
    [{items, hasUnpaidMidMonthInvoice}]. *)
Record InvoiceResponse : Type := mkInvoice {
  invoice_items : option (list RawItem);
  invoice_hasUnpaidMidMonthInvoice : bool
}.

(** Modelled from the spec: [UsageItem], the line the parser emits; the
    mid-month running-total line carries neither a model name nor a
    discount flag. *)
Record UsageItem : Type := mkItem {
  calculation : string;
  totalDollars : string;
  description : string;
  modelNameForTooltip : option string;
  isDiscounted : option bool
}.

(** What [fetchMonthData] returns. *)
Record MonthData : Type := mkMonthData {
  items : list UsageItem;
  hasUnpaidMidMonthInvoice : bool;
  midMonthPayment : Q
}.

Record MonthStats : Type := mkMonthStats {
  month : option Z;               (* [NaN] for an invalid date *)
  year : option Z;
  usageBasedPricing : MonthData
}.

Record PremiumRequests : Type := mkPremium {
  current : Z;
  limit : option Z;
  startOfMonth : string
}.

(** Modelled from the spec: [CursorStats], the snapshot
    [fetchCursorStats] returns. *)
Record CursorStats : Type := mkStats {
  currentMonth : MonthStats;
  lastMonth : MonthStats;
  premiumRequests : PremiumRequests;
  isTeamSpendData : bool;
  teamId : option Z;
  teamSpendCents : option Z
}.

(** A number used as a condition: [undefined], [null] and [0] are falsy. *)
Definition truthyNum (x : option Z) : bool :=
  match x with Some n => negb (n =? 0) | None => false end.

(** [x || d] on numbers. *)
Definition orDefault (x : option Z) (d : Z) : Z :=
  match x with Some n => if n =? 0 then d else n | None => d end.

(* ================================================================= *)
(** ** Collaborators and effects *)

(** The requests the program sends. *)
Inductive Request : Type :=
| GetUsage (user : string)                    (* GET  /api/usage *)
| PostTeams                                   (* POST /api/dashboard/teams *)
| PostTeam (teamId : Z)                       (* POST /api/dashboard/team *)
| PostTeamSpend (teamId : Z)                  (* POST /api/dashboard/get-team-spend *)
| PostMonthlyInvoice (month year : option Z). (* POST /api/dashboard/get-monthly-invoice *)

(** What the outside answers during one computation: the service's reply
    to each request, the decoded [sub] claim of a session token's second
    part, the wall clock and the translation table. *)
Record World : Type := mkWorld {
  reply_usage : string -> Result CursorUsageResponse;
  reply_teams : Result TeamInfo;
  reply_team : Z -> Result TeamMemberInfo;
  reply_teamSpend : Z -> Result TeamSpendResponse;
  reply_invoice : option Z -> option Z -> Result InvoiceResponse;
  jwt_sub : option string -> option string;   (* jwt.decode(..)?.payload?.sub *)
  newDate : JSDate.t;                         (* new Date() *)
  dateNow : Z;                                (* Date.now() *)
  t : string -> string                        (* i18n: t(key) *)
}.

(** The mutable state outside the program: the cache file (absent or
    unreadable is [None]) and, for stating what was sent, the log of
    requests in the order they were made. *)
Record Store : Type := mkStore {
  cacheFile : option UserCache;
  sent : list Request
}.

(** Computations that await, may throw and keep their writes when they
    do. *)
Definition M (A : Type) : Type := Store -> Result A * Store.

Definition ret {A} (a : A) : M A := fun s => (Ok a, s).

Definition throw {A} (e : Error) : M A := fun s => (Err e, s).

Definition bind {A B} (m : M A) (f : A -> M B) : M B :=
  fun s => match m s with
           | (Ok a, s') => f a s'
           | (Err e, s') => (Err e, s')
           end.

(** [try { m } catch (e) { h e }] *)
Definition tryCatch {A} (m : M A) (h : Error -> M A) : M A :=
  fun s => match m s with
           | (Ok a, s') => (Ok a, s')
           | (Err e, s') => h e s'
           end.

(** Send a request and await the reply. *)
Definition await {A} (q : Request) (reply : Result A) : M A :=
  fun s => (reply, mkStore (cacheFile s) (sent s ++ [q])%list).

(** A synchronous call that may throw. *)
Definition lift {A} (r : Result A) : M A := fun s => (r, s).

Declare Scope monad_scope.
Delimit Scope monad_scope with monad.
Notation "x <- m ;; k" := (bind m (fun x => k))
  (at level 61, m at next level, right associativity) : monad_scope.
Notation "m ;;; k" := (bind m (fun _ => k))
  (at level 61, right associativity) : monad_scope.

(** [token.split('%3A%3A')] *)
Fixpoint splitGo (fuel : nat) (sep s cur : string) : list string :=
  match fuel with
  | O => [JS.reverse cur]
  | S fuel' =>
      match s with
      | EmptyString => [JS.reverse cur]
      | String a s' =>
          if String.prefix sep s
          then JS.reverse cur
               :: splitGo fuel' sep (JS.substringFrom (String.length sep) s) ""
          else splitGo fuel' sep s' (String a cur)
      end
  end.

Definition split (sep s : string) : list string :=
  splitGo (S (String.length s)) sep s "".

(* ================================================================= *)
(** ** [services/team.ts] *)

Module Team.

Local Open Scope monad_scope.

(** What [checkTeamMembership] resolves to. *)
Record Membership : Type := mkMembership {
  isTeamMember : bool;
  m_teamId : option Z;
  m_userId : option Z;
  m_startOfMonth : string
}.

(** [loadUserCache]: the parsed file, [null] when there is none or it
    does not parse. *)
Definition loadUserCache : M (option UserCache) :=
  fun s => (Ok (cacheFile s), s).

(** [saveUserCache]: the file is overwritten with the one record. *)
Definition saveUserCache (cache : UserCache) : M unit :=
  fun s => (Ok tt, mkStore (Some cache) (sent s)).

Definition cacheHit (jwtSub : option string) (cache : UserCache) : bool :=
  match cache_jwtSub cache, jwtSub with
  | Some a, Some b => (a =? b)%string
  | None, None => true
  | _, _ => false
  end
  && JS.truthyStr (cache_startOfMonth cache).

(** The lookup behind a cache miss: the usage request for
    [startOfMonth], the teams request, the team-detail request for a
    member, then the write of the new record. *)
Definition freshLookup (w : World) (token : string)
           (jwtSub : option string) : M Membership :=
  let tokenUserId := nth 0 (split "%3A%3A" token) "" in
  usageResponse <- await (GetUsage tokenUserId) (reply_usage w tokenUserId) ;;
  let startOfMonth := usage_startOfMonth usageResponse in
  response <- await PostTeams (reply_teams w) ;;
  let isTeamMember := (0 <? length (teams response))%nat in
  let teamId := if isTeamMember then hd_error (teams response) else None in
  teamUserId <-
    match teamId with
    | Some id =>
        if isTeamMember && truthyNum teamId
        then teamResponse <- await (PostTeam id) (reply_team w id) ;;
             ret (Some (detail_userId teamResponse))
        else ret None
    | None => ret None
    end ;;
  saveUserCache (mkCache (orDefault teamUserId 0) jwtSub isTeamMember
                         teamId (dateNow w) startOfMonth) ;;;
  ret (mkMembership isTeamMember teamId teamUserId startOfMonth).

Definition checkTeamMembership (w : World) (token : string)
  : M Membership :=
  tryCatch
    (let jwtToken := nth_error (split "%3A%3A" token) 1 in
     let jwtSub := jwt_sub w jwtToken in
     cache <- loadUserCache ;;
     match cache with
     | Some c =>
         if cacheHit jwtSub c
         then ret (mkMembership (cache_isTeamMember c) (cache_teamId c)
                                (Some (cache_userId c))
                                (cache_startOfMonth c))
         else freshLookup w token jwtSub
     | None => freshLookup w token jwtSub
     end)
    (fun error => throw error).

(** The object [extractUserSpend] returns, property by property. *)
Inductive Value : Type :=
| Num (n : Z)
| Str (s : string).

Definition Object : Type := list (string * Value).

(** [o.key]: [undefined] for a property the object does not have. *)
Fixpoint prop (key : string) (o : Object) : option Value :=
  match o with
  | [] => None
  | (k, v) :: o' => if (k =? key)%string then Some v else prop key o'
  end.

(** [o.key || d] for a numeric property. *)
Definition numOr (key : string) (o : Object) (d : Z) : Z :=
  match prop key o with
  | Some (Num n) => if n =? 0 then d else n
  | _ => d
  end.

(** [getTeamSpend]: the request; its catch logs and throws again. *)
Definition getTeamSpend (w : World) (teamId : Z) : M TeamSpendResponse :=
  tryCatch (await (PostTeamSpend teamId) (reply_teamSpend w teamId))
           (fun error => throw error).

(** [extractUserSpend]: the first member with the user id; throws when
    there is none. *)
Definition extractUserSpend (teamSpend : TeamSpendResponse) (userId : Z)
  : Result Object :=
  match find (fun member => member_userId member =? userId)
             (teamMemberSpend teamSpend) with
  | None =>
      Err (mkError "User spend data not found in team spend response" None)
  | Some userSpend =>
      Ok [ ("userId", Num (member_userId userSpend));
           ("name", Str (member_name userSpend));
           ("email", Str (member_email userSpend));
           ("role", Str (member_role userSpend));
           ("hardLimitOverrideDollars",
            Num (member_hardLimitOverrideDollars userSpend));
           ("fastPremiumRequests",
            Num (orDefault (member_fastPremiumRequests userSpend) 0)) ]
  end.

End Team.

(* ================================================================= *)
(** ** [services/api.ts] *)

Module Api.

Import Regex.
Local Open Scope monad_scope.

(** *** The patterns of [fetchMonthData] *)

(** [[\w.-]] *)
Definition modelChar : regex :=
  Chr (fun x => JS.isWord x || Ascii.eqb x "." || Ascii.eqb x "-").

(** [/^(\d+) token-based usage calls to/] *)
Definition tokenBasedCountPattern : regex :=
  seq [Bol; Grp 1 (plus digit); lit " token-based usage calls to"].

(** [/^(\d+)/] *)
Definition leadingCountPattern : regex :=
  seq [Bol; Grp 1 (plus digit)].

(** [/^(\d+) token-based usage calls to ([\w.-]+), totalling: \$(?:[\d.]+)/] *)
Definition tokenBasedPattern : regex :=
  seq [Bol; Grp 1 (plus digit); lit " token-based usage calls to ";
       Grp 2 (plus modelChar); lit ", totalling: $";
       plus (Chr (fun x => JS.isDigit x || Ascii.eqb x "."))].

(** [/^(\d+)\s+(.+?)(?: request| calls)?(?: beyond|\*| per|$)/i] *)
Definition originalPattern : regex :=
  seq [Bol; Grp 1 (plus digit); plus space; Grp 2 (lazyPlus dot);
       opt (Alt (liti " request") (liti " calls"));
       alts [liti " beyond"; chr "*"; liti " per"; Eol]].

(** The pattern [genericModelPattern], with the [i] flag:
    [\b(?:discounted\s+)?(claude-(?:3-(?:opus|sonnet|haiku)|3\.[57]-sonnet(?:-[\w-]+)?(?:-max)?|4-sonnet(?:-thinking)?)|gpt-(?:4(?:\.\d+|o-128k|-preview)?|3\.5-turbo)|gemini-(?:1\.5-flash-500k|2[\.-]5-pro-(?:exp-\d{2}-\d{2}|preview-\d{2}-\d{2}|exp-max))|o[134](?:-mini)?)\b] *)
Definition genericModelPattern : regex :=
  let twoDigits := Cat digit digit in
  let dated := seq [twoDigits; chr "-"; twoDigits] in
  let claude :=
    Cat (liti "claude-")
        (alts [ Cat (liti "3-") (alts [liti "opus"; liti "sonnet"; liti "haiku"]);
                seq [ liti "3."; oneOf "57"; liti "-sonnet";
                      opt (Cat (chr "-")
                               (plus (Chr (fun x => JS.isWord x
                                                    || Ascii.eqb x "-"))));
                      opt (liti "-max") ];
                Cat (liti "4-sonnet") (opt (liti "-thinking")) ]) in
  let gpt :=
    Cat (liti "gpt-")
        (alts [ Cat (chr "4")
                    (opt (alts [ Cat (chr ".") (plus digit);
                                 liti "o-128k"; liti "-preview" ]));
                liti "3.5-turbo" ]) in
  let gemini :=
    Cat (liti "gemini-")
        (alts [ liti "1.5-flash-500k";
                seq [ chr "2"; oneOf ".-"; liti "5-pro-";
                      alts [ Cat (liti "exp-") dated;
                             Cat (liti "preview-") dated;
                             liti "exp-max" ] ] ]) in
  let o := seq [chri "o"; oneOf "134"; opt (liti "-mini")] in
  seq [ Wordb; opt (Cat (liti "discounted") (plus space));
        Grp 1 (alts [claude; gpt; gemini; o]); Wordb ].

(** [/extra fast premium requests? \(([^)]+)\)/i] *)
Definition extraFastPattern : regex :=
  seq [ liti "extra fast premium request"; opt (chri "s"); lit " (";
        Grp 1 (plus (Chr (fun x => negb (Ascii.eqb x ")")))); chr ")" ].

(** *** Numbers that may be [NaN] *)

(** [parseInt(m[n])] *)
Definition parseGroup (n : nat) (m : result) : option Z :=
  match group n m with
  | Some s => JS.parseInt s
  | None => None
  end.

(** [n > 0] *)
Definition positive (n : option Z) : bool :=
  match n with Some v => 0 <? v | None => false end.

(** [a / n]: not a finite number when [n] is [NaN] or zero. *)
Definition divide (a : Q) (n : option Z) : option Q :=
  match n with
  | Some v => if v =? 0 then None else Some (a / inject_Z v)%Q
  | None => None
  end.

(** [n.toString()] of a count *)
Definition countText (n : option Z) : string :=
  match n with Some v => JS.natText v | None => "NaN" end.

Definition dollars (cents : Z) : Q := (inject_Z cents / 100)%Q.

(** *** The two passes that size the columns *)

Definition isMidMonth (item : RawItem) : bool :=
  JS.includes (raw_description item) "Mid-month usage paid".

(** The request count the two sizing passes read off a description. *)
Definition currentItemRequestCount (desc : string) : option Z :=
  match exec tokenBasedCountPattern desc with
  | Some m => parseGroup 1 m
  | None =>
      match exec leadingCountPattern desc with
      | Some m => parseGroup 1 m
      | None => Some 0
      end
  end.

(** First pass: the largest request count and cost per request.  The
    third component logs the divisors of the divisions carried out. *)
Definition firstPass (raw : list RawItem) : Z * Q * list (option Z) :=
  fold_left
    (fun '(maxRequestCount, maxCostPerRequest, log) item =>
       match raw_cents item with
       | None => (maxRequestCount, maxCostPerRequest, log)
       | Some cents =>
           if isMidMonth item
           then (maxRequestCount, maxCostPerRequest, log)
           else
             match currentItemRequestCount (raw_description item) with
             | Some n =>
                 if 0 <? n
                 then (Z.max maxRequestCount n,
                       Qmax maxCostPerRequest
                            (inject_Z cents / inject_Z n / 100)%Q,
                       (log ++ [Some n])%list)
                 else (maxRequestCount, maxCostPerRequest, log)
             | None => (maxRequestCount, maxCostPerRequest, log)
             end
       end)
    raw (0, 0%Q, []).

Definition paddingWidth (raw : list RawItem) : nat :=
  let '(maxRequestCount, _, _) := firstPass raw in
  if 0 <? maxRequestCount
  then String.length (JS.natText maxRequestCount) else 1%nat.

(** Second pass: the largest cost per request in cents. *)
Definition secondPass (raw : list RawItem) : Q * list (option Z) :=
  fold_left
    (fun '(maxCostCentsForPadding, log) item =>
       match raw_cents item with
       | None => (maxCostCentsForPadding, log)
       | Some cents =>
           if isMidMonth item
           then (maxCostCentsForPadding, log)
           else
             match currentItemRequestCount (raw_description item) with
             | Some n =>
                 if 0 <? n
                 then (Qmax maxCostCentsForPadding
                            (inject_Z cents / inject_Z n)%Q,
                       (log ++ [Some n])%list)
                 else (maxCostCentsForPadding, log)
             | None => (maxCostCentsForPadding, log)
             end
       end)
    raw (0%Q, []).

Definition costPaddingWidth (raw : list RawItem) : nat :=
  String.length (JS.toFixed 3 (fst (secondPass raw) / 100)%Q).

(** *** The parser of one line *)

(** What the description of a line yields: nothing at all (the line is
    dropped as unparsable), or a request count with a model name. *)
Inductive Parsed : Type :=
| Unparsable
| Counted (requestCount : option Z) (parsedModelName : string)
          (isTotallingItem : bool).

Definition parseDescription (w : World) (desc : string) : Parsed :=
  match exec tokenBasedPattern desc with
  | Some tokenBasedMatch =>
      Counted (parseGroup 1 tokenBasedMatch)
              (match group 2 tokenBasedMatch with Some s => s | None => "" end)
              true
  | None =>
      match exec originalPattern desc with
      | Some originalMatch =>
          let requestCount := parseGroup 1 originalMatch in
          if JS.includes desc "tool calls"
          then Counted requestCount (t w "api.toolCalls") false
          else
            match exec genericModelPattern desc with
            | Some specificModelMatch =>
                Counted requestCount
                        (match group 1 specificModelMatch with
                         | Some s => s | None => "" end)
                        false
            | None =>
                if JS.includes desc "extra fast premium request"
                then
                  match exec extraFastPattern desc with
                  | Some extraFastModelMatch =>
                      match group 1 extraFastModelMatch with
                      | Some s =>
                          if JS.truthyStr s
                          then Counted requestCount s false
                          else Counted requestCount (t w "api.fastPremium")
                                       false
                      | None =>
                          Counted requestCount (t w "api.fastPremium") false
                      end
                  | None => Counted requestCount (t w "api.fastPremium") false
                  end
                else Counted requestCount (t w "statusBar.unknownModel") false
            end
      | None =>
          match exec leadingCountPattern desc with
          | Some fallbackCountMatch =>
              Counted (parseGroup 1 fallbackCountMatch)
                      (t w "statusBar.unknownModel") false
          | None => Unparsable
          end
      end
  end.

(** The running state of the third loop: the lines pushed so far, the
    prepayment total and the log of divisors. *)
Record Acc : Type := mkAcc {
  usageItems : list UsageItem;
  acc_midMonthPayment : Q;
  divisors : list (option Z)
}.

(** The line pushed for a prepayment: the running total, no model. *)
Definition midMonthLine (w : World) (total : Q) (desc : string) : UsageItem :=
  mkItem (t w "api.midMonthPayment" ++ ": $" ++ JS.toFixed 2 total)
         ("-$" ++ JS.toFixed 2 total)
         desc None None.

(** The line pushed for a parsed usage item. *)
Definition usageLine (w : World) (padW costW : nat) (desc : string)
           (cents : Z) (requestCount : option Z) (parsedModelName : string)
           (isTotallingItem : bool) : UsageItem :=
  let costPerRequestCents := divide (inject_Z cents) requestCount in
  let totalDollars := dollars cents in
  let paddedRequestCount := JS.padStart (countText requestCount) padW "0" in
  let costPerRequestDollarsFormatted :=
    JS.padStart
      (JS.toFixedNum 3 (match costPerRequestCents with
                        | Some c => Some (c / 100)%Q
                        | None => None
                        end))
      costW "0" in
  let tilde := if isTotallingItem then "~" else "&nbsp;&nbsp;" in
  let itemUnit := t w "api.requestUnit" in
  mkItem ("**" ++ paddedRequestCount ++ "** " ++ itemUnit ++ " @ **$"
               ++ costPerRequestDollarsFormatted ++ tilde ++ "**")
         ("$" ++ JS.toFixed 2 totalDollars)
         desc
         (Some parsedModelName)
         (Some (JS.includes (JS.toLowerCase desc) "discounted")).

(** The body of the third loop of [fetchMonthData]. *)
Definition processItem (w : World) (padW costW : nat) (acc : Acc)
           (item : RawItem) : Acc :=
  match raw_cents item with
  | None => acc                                  (* no cents: skipped *)
  | Some cents =>
      let desc := raw_description item in
      if isMidMonth item
      then
        let midMonthPayment :=
          (acc_midMonthPayment acc + inject_Z (Z.abs cents) / 100)%Q in
        mkAcc (usageItems acc ++ [midMonthLine w midMonthPayment desc])%list
              midMonthPayment (divisors acc)
      else
        match parseDescription w desc with
        | Unparsable => acc                      (* truly unparsable *)
        | Counted requestCount parsedModelName isTotallingItem =>
            match requestCount with
            | Some 0 => acc                      (* 0 requests: skipped *)
            | _ =>
                mkAcc (usageItems acc
                         ++ [usageLine w padW costW desc cents requestCount
                                       parsedModelName isTotallingItem])%list
                      (acc_midMonthPayment acc)
                      (divisors acc ++ [requestCount])%list
            end
        end
  end.

Definition emptyAcc : Acc := mkAcc [] 0%Q [].

(** The three loops over the lines of one invoice. *)
Definition parseItems (w : World) (raw : list RawItem) : Acc :=
  fold_left (processItem w (paddingWidth raw) (costPaddingWidth raw))
            raw emptyAcc.

(** Every divisor of the per-request divisions made for one invoice. *)
Definition allDivisors (w : World) (raw : list RawItem) : list (option Z) :=
  (snd (firstPass raw) ++ snd (secondPass raw)
     ++ divisors (parseItems w raw))%list.

Definition monthDataOf (w : World) (response : InvoiceResponse) : MonthData :=
  match invoice_items response with
  | Some raw =>
      let acc := parseItems w raw in
      mkMonthData (usageItems acc)
                  (invoice_hasUnpaidMidMonthInvoice response)
                  (acc_midMonthPayment acc)
  | None =>
      mkMonthData [] (invoice_hasUnpaidMidMonthInvoice response) 0%Q
  end.

Definition fetchMonthData (w : World) (month year : option Z)
  : M MonthData :=
  tryCatch
    (response <- await (PostMonthlyInvoice month year)
                       (reply_invoice w month year) ;;
     ret (monthDataOf w response))
    (fun error => throw error).

(** *** Billing periods *)

(** [monthsSinceStart] *)
Definition monthsSinceStart (subscriptionStart currentDate : JSDate.t) : Z :=
  (JSDate.getFullYear currentDate - JSDate.getFullYear subscriptionStart) * 12
  + (JSDate.getMonth currentDate - JSDate.getMonth subscriptionStart).

(** The subscription start moved into the current month: the copy of
    [subscriptionStart] after its [setMonth] and [setFullYear]. *)
Definition tentativePeriodStart (subscriptionStart currentDate : JSDate.t)
  : JSDate.t :=
  let months := monthsSinceStart subscriptionStart currentDate in
  let shifted :=
    JSDate.setMonth subscriptionStart
                    (JSDate.getMonth subscriptionStart + months) in
  JSDate.setFullYear shifted
    (JSDate.getFullYear subscriptionStart
     + (JSDate.getMonth subscriptionStart + months) / 12).

(** [currentPeriodStart]: one month earlier when today is before the
    tentative start. *)
Definition currentPeriodStart (subscriptionStart currentDate : JSDate.t)
  : JSDate.t :=
  let tentative := tentativePeriodStart subscriptionStart currentDate in
  if JSDate.ltb currentDate tentative
  then JSDate.setMonth tentative (JSDate.getMonth tentative - 1)
  else tentative.

(** [previousPeriodStart]: one month before the current period. *)
Definition previousPeriodStart (subscriptionStart currentDate : JSDate.t)
  : JSDate.t :=
  let current := currentPeriodStart subscriptionStart currentDate in
  JSDate.setMonth current (JSDate.getMonth current - 1).

(** *** [fetchCursorStats] *)

(** The local variables the team branch assigns. *)
Record Locals : Type := mkLocals {
  l_premiumRequests : option PremiumRequests;
  l_isUsingTeamSpend : bool;
  l_teamSpendCents : option Z
}.

Definition emptyMonthData : MonthData := mkMonthData [] false 0%Q.

(** The team branch, entered for a member with a team id and a user id:
    team spend, the member's entry, then the individual usage for the
    request counters.  A throw leaves the variables as they were at that
    point: [teamSpendCents] is already assigned when the usage request
    is the one that fails. *)
Definition teamBranch (w : World) (userId : string)
           (teamInfo : Team.Membership) : M Locals :=
  match Team.m_teamId teamInfo, Team.m_userId teamInfo with
  | Some teamId, Some teamUserId =>
      if Team.isTeamMember teamInfo
         && truthyNum (Team.m_teamId teamInfo)
         && truthyNum (Team.m_userId teamInfo)
      then
        tryCatch
          (teamSpend <- Team.getTeamSpend w teamId ;;
           userSpend <- lift (Team.extractUserSpend teamSpend teamUserId) ;;
           let teamSpendCents := Team.numOr "spendCents" userSpend 0 in
           tryCatch
             (individualUsage <- await (GetUsage userId)
                                       (reply_usage w userId) ;;
              let premiumRequestLimit :=
                orDefault (maxRequestUsage (gpt4 individualUsage)) 500 in
              ret (mkLocals
                     (Some (mkPremium (numRequests (gpt4 individualUsage))
                                      (Some premiumRequestLimit)
                                      (Team.m_startOfMonth teamInfo)))
                     true (Some teamSpendCents)))
             (fun spendError =>
                ret (mkLocals None false (Some teamSpendCents))))
          (fun spendError => ret (mkLocals None false None))
      else ret (mkLocals None false None)
  | _, _ => ret (mkLocals None false None)
  end.

(** The individual branch, entered when the team branch left no
    counters: the counters of the usage payload as they are. *)
Definition individualBranch (w : World) (userId : string)
           (locals : Locals) : M PremiumRequests :=
  match l_premiumRequests locals with
  | Some premiumRequests => ret premiumRequests
  | None =>
      usageResponse <- await (GetUsage userId) (reply_usage w userId) ;;
      ret (mkPremium (numRequests (gpt4 usageResponse))
                     (maxRequestUsage (gpt4 usageResponse))
                     (usage_startOfMonth usageResponse))
  end.

(** The invoice of a month, empty when the request fails. *)
Definition monthOrEmpty (w : World) (month year : option Z) : M MonthData :=
  tryCatch (fetchMonthData w month year)
           (fun error => ret emptyMonthData).

(** [d.getMonth() + 1] and [d.getFullYear()] of a date that may be
    invalid. *)
Definition monthOf (d : option JSDate.t) : option Z :=
  option_map (fun x => JSDate.getMonth x + 1) d.

Definition yearOf (d : option JSDate.t) : option Z :=
  option_map JSDate.getFullYear d.

Definition fetchCursorStats (w : World) (token : string) : M CursorStats :=
  let userId := nth 0 (split "%3A%3A" token) "" in
  tryCatch
    (teamInfo <- Team.checkTeamMembership w token ;;
     locals <- teamBranch w userId teamInfo ;;
     premiumRequests <- individualBranch w userId locals ;;
     let subscriptionStart := JSDate.parse (startOfMonth premiumRequests) in
     let currentDate := newDate w in
     let currentPeriod :=
       option_map (fun s => currentPeriodStart s currentDate)
                  subscriptionStart in
     let previousPeriod :=
       option_map (fun s => previousPeriodStart s currentDate)
                  subscriptionStart in
     currentMonthData <-
       monthOrEmpty w (monthOf currentPeriod) (yearOf currentPeriod) ;;
     lastMonthData <-
       monthOrEmpty w (monthOf previousPeriod) (yearOf previousPeriod) ;;
     ret (mkStats
            (mkMonthStats (monthOf currentPeriod) (yearOf currentPeriod)
                          currentMonthData)
            (mkMonthStats (monthOf previousPeriod) (yearOf previousPeriod)
                          lastMonthData)
            premiumRequests
            (l_isUsingTeamSpend locals)
            (Team.m_teamId teamInfo)
            (if l_isUsingTeamSpend locals
                && Team.isTeamMember teamInfo
                && truthyNum (Team.m_teamId teamInfo)
                && truthyNum (Team.m_userId teamInfo)
             then l_teamSpendCents locals
             else None)))
    (fun error => throw error).

End Api.

(* ================================================================= *)
(** ** [utils/updateStats.ts] *)

Module Stats.

Import Regex.

(** The two module-level variables: the latch of the notification and
    the set of unknown models, in insertion order. *)
Record Session : Type := mkSession {
  unknownModelNotificationShown : bool;
  detectedUnknownModels : list string
}.

Definition initialSession : Session := mkSession false [].

(** *** Cost of the active month *)

(** [a < b] on numbers. *)
Definition Qltb (a b : Q) : bool := negb (Qle_bool b a).

Definition hasTeamSpend (stats : CursorStats) : bool :=
  isTeamSpendData stats
  && match teamSpendCents stats with Some _ => true | None => false end.

(** The current month when it has lines or team spend is in use, the
    last month otherwise. *)
Definition activeMonthData (stats : CursorStats) : MonthStats :=
  if (0 <? length (items (usageBasedPricing (currentMonth stats))))%nat
     || hasTeamSpend stats
  then currentMonth stats
  else lastMonth stats.

(** [parseFloat(item.totalDollars.replace('$', ''))] *)
Definition itemCost (item : UsageItem) : option Q :=
  JS.parseFloat (JS.replaceFirst (totalDollars item) "$" "").

(** The [reduce] over the lines: the positive costs only. *)
Definition sumPositive (lines : list UsageItem) : Q :=
  fold_left
    (fun sum item =>
       match itemCost item with
       | Some cost => if Qltb 0 cost then (sum + cost)%Q else sum
       | None => sum
       end)
    lines 0%Q.

Definition useTeamSpendData (stats : CursorStats) : bool :=
  hasTeamSpend stats.

Definition actualTotalCost (stats : CursorStats) : Q :=
  let lines := items (usageBasedPricing (activeMonthData stats)) in
  if hasTeamSpend stats
  then match teamSpendCents stats with
       | Some cents => (inject_Z cents / 100)%Q
       | None => 0%Q
       end
  else if (0 <? length lines)%nat then sumPositive lines
       else 0%Q.

(** The block that shows the usage-based figures is entered when there
    is a cost, team spend, or a line. *)
Definition showsUsage (stats : CursorStats) : bool :=
  Qltb 0 (actualTotalCost stats)
  || useTeamSpendData stats
  || (0 <? length (items (usageBasedPricing (activeMonthData stats))))%nat.

(** [unpaidAmount] *)
Definition unpaidAmount (stats : CursorStats) : Q :=
  if useTeamSpendData stats then 0%Q
  else Qmax 0 (actualTotalCost stats
               - midMonthPayment (usageBasedPricing (activeMonthData stats))).

(** The line of the tooltip that states the current usage. *)
Inductive UsageLine : Type :=
| TeamUsage (total : Q)                  (* current usage: total *)
| UsageWithUnpaid (total unpaid : Q)     (* total: .. - unpaid: .. *)
| UsageTotal (total : Q)                 (* total: .. *)
| NoUsageData.

Definition usageLine (stats : CursorStats) : UsageLine :=
  if showsUsage stats then
    if useTeamSpendData stats then TeamUsage (actualTotalCost stats)
    else if Qltb 0 (midMonthPayment
                      (usageBasedPricing (activeMonthData stats)))
         then UsageWithUnpaid (actualTotalCost stats) (unpaidAmount stats)
         else UsageTotal (actualTotalCost stats)
  else NoUsageData.

(** *** Unknown models *)

(** [/^(\d+) token-based usage calls to ([\w.-]+),/i] *)
Definition tokenBasedDescPattern : regex :=
  seq [Bol; Grp 1 (plus digit); liti " token-based usage calls to ";
       Grp 2 (plus Api.modelChar); chr ","].

(** [/^(\d+)\s+([\w.-]+)/i] *)
Definition simpleDescPattern : regex :=
  seq [Bol; Grp 1 (plus digit); plus space; Grp 2 (plus Api.modelChar)].

(** [/requests?|calls?|beyond|\*|per|,$/gi] *)
Definition suffixPattern : regex :=
  alts [ Cat (liti "request") (opt (chri "s"));
         Cat (liti "call") (opt (chri "s"));
         liti "beyond"; chr "*"; liti "per"; Cat (chr ",") Eol ].

(** [m && m[n]] as a text: empty when there is no match or the group is
    empty. *)
Definition truthyGroup (n : nat) (m : option result) : option string :=
  match m with
  | Some r =>
      match group n r with
      | Some s => if JS.truthyStr s then Some s else None
      | None => None
      end
  | None => None
  end.

(** The term extracted from the description of a line flagged unknown,
    before the clean-up. *)
Definition rawTerm (item : UsageItem) : string :=
  let desc := description item in
  match truthyGroup 2 (exec tokenBasedDescPattern desc) with
  | Some s => JS.trim s
  | None =>
      match truthyGroup 1 (exec Api.extraFastPattern desc) with
      | Some s => JS.trim s
      | None =>
          match truthyGroup 2 (exec Api.originalPattern desc) with
          | Some s =>
              let term := JS.trim s in
              if match isDiscounted item with Some b => b | None => false end
                 && JS.startsWith (JS.toLowerCase term) "discounted "
              then JS.trim (JS.substringFrom 11 term)
              else term
          | None =>
              match truthyGroup 2 (exec simpleDescPattern desc) with
              | Some s => JS.trim s
              | None => ""
              end
          end
      end
  end.

(** The general clean-up of suffixes. *)
Definition cleanTerm (term : string) : string :=
  let term := JS.trim (replaceAll suffixPattern term) in
  if JS.endsWith (JS.toLowerCase term) " usage"
  then JS.trim (JS.substringTo (String.length term - 6) term)
  else term.

Definition extractedTermForNotification (item : UsageItem) : string :=
  cleanTerm (rawTerm item).

Definition veryGenericKeywords : list string :=
  [ "usage"; "calls"; "request"; "requests"; "cents"; "beyond"; "month";
    "day"; "january"; "february"; "march"; "april"; "may"; "june"; "july";
    "august"; "september"; "october"; "november"; "december"; "premium";
    "extra"; "tool"; "fast"; "thinking" ].

(** [xs.includes(s)] on an array of strings *)
Definition member (s : string) (xs : list string) : bool :=
  existsb (String.eqb s) xs.

(** The term is kept when it has more than one character and is neither
    a marker of the parser nor a generic word. *)
Definition meaningful (term : string) : bool :=
  JS.truthyStr term
  && (1 <? String.length term)%nat
  && negb (JS.toLowerCase term =? "token-based")%string
  && negb (JS.toLowerCase term =? "discounted")%string
  && negb (member (JS.toLowerCase term) veryGenericKeywords).

(** [alreadyPresent]: some recorded model contains the term or is
    contained in it, letter case aside. *)
Definition alreadyPresent (detected : list string) (term : string) : bool :=
  existsb (fun d => JS.includes (JS.toLowerCase d) (JS.toLowerCase term)
                    || JS.includes (JS.toLowerCase term) (JS.toLowerCase d))
          detected.

(** The term is added unless it is already present. *)
Definition record (detected : list string) (term : string) : list string :=
  if meaningful term
  then if alreadyPresent detected term then detected
       else (detected ++ [term])%list
  else detected.

(** The body of the loop over the lines of the active month, as far as
    the set of unknown models goes. *)
Definition detectItem (detected : list string) (item : UsageItem)
  : list string :=
  if JS.includes (description item) "Mid-month usage paid" then detected
  else if JS.truthyStr (description item)
          && match modelNameForTooltip item with
             | Some name => (name =? "unknown-model")%string
             | None => false
             end
       then record detected (extractedTermForNotification item)
       else detected.

(** The set after the detailed breakdown, which is only built for
    invoice data. *)
Definition detect (stats : CursorStats) (detected : list string)
  : list string :=
  let lines := items (usageBasedPricing (activeMonthData stats)) in
  if showsUsage stats
     && negb (useTeamSpendData stats)
     && (0 <? length lines)%nat
  then fold_left detectItem lines detected
  else detected.

(** The notification at the end of a refresh: shown when the latch is
    open and a model was detected, and the latch is closed with it. *)
Definition notify (session : Session) : Session * option string :=
  if negb (unknownModelNotificationShown session)
     && (0 <? length (detectedUnknownModels session))%nat
  then (mkSession true (detectedUnknownModels session),
        Some (JS.join ", " (detectedUnknownModels session)))
  else (session, None).

(** What one refresh shows. *)
Record Shown : Type := mkShown {
  shown_usage : UsageLine;
  shown_notification : option string
}.

(** [updateStats], from the point where the statistics were fetched: a
    failed fetch is caught at the end and nothing else happens. *)
Definition updateStats (session : Session) (fetched : Result CursorStats)
  : Session * option Shown :=
  match fetched with
  | Err _ => (session, None)
  | Ok stats =>
      let detected := detect stats (detectedUnknownModels session) in
      let '(session', notification) :=
        notify (mkSession (unknownModelNotificationShown session) detected) in
      (session', Some (mkShown (usageLine stats) notification))
  end.

(** A process: the refresh cycles one after the other. *)
Fixpoint run (session : Session) (cycles : list (Result CursorStats))
  : Session * list (option Shown) :=
  match cycles with
  | [] => (session, [])
  | fetched :: rest =>
      let '(session', shown) := updateStats session fetched in
      let '(final, more) := run session' rest in
      (final, shown :: more)
  end.

(** The notifications a process has shown. *)
Definition notifications (shown : list (option Shown)) : list string :=
  flat_map (fun o => match o with
                     | Some s => match shown_notification s with
                                 | Some n => [n]
                                 | None => []
                                 end
                     | None => []
                     end) shown.

End Stats.

(* ================================================================= *)
(** ** Notions for stating the properties

    What the specification names (a ParsedUsageItem, the clamped month
    shift, the unpaid balance) and what the statements below need to say
    about a computation (its subject, its raw lines, whether it is
    sourced from team spend). *)

Module Spec.

(** A ParsedUsageItem is a pushed line that carries a model name; the
    running-total line of a prepayment is not one. *)
Definition isParsedUsageItem (line : UsageItem) : bool :=
  match modelNameForTooltip line with Some _ => true | None => false end.

Definition parsedUsageItems (lines : list UsageItem) : list UsageItem :=
  filter isParsedUsageItem lines.

(** What a line whose description carries the prepayment marker adds to
    MidMonthPayment, in dollars. *)
Definition prepayment (item : RawItem) : Q :=
  match raw_cents item with
  | Some cents => (inject_Z (Z.abs cents) / 100)%Q
  | None => 0%Q
  end.

(** A division by zero. *)
Definition isZeroDivisor (d : option Z) : bool :=
  match d with Some 0 => true | _ => false end.

(** The month shift the specification asks for: the anchor's day of the
    month in the month [m] of year [y], clamped to the last day there. *)
Definition clampedShift (anchor : JSDate.t) (y m : Z) : JSDate.t :=
  JSDate.mk y m (Z.min (JSDate.date anchor) (JSDate.daysInMonth y m))
            (JSDate.time anchor).


(** The user the requests are made for: the token's first part. *)
Definition userOf (token : string) : string :=
  nth 0 (split "%3A%3A" token) "".

(** The team and the team-user id of a resolved member: the membership
    flag set and both ids present and not zero. *)
Definition resolvedMember (info : Team.Membership) : option (Z * Z) :=
  match Team.m_teamId info, Team.m_userId info with
  | Some teamId, Some teamUserId =>
      if Team.isTeamMember info && negb (teamId =? 0)
         && negb (teamUserId =? 0)
      then Some (teamId, teamUserId) else None
  | _, _ => None
  end.

(** The team-spend lookup for a resolved member: the request, then the
    search of the member's entry; either may throw. *)
Definition teamSpendLookup (w : World) (teamId teamUserId : Z)
  : Result Team.Object :=
  match reply_teamSpend w teamId with
  | Ok teamSpend => Team.extractUserSpend teamSpend teamUserId
  | Err e => Err e
  end.


(** Whether the snapshot is sourced from team spend: a resolved member
    whose team-spend lookup succeeds. *)
Definition teamSourced (w : World) (info : Team.Membership) : bool :=
  match resolvedMember info with
  | Some (teamId, teamUserId) =>
      match teamSpendLookup w teamId teamUserId with
      | Ok _ => true
      | Err _ => false
      end
  | None => false
  end.

(** The raw lines of the invoice of a month: none when the request
    fails or the reply has no items. *)
Definition linesOf (w : World) (month year : option Z) : list RawItem :=
  match reply_invoice w month year with
  | Ok response =>
      match invoice_items response with Some raw => raw | None => [] end
  | Err _ => []
  end.

(** The month data the world's reply for a month parses to: empty when
    the request fails. *)
Definition monthDataFor (w : World) (month year : option Z) : MonthData :=
  match reply_invoice w month year with
  | Ok response => Api.monthDataOf w response
  | Err _ => Api.emptyMonthData
  end.

(** A month of a snapshot that holds the data of the world's reply for
    that month. *)
Definition reported (w : World) (m : MonthStats) : Prop :=
  usageBasedPricing m = monthDataFor w (month m) (year m).

(** A pushed line is a ParsedUsageItem or adds nothing to the total. *)
Definition accountable (line : UsageItem) : Prop :=
  isParsedUsageItem line = true
  \/ match Stats.itemCost line with
     | Some cost => Stats.Qltb 0 cost = false
     | None => True
     end.

(** The limit of the premium requests in a snapshot that was produced. *)
Definition limitOf (r : Result CursorStats * Store) : option (option Z) :=
  match fst r with
  | Ok stats => Some (limit (premiumRequests stats))
  | Err _ => None
  end.

(** Two terms are the same finding when one contains the other, letter
    case aside. *)
Definition sameFinding (a b : string) : bool :=
  JS.includes (JS.toLowerCase a) (JS.toLowerCase b)
  || JS.includes (JS.toLowerCase b) (JS.toLowerCase a).

(** A de-duplicated set: no two entries are the same finding. *)
Definition deduplicated (detected : list string) : Prop :=
  ForallOrdPairs (fun a b => sameFinding a b = false) detected.

(** A text made of decimal digits only. *)
Fixpoint allDigits (s : string) : bool :=
  match s with
  | EmptyString => true
  | String c s' => JS.isDigit c && allDigits s'
  end.

(** Whether the third loop pushes a ParsedUsageItem for a raw line: it
    has cents, is no prepayment line, its description parses and its
    request count is not 0. *)
Definition yieldsParsedItem (w : World) (item : RawItem) : bool :=
  match raw_cents item with
  | None => false
  | Some _ =>
      if Api.isMidMonth item then false
      else match Api.parseDescription w (raw_description item) with
           | Api.Unparsable => false
           | Api.Counted (Some 0) _ _ => false
           | Api.Counted _ _ _ => true
           end
  end.

(** The cost of a raw line if it is positive, in dollars. *)
Definition positiveCost (item : RawItem) : Q :=
  match raw_cents item with
  | Some cents => if 0 <? cents then Api.dollars cents else 0%Q
  | None => 0%Q
  end.

(** The sum of the positive costs, [cents / 100], of the raw lines that
    yield a ParsedUsageItem. *)
Fixpoint invoiceTotal (w : World) (raw : list RawItem) : Q :=
  match raw with
  | [] => 0%Q
  | item :: rest =>
      if yieldsParsedItem w item
      then (positiveCost item + invoiceTotal w rest)%Q
      else invoiceTotal w rest
  end.

(** The sum of the prepayments of the raw lines that carry the
    mid-month marker. *)
Fixpoint prepaidTotal (raw : list RawItem) : Q :=
  match raw with
  | [] => 0%Q
  | item :: rest =>
      if Api.isMidMonth item
      then (prepayment item + prepaidTotal rest)%Q
      else prepaidTotal rest
  end.

(** The unpaid balance the specification states. *)
Definition specUnpaid (totalCost midMonthPayment : Q) : Q :=
  Qmax 0 (totalCost - midMonthPayment).

End Spec.

(* ================================================================= *)
(** ** Sample inputs

    The lines and situations the specification names, and concrete
    worlds for evaluating the program on them. *)

Module Samples.

Definition down : Error := mkError "Request failed" (Some 403).

(** A world whose service never answers; 15 April 2024. *)
Definition silent : World :=
  mkWorld (fun _ => Err down) (Err down) (fun _ => Err down)
          (fun _ => Err down) (fun _ _ => Err down) (fun _ => None)
          (JSDate.mk 2024 3 15 0) 0 (fun key => key).

Definition midMonthSample : RawItem :=
  mkRaw "Mid-month usage paid" (Some (-500)).

Definition tokenBasedSample : RawItem :=
  mkRaw "142 token-based usage calls to claude-4-sonnet, totalling: $9.94"
        (Some 994).

Definition zeroCountSample : RawItem :=
  mkRaw "0 premium requests" (Some 0).

(** A snapshot sourced from the invoice: 3.00 dollars of usage against a
    prepayment of 5.00 dollars. *)
Definition prepaidStats : CursorStats :=
  let invoice :=
    mkInvoice (Some [ mkRaw "30 premium requests" (Some 300);
                      mkRaw "Mid-month usage paid" (Some (-500)) ])
              false in
  mkStats (mkMonthStats (Some 4) (Some 2024) (Api.monthDataOf silent invoice))
          (mkMonthStats (Some 3) (Some 2024) (mkMonthData [] false 0))
          (mkPremium 120 (Some 500) "2024-01-15T00:00:00.000Z")
          false None None.

(** Lines the parser flagged as unknown models. *)
Definition unknownLine (desc : string) : UsageItem :=
  mkItem "" "$1.00" desc (Some "unknown-model") (Some false).

Definition glorboStats : CursorStats :=
  mkStats (mkMonthStats (Some 4) (Some 2024)
             (mkMonthData [ unknownLine "10 glorbo-7 requests";
                            unknownLine "4 glorbo-7-mini requests" ]
                          false 0))
          (mkMonthStats (Some 3) (Some 2024) (mkMonthData [] false 0))
          (mkPremium 120 (Some 500) "2024-01-15T00:00:00.000Z")
          false None None.

(** A subscription that began on 31 January 2024, seen on 15 April
    2024; April has 30 days. *)
Definition anchor31 : JSDate.t := JSDate.mk 2024 0 31 0.
Definition midApril : JSDate.t := JSDate.mk 2024 3 15 0.

(** A subscription that began on 15 January 2024. *)
Definition anchor15 : JSDate.t := JSDate.mk 2024 0 15 0.

(** A subscription that began on 30 December 2023, seen on 1 March
    2024: March has a 30th day, February 2024 has 29 days. *)
Definition anchorDec30 : JSDate.t := JSDate.mk 2023 11 30 0.
Definition marchFirst : JSDate.t := JSDate.mk 2024 2 1 0.

(** A session token: the user, the separator, the JWT. *)
Definition sessionToken : string := "user_1%3A%3Aheader.payload.signature".

Definition usagePayload : CursorUsageResponse :=
  mkUsage (mkModelUsage 120 None 0) (mkModelUsage 3 None 0)
          "2024-01-15T00:00:00.000Z".

Definition aprilInvoice : InvoiceResponse :=
  mkInvoice (Some [ mkRaw "30 premium requests" (Some 300);
                    mkRaw "10 glorbo-7 requests" (Some 50) ])
            false.

Definition teamSpendPayload : TeamSpendResponse :=
  mkTeamSpend
    [ mkMemberSpend 41 "Ada" "ada@example.org" "owner" (Some 990) (Some 4) 0;
      mkMemberSpend 42 "Bob" "bob@example.org" "member" (Some 1234) (Some 9) 0 ]
    2.

(** A world in which every collaborator answers: the user is member 42
    of team 7; 15 April 2024. *)
Definition teamWorld : World :=
  mkWorld (fun _ => Ok usagePayload)
          (Ok (mkTeamInfo [7]))
          (fun _ => Ok (mkTeamMemberInfo 42 [41; 42]))
          (fun _ => Ok teamSpendPayload)
          (fun _ _ => Ok aprilInvoice)
          (fun part => match part with
                       | Some _ => Some "auth0|user_1"
                       | None => None
                       end)
          midApril 1713139200000
          (fun key => if (key =? "statusBar.unknownModel")%string
                      then "unknown-model" else key).

(** The same world with the team-spend request failing. *)
Definition teamSpendDown : World :=
  mkWorld (reply_usage teamWorld) (reply_teams teamWorld)
          (reply_team teamWorld) (fun _ => Err down)
          (reply_invoice teamWorld) (jwt_sub teamWorld)
          (newDate teamWorld) (dateNow teamWorld) (t teamWorld).

(** The same world with the teams request failing. *)
Definition teamsDown : World :=
  mkWorld (reply_usage teamWorld) (Err down)
          (reply_team teamWorld) (reply_teamSpend teamWorld)
          (reply_invoice teamWorld) (jwt_sub teamWorld)
          (newDate teamWorld) (dateNow teamWorld) (t teamWorld).

(** The same world for a user who is in no team. *)
Definition soloWorld : World :=
  mkWorld (reply_usage teamWorld) (Ok (mkTeamInfo []))
          (reply_team teamWorld) (reply_teamSpend teamWorld)
          (reply_invoice teamWorld) (jwt_sub teamWorld)
          (newDate teamWorld) (dateNow teamWorld) (t teamWorld).

(** No cache file, nothing sent yet. *)
Definition freshStore : Store := mkStore None [].


(** A cache record of the session's subject without [startOfMonth]. *)
Definition staleRecord : UserCache :=
  mkCache 42 (Some "auth0|user_1") true (Some 7) 1713000000000 "".

(** A world with two accounts: the subject is the JWT itself. *)
Definition twoAccounts : World :=
  mkWorld (reply_usage teamWorld) (reply_teams teamWorld)
          (reply_team teamWorld) (reply_teamSpend teamWorld)
          (reply_invoice teamWorld) (fun part => part)
          (newDate teamWorld) (dateNow teamWorld) (t teamWorld).

Definition aliceToken : string := "user_1%3A%3Aalice".
Definition bobToken : string := "user_2%3A%3Abob".

End Samples.

(* ================================================================= *)
(** ** More of [services/api.ts] and [utils/updateStats.ts]

    The dashboard functions beside [fetchCursorStats] and the parts of
    [updateStats] that use them: the usage-based status with its hard
    limit, the percentage of the limit, the Stripe session address and
    the period lines of the tooltip. *)

Module Dashboard.

Import Regex.

(** Modelled from the spec: the hard-limit payload, [{hardLimit}]; a
    property the reply lacks is [None]. *)
Record UsageLimitResponse : Type := mkLimit {
  hardLimit : option Z
}.

(** Modelled from the spec: the usage-based status payload,
    [{usageBasedPremiumRequests}]. *)
Record UsageBasedResponse : Type := mkUsageBased {
  usageBasedPremiumRequests : option bool
}.

(** What [checkUsageBasedStatus] returns. *)
Record UsageStatus : Type := mkStatus {
  isEnabled : bool;
  status_limit : option Z
}.

(** The requests of the dashboard functions, with their payload: the
    team id, or nothing. *)
Inductive Call : Type :=
| PostGetHardLimit (teamId : option Z)
                                 (* POST /api/dashboard/get-hard-limit *)
| PostGetUsageBasedPremiumRequests (teamId : option Z)
             (* POST /api/dashboard/get-usage-based-premium-requests *)
| GetStripeSession.                         (* GET /api/stripeSession *)

(** What the service answers to them. *)
Record Service : Type := mkService {
  reply_hardLimit : option Z -> Result UsageLimitResponse;
  reply_usageBased : option Z -> Result UsageBasedResponse;
  reply_stripeSession : Result string
}.

(** [teamId ? { teamId } : {}] *)
Definition payloadOf (teamId : option Z) : option Z :=
  if truthyNum teamId then teamId else None.

(** [getCurrentUsageLimit]: the request; its catch logs and throws
    again.  The calls made are appended to the log. *)
Definition getCurrentUsageLimit (d : Service) (teamId : option Z)
           (log : list Call) : Result UsageLimitResponse * list Call :=
  let payload := payloadOf teamId in
  (reply_hardLimit d payload, (log ++ [PostGetHardLimit payload])%list).

(** [checkUsageBasedStatus]: the status request, then the hard limit;
    whatever is thrown is caught and answered with [{isEnabled: false}]. *)
Definition checkUsageBasedStatus (d : Service) (teamId : option Z)
           (log : list Call) : Result UsageStatus * list Call :=
  let payload := payloadOf teamId in
  let log1 := (log ++ [PostGetUsageBasedPremiumRequests payload])%list in
  match reply_usageBased d payload with
  | Ok response =>
      match getCurrentUsageLimit d teamId log1 with
      | (Ok limitResponse, log2) =>
          let isEnabled :=
            match usageBasedPremiumRequests response with
            | Some true => true
            | _ => false
            end in
          (Ok (mkStatus isEnabled (hardLimit limitResponse)), log2)
      | (Err _, log2) => (Ok (mkStatus false None), log2)
      end
  | Err _ => (Ok (mkStatus false None), log1)
  end.

(** [usageBasedPercent] as [updateStats] leaves it: computed when there
    is a cost or team spend, the pricing is enabled and there is a
    limit; reset to 0 when the pricing is not enabled. *)
Definition usageBasedPercent (usageStatus : UsageStatus)
           (actualTotalCost : Q) (useTeamSpendData : bool) : Q :=
  let computed :=
    if Stats.Qltb 0 actualTotalCost || useTeamSpendData
    then if isEnabled usageStatus && truthyNum (status_limit usageStatus)
         then match status_limit usageStatus with
              | Some limit => (actualTotalCost / inject_Z limit * 100)%Q
              | None => 0%Q
              end
         else 0%Q
    else 0%Q in
  if isEnabled usageStatus then computed else 0%Q.

(** The double quote. *)
Definition quote : ascii := "034"%char.

(** [getStripeSessionUrl]: the reply with every double quote replaced
    by nothing; the catch logs and throws again. *)
Definition getStripeSessionUrl (d : Service) (log : list Call)
  : Result string * list Call :=
  (match reply_stripeSession d with
   | Ok data => Ok (replaceAll (chr quote) data)
   | Err error => Err error
   end,
   (log ++ [GetStripeSession])%list).

End Dashboard.

Module Display.

(** The start of the usage-based period the tooltip shows for the
    active month: the subscription start moved by [monthDiff] months. *)
Definition usagePeriodStart (subscriptionStart : JSDate.t)
           (activeMonth activeYear : Z) : JSDate.t :=
  let periodStart := subscriptionStart in
  let periodStart :=
    JSDate.setMonth periodStart (JSDate.getMonth subscriptionStart) in
  let periodStart :=
    JSDate.setFullYear periodStart (JSDate.getFullYear subscriptionStart) in
  let monthDiff :=
    (activeYear - JSDate.getFullYear subscriptionStart) * 12
    + (activeMonth - 1 - JSDate.getMonth subscriptionStart) in
  let periodStart :=
    JSDate.setMonth periodStart
                    (JSDate.getMonth subscriptionStart + monthDiff) in
  JSDate.setFullYear periodStart
    (JSDate.getFullYear subscriptionStart
     + (JSDate.getMonth subscriptionStart + monthDiff) / 12).

(** The end of a period, [periodEnd] and [endDate]: the same day of the
    next month. *)
Definition periodEnd (periodStart : JSDate.t) : JSDate.t :=
  JSDate.setMonth periodStart (JSDate.getMonth periodStart + 1).

(** Whether the active month is the current month of the snapshot
    rather than the last one. *)
Definition usesCurrentMonth (stats : CursorStats) : bool :=
  (0 <? length (items (usageBasedPricing (currentMonth stats))))%nat
  || Stats.hasTeamSpend stats.

(** The usage-based period of the tooltip, [periodStart] and
    [periodEnd]: shown when the block of the usage-based figures is
    entered, for the month and the year of the active month.  [None]
    when the block is not entered, and when the start of the
    subscription or the month is not a date or a number. *)
Definition shownUsagePeriod (stats : CursorStats)
  : option (JSDate.t * JSDate.t) :=
  if Stats.showsUsage stats then
    let activeMonthData := Stats.activeMonthData stats in
    match JSDate.parse (startOfMonth (premiumRequests stats)),
          month activeMonthData, year activeMonthData with
    | Some subscriptionStart, Some activeMonth, Some activeYear =>
        let periodStart :=
          usagePeriodStart subscriptionStart activeMonth activeYear in
        Some (periodStart, periodEnd periodStart)
    | _, _, _ => None
    end
  else None.

End Display.

(* ================================================================= *)
(** ** Notions for reasoning about matches *)

Module Matching.

Import Regex.

(** The loop of a repetition, as [rmatch] runs it. *)
Definition repLoop (greedy : bool) (r' : regex)
           (k : cursor -> captures -> option outcome)
  : nat -> cursor -> captures -> option outcome :=
  fix loop (n : nat) (i : cursor) (c : captures) : option outcome :=
    match n with
    | O => k i c
    | S n' =>
        let again :=
          rmatch r' i c
            (fun i' c' =>
               if (String.length (snd i') <? String.length (snd i))%nat
               then loop n' i' c' else None) in
        if greedy then orElse again (k i c) else orElse (k i c) again
    end.

(** The capture groups of a pattern. *)
Fixpoint groupsOf (r : regex) : list nat :=
  match r with
  | Cat r1 r2 | Alt r1 r2 => (groupsOf r1 ++ groupsOf r2)%list
  | Rep _ r' => groupsOf r'
  | Grp n r' => n :: groupsOf r'
  | _ => []
  end.

(** The cursor after the longest run of characters of a class. *)
Fixpoint afterRun (p : ascii -> bool) (prev : option ascii) (s : string)
  : cursor :=
  match s with
  | String a s' => if p a then afterRun p (Some a) s' else (prev, s)
  | EmptyString => (prev, s)
  end.

(** A text made of characters of one class only. *)
Fixpoint allOf (p : ascii -> bool) (s : string) : bool :=
  match s with
  | EmptyString => true
  | String a s' => p a && allOf p s'
  end.

(** Whether a text is empty or starts outside a class. *)
Definition stopsRun (p : ascii -> bool) (s : string) : bool :=
  match s with
  | EmptyString => true
  | String a _ => negb (p a)
  end.

(** The character before the position reached after reading [s]. *)
Fixpoint endOf (prev : option ascii) (s : string) : option ascii :=
  match s with
  | EmptyString => prev
  | String a s' => endOf (Some a) s'
  end.

(** A text without the occurrences of one character. *)
Fixpoint without (c : ascii) (s : string) : string :=
  match s with
  | EmptyString => EmptyString
  | String a s' => if Ascii.eqb c a then without c s'
                   else String a (without c s')
  end.

End Matching.

(* ================================================================= *)
(** ** Notions for the lines of an invoice and the requests of a
    snapshot *)

Module Notions.

(** The number a description starts with: the value of its leading run
    of digits, none when it does not start with a digit. *)
Definition leadingNumber (desc : string) : option Z :=
  match JS.digitsPrefix desc with
  | EmptyString => None
  | ds => Some (JS.digitsValue ds 0)
  end.

(** A raw line that is kept as a usage line: it has cents, its
    description does not carry the prepayment marker and starts with a
    number other than 0. *)
Definition keptLine (item : RawItem) : bool :=
  match raw_cents item with
  | None => false
  | Some _ =>
      negb (Api.isMidMonth item)
      && match leadingNumber (raw_description item) with
         | Some n => negb (n =? 0)
         | None => false
         end
  end.

(** A usage line renders a raw line: the description as it is, the
    total [cents / 100] with two decimals, the discount flag of the
    description. *)
Definition renders (item : RawItem) (line : UsageItem) : Prop :=
  match raw_cents item with
  | Some cents =>
      description line = raw_description item
      /\ totalDollars line = "$" ++ JS.toFixed 2 (Api.dollars cents)
      /\ isDiscounted line
         = Some (JS.includes (JS.toLowerCase (raw_description item))
                             "discounted")
  | None => False
  end.

(** The sum of the positive costs, [cents / 100], of the kept lines. *)
Fixpoint keptTotal (raw : list RawItem) : Q :=
  match raw with
  | [] => 0%Q
  | item :: rest =>
      if keptLine item
      then (Spec.positiveCost item + keptTotal rest)%Q
      else keptTotal rest
  end.


(** A divisor that is a positive number. *)
Definition positiveDivisor (d : option Z) : Prop :=
  exists n, d = Some n /\ 0 < n.

(** A line of the token-based form: count, model and amount around the
    fixed words. *)
Definition tokenBasedLine (count model amount : string) : string :=
  count ++ " token-based usage calls to " ++ model
        ++ ", totalling: $" ++ amount.

(** [[\w.-]] *)
Definition isModelChar (x : ascii) : bool :=
  JS.isWord x || Ascii.eqb x "." || Ascii.eqb x "-".

(** [[\d.]] *)
Definition isAmountChar (x : ascii) : bool :=
  JS.isDigit x || Ascii.eqb x ".".

Definition startsWithAmount (amount : string) : bool :=
  match amount with
  | String x _ => isAmountChar x
  | EmptyString => false
  end.

(** The requests [fetchCursorStats] sends once the membership is
    resolved: team spend for a resolved member, the individual usage,
    the invoices of the two months. *)
Definition requestsAfterMembership (token : string) (info : Team.Membership)
           (stats : CursorStats) : list Request :=
  (match Spec.resolvedMember info with
   | Some (teamId, _) => [PostTeamSpend teamId]
   | None => []
   end
   ++ [ GetUsage (Spec.userOf token);
        PostMonthlyInvoice (month (currentMonth stats))
                           (year (currentMonth stats));
        PostMonthlyInvoice (month (lastMonth stats))
                           (year (lastMonth stats)) ])%list.

End Notions.

Module MoreSamples.

Import Samples.

(** The world of the team member with the invoice requests failing. *)
Definition invoiceDown : World :=
  mkWorld (reply_usage teamWorld) (reply_teams teamWorld)
          (reply_team teamWorld) (reply_teamSpend teamWorld)
          (fun _ _ => Err down) (jwt_sub teamWorld)
          (newDate teamWorld) (dateNow teamWorld) (t teamWorld).

(** An invoice with usage of 3.00 dollars and a prepayment of 5.00
    dollars. *)
Definition prepaidInvoice : InvoiceResponse :=
  mkInvoice (Some [ mkRaw "30 premium requests" (Some 300);
                    mkRaw "Mid-month usage paid" (Some (-500)) ])
            false.

(** The world of the user outside a team, every invoice being the
    prepaid one. *)
Definition prepaidWorld : World :=
  mkWorld (reply_usage soloWorld) (reply_teams soloWorld)
          (reply_team soloWorld) (reply_teamSpend soloWorld)
          (fun _ _ => Ok prepaidInvoice) (jwt_sub soloWorld)
          (newDate soloWorld) (dateNow soloWorld) (t soloWorld).

(** The world of the user outside a team whose invoice of April has no
    line yet, the other months having the lines of [aprilInvoice]. *)
Definition quietApril : World :=
  mkWorld (reply_usage soloWorld) (reply_teams soloWorld)
          (reply_team soloWorld) (reply_teamSpend soloWorld)
          (fun month _ =>
             match month with
             | Some 4 => Ok (mkInvoice (Some []) false)
             | _ => Ok aprilInvoice
             end)
          (jwt_sub soloWorld)
          (newDate soloWorld) (dateNow soloWorld) (t soloWorld).

(** The snapshot of that world for the session, on 15 April 2024. *)
Definition quietAprilSnapshot : CursorStats :=
  mkStats (mkMonthStats (Some 4) (Some 2024)
             (Api.monthDataOf quietApril (mkInvoice (Some []) false)))
          (mkMonthStats (Some 3) (Some 2024)
             (Api.monthDataOf quietApril aprilInvoice))
          (mkPremium 120 None "2024-01-15T00:00:00.000Z")
          false None None.

(** The snapshot of the prepaid world for the session, on 15 April
    2024. *)
Definition prepaidSnapshot : CursorStats :=
  mkStats (mkMonthStats (Some 4) (Some 2024)
                        (Api.monthDataOf prepaidWorld prepaidInvoice))
          (mkMonthStats (Some 3) (Some 2024)
                        (Api.monthDataOf prepaidWorld prepaidInvoice))
          (mkPremium 120 None "2024-01-15T00:00:00.000Z")
          false None None.

End MoreSamples.

(* ================================================================= *)
(** * Properties *)

(** ** Generalities *)

Lemma fold_left_invariant {A B} (I : A -> Prop) (f : A -> B -> A) :
  (forall a x, I a -> I (f a x)) ->
  forall l a, I a -> I (fold_left f l a).
Proof.
  intros step l; induction l as [|x l IH]; intros a Ha; simpl.
  - exact Ha.
  - apply IH, step, Ha.
Qed.

Lemma filter_snoc_false {A} (p : A -> bool) (l : list A) (x : A) :
  p x = false -> filter p (l ++ [x]) = filter p l.
Proof.
  intros Hx. rewrite filter_app. simpl. rewrite Hx. apply app_nil_r.
Qed.

(** ** Printing and reading back amounts *)

Module TextFacts.

Import JS Spec.

Ltac eval_digit :=
  repeat match goal with
         | |- context [digitVal (Ascii ?a ?b ?c ?d ?e ?f ?g ?h)] =>
             let v := eval vm_compute in
                        (digitVal (Ascii a b c d e f g h)) in
             change (digitVal (Ascii a b c d e f g h)) with v
         end.

Lemma digitsValue_acc d :
  forall acc : positive,
    digitsValue (NilEmpty.string_of_uint d) (Z.pos acc)
    = Z.pos (Pos.of_uint_acc d acc).
Proof.
  induction d; intros acc; cbn [NilEmpty.string_of_uint digitsValue Pos.of_uint_acc];
    try reflexivity;
    match goal with
    | |- digitsValue _ ?a = _ =>
        match goal with
        | |- _ = Z.pos (Pos.of_uint_acc _ ?b) =>
            replace a with (Z.pos b) by (eval_digit; lia)
        end
    end; apply IHd.
Qed.

Lemma digitsValue_of_uint d :
  digitsValue (NilEmpty.string_of_uint d) 0 = Z.of_N (Pos.of_uint d).
Proof.
  induction d; cbn [NilEmpty.string_of_uint digitsValue Pos.of_uint];
    try reflexivity;
    try (match goal with
         | |- digitsValue _ ?a = Z.of_N (N.pos (Pos.of_uint_acc _ ?b)) =>
             replace a with (Z.pos b) by (eval_digit; lia)
         end; apply digitsValue_acc).
  replace (10 * 0 + digitVal "0") with 0 by (eval_digit; lia).
  exact IHd.
Qed.

Lemma natText_value n : 0 <= n -> digitsValue (natText n) 0 = n.
Proof.
  intros H. unfold natText. rewrite digitsValue_of_uint.
  change (Pos.of_uint (N.to_uint (Z.to_N n)))
    with (N.of_uint (N.to_uint (Z.to_N n))).
  rewrite DecimalN.Unsigned.of_to. lia.
Qed.

Lemma allDigits_of_uint d : allDigits (NilEmpty.string_of_uint d) = true.
Proof. induction d; cbn; auto. Qed.

Lemma allDigits_app a b :
  allDigits a = true -> allDigits b = true -> allDigits (a ++ b) = true.
Proof.
  induction a as [|c a IH]; cbn; intros Ha Hb; [exact Hb|].
  apply andb_true_iff in Ha as [Hc Ha]. rewrite Hc. cbn. now apply IH.
Qed.

Lemma allDigits_repeat k : allDigits (repeat "0" k) = true.
Proof. induction k; cbn; auto. Qed.

Lemma allDigits_substringTo k :
  forall s, allDigits s = true -> allDigits (substringTo k s) = true.
Proof.
  induction k as [|k IH]; intros [|c s] H; cbn; try reflexivity.
  cbn in H. apply andb_true_iff in H as [Hc H]. rewrite Hc. cbn. now apply IH.
Qed.

Lemma allDigits_substringFrom k :
  forall s, allDigits s = true -> allDigits (substringFrom k s) = true.
Proof.
  induction k as [|k IH]; intros [|c s] H; cbn; try reflexivity; try exact H.
  cbn in H. apply andb_true_iff in H as [_ H]. now apply IH.
Qed.

Lemma substring_split k :
  forall s, substringTo k s ++ substringFrom k s = s.
Proof.
  induction k as [|k IH]; intros [|c s]; cbn; try reflexivity.
  now rewrite IH.
Qed.

Lemma length_substringFrom k :
  forall s, String.length (substringFrom k s) = (String.length s - k)%nat.
Proof.
  induction k as [|k IH]; intros [|c s]; cbn; try reflexivity.
  apply IH.
Qed.

Lemma length_append a b :
  String.length (a ++ b) = (String.length a + String.length b)%nat.
Proof. induction a; cbn; congruence. Qed.

Lemma length_repeat c k : String.length (repeat c k) = k.
Proof. induction k; cbn; congruence. Qed.

Lemma digitsValue_app a :
  forall b acc, digitsValue (a ++ b) acc = digitsValue b (digitsValue a acc).
Proof. induction a as [|c a IH]; intros b acc; cbn; [reflexivity|apply IH]. Qed.

Lemma digitsValue_shift b :
  forall acc,
    digitsValue b acc
    = acc * 10 ^ Z.of_nat (String.length b) + digitsValue b 0.
Proof.
  induction b as [|c b IH]; intros acc.
  - cbn. lia.
  - cbn [digitsValue String.length]. rewrite IH.
    rewrite (IH (10 * 0 + digitVal c)).
    rewrite Nat2Z.inj_succ, Z.pow_succ_r by lia. ring.
Qed.

Lemma digitsValue_zeros k :
  forall acc, digitsValue (repeat "0" k) acc = acc * 10 ^ Z.of_nat k.
Proof.
  induction k as [|k IH]; intros acc.
  - cbn. lia.
  - cbn [repeat digitsValue]. rewrite IH.
    rewrite Nat2Z.inj_succ, Z.pow_succ_r by lia.
    eval_digit. ring.
Qed.

Lemma digitsPrefix_all a :
  allDigits a = true -> digitsPrefix a = a.
Proof.
  induction a as [|c a IH]; cbn; intros H; [reflexivity|].
  apply andb_true_iff in H as [Hc H]. rewrite Hc. now rewrite IH.
Qed.

Lemma digitsPrefix_point a b :
  allDigits a = true -> digitsPrefix (a ++ String "." b) = a.
Proof.
  induction a as [|c a IH]; cbn; intros H; [reflexivity|].
  apply andb_true_iff in H as [Hc H]. rewrite Hc. now rewrite IH.
Qed.

Lemma substringFrom_app a b : substringFrom (String.length a) (a ++ b) = b.
Proof. induction a as [|c a IH]; cbn; [now destruct b|exact IH]. Qed.

Lemma trimStart_digit c s :
  isDigit c = true -> trimStart (String c s) = String c s.
Proof.
  intros H. cbn. destruct (isSpace c) eqn:E; [|reflexivity].
  exfalso. unfold isDigit, isSpace in *. cbv zeta in *.
  apply andb_true_iff in H as [H1 H2].
  apply N.leb_le in H1. apply N.leb_le in H2.
  apply orb_true_iff in E as [E|E].
  - apply andb_true_iff in E as [_ E]. apply N.leb_le in E. lia.
  - apply N.eqb_eq in E. lia.
Qed.

Lemma digit_not_sign c :
  isDigit c = true -> c <> "-"%char /\ c <> "+"%char.
Proof.
  intros H. split; intros ->; discriminate.
Qed.

(** The text [a.b] of digits reads as [a + b / 10^|b|]. *)
Lemma parseFloat_decimal a b :
  allDigits a = true -> a <> "" -> allDigits b = true ->
  parseFloat (a ++ String "." b)
  = Some (inject_Z (digitsValue a 0)
          + inject_Z (digitsValue b 0)
            / inject_Z (10 ^ Z.of_nat (String.length b)))%Q.
Proof.
  intros Ha Hne Hb. destruct a as [|c a]; [congruence|].
  cbn in Ha. apply andb_true_iff in Ha as [Hc Ha].
  assert (Hall : allDigits (String c a) = true) by (cbn; now rewrite Hc, Ha).
  unfold parseFloat. cbn [append]. rewrite (@trimStart_digit c _ Hc).
  destruct c as [[] [] [] [] [] [] [] []]; try discriminate Hc;
    change (String ?x (a ++ String "." b))
      with (String x a ++ String "." b);
    cbv iota;
    rewrite (@digitsPrefix_point _ b Hall);
    rewrite substringFrom_app;
    rewrite (@digitsPrefix_all b Hb); reflexivity.
Qed.


Lemma parseFloat_minus_decimal a b :
  allDigits a = true -> a <> "" -> allDigits b = true ->
  parseFloat (String "-" (a ++ String "." b))
  = Some (- (inject_Z (digitsValue a 0)
             + inject_Z (digitsValue b 0)
               / inject_Z (10 ^ Z.of_nat (String.length b))))%Q.
Proof.
  intros Ha Hne Hb. unfold parseFloat. cbn [trimStart].
  change (isSpace "-") with false. cbv iota.
  rewrite (@digitsPrefix_point a b Ha), substringFrom_app,
    (@digitsPrefix_all b Hb).
  destruct a; [congruence|reflexivity].
Qed.

Lemma roundHalfUp_cents c :
  roundHalfUp (Qabs (Api.dollars c) * inject_Z (10 ^ Z.of_nat 2)) = Z.abs c.
Proof.
  unfold roundHalfUp.
  rewrite (@Qfloor_comp _ (inject_Z (Z.abs c) + (1 # 2))%Q).
  - unfold Qfloor, inject_Z, Qplus. cbn [Qnum Qden].
    change (Z.pos (1 * 2)) with 2. Z.div_mod_to_equations. lia.
  - apply Qplus_comp; [|reflexivity].
    unfold Api.dollars, Qabs, Qeq, Qdiv, Qmult, Qinv, inject_Z.
    cbn [Qnum Qden]. change (10 ^ Z.of_nat 2) with 100.
    cbn [Qnum Qden Z.mul Pos.mul]. destruct c; cbn; lia.
Qed.

Lemma substringTo_nonempty k c s : substringTo (S k) (String c s) <> "".
Proof. cbn. congruence. Qed.

(** The two-decimal text of an amount of whole cents. *)
Lemma toFixed_cents c :
  exists a b,
    toFixed 2 (Api.dollars c)
    = (if c <? 0 then String "-" (a ++ String "." b) else a ++ String "." b)
    /\ allDigits a = true /\ a <> "" /\ allDigits b = true
    /\ String.length b = 2%nat
    /\ digitsValue a 0 * 100 + digitsValue b 0 = Z.abs c.
Proof.
  unfold toFixed. rewrite roundHalfUp_cents.
  assert (Hneg : (Qnum (Api.dollars c) <? 0) = (c <? 0)).
  { unfold Api.dollars, Qdiv, Qmult, Qinv, inject_Z. cbn [Qnum Qden].
    f_equal. lia. }
  rewrite Hneg.
  set (text := natText (Z.abs c)).
  set (m := padStart text 3 "0").
  assert (Htext : allDigits text = true) by apply allDigits_of_uint.
  assert (Hm : allDigits m = true).
  { unfold m, padStart. apply allDigits_app; [apply allDigits_repeat|exact Htext]. }
  assert (Hlen : (3 <= String.length m)%nat).
  { unfold m, padStart. rewrite length_append, length_repeat. lia. }
  assert (Hval : digitsValue m 0 = Z.abs c).
  { unfold m, padStart. rewrite digitsValue_app, digitsValue_zeros.
    rewrite Z.mul_0_l. apply natText_value. lia. }
  set (k := (String.length m - 2)%nat).
  exists (substringTo k m), (substringFrom k m).
  assert (Hb : String.length (substringFrom k m) = 2%nat)
    by (rewrite length_substringFrom; unfold k; lia).
  split; [|split; [|split; [|split; [|split]]]].
  - destruct (c <? 0); reflexivity.
  - now apply allDigits_substringTo.
  - destruct k as [|k'] eqn:Hk; [unfold k in Hk; lia|].
    destruct m as [|ch m']; [cbn in Hlen; lia|]. apply substringTo_nonempty.
  - now apply allDigits_substringFrom.
  - exact Hb.
  - transitivity (digitsValue (substringTo k m ++ substringFrom k m) 0);
      [|rewrite substring_split; exact Hval].
    rewrite digitsValue_app.
    rewrite (digitsValue_shift (substringFrom k m)
                               (digitsValue (substringTo k m) 0)).
    rewrite Hb. reflexivity.
Qed.

Lemma replaceFirst_dollar x : replaceFirst (String "$" x) "$" "" = x.
Proof. destruct x; reflexivity. Qed.

(** Cents printed with two decimals read back as the same amount. *)
Lemma parseFloat_toFixed_cents c :
  exists q, parseFloat (toFixed 2 (Api.dollars c)) = Some q
            /\ (q == Api.dollars c)%Q.
Proof.
  destruct (toFixed_cents c) as (a & b & Htext & Ha & Hne & Hb & Hlen & Hval).
  rewrite Htext.
  assert (Hq : (inject_Z (digitsValue a 0)
                + inject_Z (digitsValue b 0)
                  / inject_Z (10 ^ Z.of_nat (String.length b))
                == inject_Z (Z.abs c) / 100)%Q).
  { rewrite Hlen, <- Hval. change (10 ^ Z.of_nat 2) with 100.
    rewrite inject_Z_plus, inject_Z_mult. field. }
  destruct (c <? 0) eqn:Hc.
  - rewrite (@parseFloat_minus_decimal a b Ha Hne Hb). eexists.
    split; [reflexivity|]. rewrite Hq. unfold Api.dollars.
    apply Z.ltb_lt in Hc. rewrite Z.abs_neq by lia.
    rewrite inject_Z_opp. field.
  - rewrite (@parseFloat_decimal a b Ha Hne Hb). eexists.
    split; [reflexivity|]. rewrite Hq. unfold Api.dollars.
    apply Z.ltb_ge in Hc. rewrite Z.abs_eq by lia. reflexivity.
Qed.

(** The cost read off a pushed usage line is the line's cents over 100. *)
Lemma itemCost_usageLine w padW costW desc cents requestCount name totalling :
  exists q,
    Stats.itemCost (Api.usageLine w padW costW desc cents requestCount
                                  name totalling) = Some q
    /\ (q == Api.dollars cents)%Q.
Proof.
  unfold Stats.itemCost, Api.usageLine. cbn [totalDollars append].
  rewrite replaceFirst_dollar. apply parseFloat_toFixed_cents.
Qed.

Lemma digitVal_nonneg c : JS.isDigit c = true -> 0 <= JS.digitVal c.
Proof.
  unfold JS.isDigit, JS.digitVal. intros H. cbv zeta in H.
  apply andb_true_iff in H as [H _]. apply N.leb_le in H. lia.
Qed.

Lemma digitsValue_nonneg s :
  forall acc, 0 <= acc -> 0 <= JS.digitsValue (JS.digitsPrefix s) acc.
Proof.
  induction s as [|c s IH]; intros acc Hacc;
    cbn [JS.digitsPrefix JS.digitsValue].
  - exact Hacc.
  - destruct (JS.isDigit c) eqn:Hc; cbn [JS.digitsValue]; [|exact Hacc].
    apply IH. pose proof (digitVal_nonneg c Hc). lia.
Qed.

(** A text that begins with a minus sign does not read as a positive
    number. *)
Lemma parseFloat_minus r :
  match JS.parseFloat (String "-" r) with
  | Some cost => Stats.Qltb 0 cost = false
  | None => True
  end.
Proof.
  unfold JS.parseFloat. cbn [JS.trimStart].
  change (JS.isSpace "-") with false. cbv iota.
  set (ip := JS.digitsPrefix r).
  set (rest := JS.substringFrom (String.length ip) r).
  set (fp := match rest with
             | String "." r2 => JS.digitsPrefix r2
             | _ => EmptyString
             end).
  assert (Hip : 0 <= JS.digitsValue ip 0)
    by (apply digitsValue_nonneg; lia).
  assert (Hfp : 0 <= JS.digitsValue fp 0).
  { subst fp. destruct rest as [|c r2]; [cbn; lia|].
    destruct (Ascii.eqb c ".") eqn:E.
    - apply Ascii.eqb_eq in E. subst c. apply digitsValue_nonneg. lia.
    - assert (Hc : c <> "."%char) by (intros ->; now rewrite Ascii.eqb_refl in E).
      destruct c as [[] [] [] [] [] [] [] []]; try (cbn; lia).
      congruence. }
  assert (Hv : (0 <= inject_Z (JS.digitsValue ip 0)
                     + inject_Z (JS.digitsValue fp 0)
                       / inject_Z (10 ^ Z.of_nat (String.length fp)))%Q).
  { apply Qle_trans with (0 + 0)%Q; [apply Qle_refl|].
    apply Qplus_le_compat.
    - change 0%Q with (inject_Z 0). now rewrite <- Zle_Qle.
    - apply Qle_shift_div_l.
      + change 0%Q with (inject_Z 0). rewrite <- Zlt_Qlt.
        apply Z.pow_pos_nonneg; lia.
      + rewrite Qmult_0_l. change 0%Q with (inject_Z 0).
        now rewrite <- Zle_Qle. }
  clearbody ip fp.
  assert (Hneg : forall v : Q, (0 <= v)%Q -> Stats.Qltb 0 (- v) = false).
  { intros v H. unfold Stats.Qltb. apply negb_false_iff.
    apply Qle_bool_iff. apply (Qopp_le_compat 0 v) in H. exact H. }
  destruct ip, fp; try exact I; apply Hneg; exact Hv.
Qed.

Lemma replaceFirst_minus_dollar x :
  JS.replaceFirst (String "-" (String "$" x)) "$" "" = String "-" x.
Proof. destruct x; reflexivity. Qed.

End TextFacts.

(** ** The line parser *)

Module ApiFacts.

Import Api Spec Samples.

Lemma midMonthLine_not_parsed w total desc :
  isParsedUsageItem (midMonthLine w total desc) = false.
Proof. reflexivity. Qed.

(** *** The totals of an invoice *)

Lemma midMonthLine_counts_nothing w total desc :
  match Stats.itemCost (midMonthLine w total desc) with
  | Some cost => Stats.Qltb 0 cost = false
  | None => True
  end.
Proof.
  unfold Stats.itemCost, midMonthLine. cbn [totalDollars].
  cbn [append]. rewrite TextFacts.replaceFirst_minus_dollar.
  apply TextFacts.parseFloat_minus.
Qed.

Lemma processItem_accountable w padW costW acc item :
  Forall accountable (usageItems acc) ->
  Forall accountable (usageItems (processItem w padW costW acc item)).
Proof.
  intros H. unfold processItem.
  destruct (raw_cents item); [|exact H].
  destruct (isMidMonth item).
  - cbn [usageItems]. apply Forall_app; split; [exact H|].
    constructor; [|constructor]. right. apply midMonthLine_counts_nothing.
  - destruct (parseDescription w (raw_description item))
      as [|requestCount name tot]; [exact H|].
    destruct requestCount as [[|p|p]|]; try exact H;
      cbn [usageItems]; apply Forall_app; split; try exact H;
      (constructor; [left; reflexivity|constructor]).
Qed.

Lemma sumPositive_parsed_from lines :
  Forall accountable lines ->
  forall sum,
    fold_left
      (fun sum item =>
         match Stats.itemCost item with
         | Some cost => if Stats.Qltb 0 cost then (sum + cost)%Q else sum
         | None => sum
         end)
      (parsedUsageItems lines) sum
    = fold_left
        (fun sum item =>
           match Stats.itemCost item with
           | Some cost => if Stats.Qltb 0 cost then (sum + cost)%Q else sum
           | None => sum
           end)
        lines sum.
Proof.
  induction 1 as [|line lines Hline _ IH]; intros sum; [reflexivity|].
  unfold parsedUsageItems in *. cbn [filter fold_left].
  destruct (isParsedUsageItem line) eqn:Hp.
  - cbn [fold_left]. apply IH.
  - rewrite IH. destruct Hline as [Hline|Hline]; [congruence|].
    destruct (Stats.itemCost line) as [cost|]; [|reflexivity].
    now rewrite Hline.
Qed.

Lemma Qltb_comp q q' : (q == q')%Q -> Stats.Qltb 0 q = Stats.Qltb 0 q'.
Proof.
  intros H. unfold Stats.Qltb. f_equal.
  destruct (Qle_bool q 0) eqn:E, (Qle_bool q' 0) eqn:E'; try reflexivity.
  - apply Qle_bool_iff in E. rewrite H in E. apply Qle_bool_iff in E.
    congruence.
  - apply Qle_bool_iff in E'. rewrite <- H in E'. apply Qle_bool_iff in E'.
    congruence.
Qed.

Lemma Qltb_dollars cents : Stats.Qltb 0 (dollars cents) = (0 <? cents).
Proof.
  unfold Stats.Qltb, dollars, Qle_bool, Qdiv, Qmult, Qinv, inject_Z.
  cbn [Qnum Qden]. rewrite Z.mul_1_r.
  destruct (0 <? cents) eqn:E.
  - apply Z.ltb_lt in E. apply negb_true_iff. apply Z.leb_gt. lia.
  - apply Z.ltb_ge in E. apply negb_false_iff. apply Z.leb_le. lia.
Qed.

Lemma sumPositive_snoc lines line :
  Stats.sumPositive (lines ++ [line])
  = match Stats.itemCost line with
    | Some cost =>
        if Stats.Qltb 0 cost then (Stats.sumPositive lines + cost)%Q
        else Stats.sumPositive lines
    | None => Stats.sumPositive lines
    end.
Proof. unfold Stats.sumPositive. now rewrite fold_left_app. Qed.

Lemma usageLine_total w padW costW lines desc cents requestCount name tot :
  (Stats.sumPositive
     (lines ++ [usageLine w padW costW desc cents requestCount name tot])
   == Stats.sumPositive lines
      + (if 0 <? cents then dollars cents else 0))%Q.
Proof.
  rewrite sumPositive_snoc.
  destruct (TextFacts.itemCost_usageLine w padW costW desc cents
              requestCount name tot) as (q & Hcost & Hq).
  rewrite Hcost, (Qltb_comp Hq), Qltb_dollars.
  destruct (0 <? cents); [now rewrite Hq|ring].
Qed.

Lemma midMonthLine_total w lines total desc :
  Stats.sumPositive (lines ++ [midMonthLine w total desc])
  = Stats.sumPositive lines.
Proof.
  rewrite sumPositive_snoc.
  pose proof (midMonthLine_counts_nothing w total desc) as H.
  destruct (Stats.itemCost (midMonthLine w total desc)); [|reflexivity].
  now rewrite H.
Qed.

Lemma processItem_total w padW costW acc item :
  (Stats.sumPositive (usageItems (processItem w padW costW acc item))
   == Stats.sumPositive (usageItems acc)
      + (if yieldsParsedItem w item then positiveCost item else 0))%Q.
Proof.
  unfold processItem, yieldsParsedItem, positiveCost.
  destruct (raw_cents item) as [cents|]; [|ring].
  destruct (isMidMonth item).
  - cbn [usageItems]. rewrite midMonthLine_total. ring.
  - destruct (parseDescription w (raw_description item))
      as [|requestCount name tot]; [ring|].
    destruct requestCount as [[|p|p]|]; try ring;
      cbn [usageItems]; apply usageLine_total.
Qed.

Lemma parseLoop_total w padW costW raw :
  forall acc,
    (Stats.sumPositive
       (usageItems (fold_left (processItem w padW costW) raw acc))
     == Stats.sumPositive (usageItems acc) + invoiceTotal w raw)%Q.
Proof.
  induction raw as [|item raw IH]; intros acc; cbn [fold_left invoiceTotal].
  - ring.
  - rewrite IH, processItem_total.
    destruct (yieldsParsedItem w item); ring.
Qed.

(** The total of the lines pushed for an invoice is the sum of the
    positive costs, cents over 100, of the raw lines that yield a
    ParsedUsageItem. *)
Lemma parseItems_total w raw :
  (Stats.sumPositive (usageItems (parseItems w raw)) == invoiceTotal w raw)%Q.
Proof.
  unfold parseItems. rewrite parseLoop_total.
  cbn [usageItems emptyAcc]. unfold Stats.sumPositive. cbn. ring.
Qed.

Lemma invoiceTotal_app w before after :
  (invoiceTotal w (before ++ after)
   == invoiceTotal w before + invoiceTotal w after)%Q.
Proof.
  induction before as [|item before IH]; cbn [app invoiceTotal]; [ring|].
  destruct (yieldsParsedItem w item); rewrite IH; ring.
Qed.

Lemma processItem_prepaid w padW costW acc item :
  (acc_midMonthPayment (processItem w padW costW acc item)
   == acc_midMonthPayment acc
      + (if isMidMonth item then prepayment item else 0))%Q.
Proof.
  unfold processItem, prepayment.
  destruct (raw_cents item) as [cents|]; [|destruct (isMidMonth item); ring].
  destruct (isMidMonth item); [reflexivity|].
  destruct (parseDescription w (raw_description item))
    as [|requestCount name tot]; [ring|].
  destruct requestCount as [[|p|p]|]; cbn [acc_midMonthPayment]; ring.
Qed.

Lemma parseLoop_prepaid w padW costW raw :
  forall acc,
    (acc_midMonthPayment (fold_left (processItem w padW costW) raw acc)
     == acc_midMonthPayment acc + prepaidTotal raw)%Q.
Proof.
  induction raw as [|item raw IH]; intros acc; cbn [fold_left prepaidTotal].
  - ring.
  - rewrite IH, processItem_prepaid. destruct (isMidMonth item); ring.
Qed.

(** The prepayment total of an invoice is the sum of the amounts of its
    marker lines. *)
Lemma parseItems_prepaid w raw :
  (acc_midMonthPayment (parseItems w raw) == prepaidTotal raw)%Q.
Proof.
  unfold parseItems. rewrite parseLoop_prepaid. cbn. ring.
Qed.

Lemma prepaidTotal_app before after :
  (prepaidTotal (before ++ after)
   == prepaidTotal before + prepaidTotal after)%Q.
Proof.
  induction before as [|item before IH]; cbn [app prepaidTotal]; [ring|].
  destruct (isMidMonth item); rewrite IH; ring.
Qed.

Lemma processItem_parsed w padW costW acc item :
  length (parsedUsageItems (usageItems (processItem w padW costW acc item)))
  = (length (parsedUsageItems (usageItems acc))
     + (if yieldsParsedItem w item then 1 else 0))%nat.
Proof.
  unfold processItem, yieldsParsedItem, parsedUsageItems.
  destruct (raw_cents item) as [cents|]; [|lia].
  destruct (isMidMonth item).
  - cbn [usageItems]. rewrite filter_snoc_false by reflexivity. lia.
  - destruct (parseDescription w (raw_description item))
      as [|requestCount name tot]; [lia|].
    destruct requestCount as [[|p|p]|]; try lia;
      cbn [usageItems]; rewrite filter_app, length_app; reflexivity.
Qed.

(** One ParsedUsageItem is pushed for each raw line that yields one. *)
Lemma parseItems_parsed w raw :
  length (parsedUsageItems (usageItems (parseItems w raw)))
  = length (filter (yieldsParsedItem w) raw).
Proof.
  unfold parseItems.
  generalize (paddingWidth raw) (costPaddingWidth raw). intros padW costW.
  change (length (filter (yieldsParsedItem w) raw))
    with (length (parsedUsageItems (usageItems emptyAcc))
          + length (filter (yieldsParsedItem w) raw))%nat.
  generalize emptyAcc.
  induction raw as [|item raw IH]; intros acc; cbn [fold_left filter].
  - cbn. lia.
  - rewrite IH, processItem_parsed.
    destruct (yieldsParsedItem w item); cbn [length]; lia.
Qed.

Lemma zero_count_yields_nothing w item name totalling :
  parseDescription w (raw_description item) = Counted (Some 0) name totalling ->
  yieldsParsedItem w item = false.
Proof.
  intros H. unfold yieldsParsedItem. rewrite H.
  destruct (raw_cents item); [|reflexivity].
  now destruct (isMidMonth item).
Qed.

Lemma mid_month_yields_nothing w item :
  isMidMonth item = true -> yieldsParsedItem w item = false.
Proof.
  intros H. unfold yieldsParsedItem. rewrite H.
  now destruct (raw_cents item).
Qed.

(** C5.  A line whose description carries the mid-month marker adds its
    amount, [|cents| / 100] dollars, to the running MidMonthPayment and
    adds no ParsedUsageItem (nor any division): only the running-total
    line is pushed.  Over a whole invoice the MidMonthPayment is the sum
    of the amounts of the marker lines, and the ParsedUsageItems are one
    for each line that yields one, which a marker line never does.  The
    sample line "Mid-month usage paid" of -500 cents contributes exactly
    5.00 dollars and leaves the list of ParsedUsageItems empty. *)
Theorem mid_month_line_accumulates :
  forall (w : World) (padW costW : nat) (acc : Acc) (item : RawItem),
    isMidMonth item = true ->
    let acc' := processItem w padW costW acc item in
    (acc_midMonthPayment acc' == acc_midMonthPayment acc + prepayment item)%Q
    /\ parsedUsageItems (usageItems acc') = parsedUsageItems (usageItems acc)
    /\ divisors acc' = divisors acc
    /\ yieldsParsedItem w item = false
    /\ (forall raw,
          (acc_midMonthPayment (parseItems w raw) == prepaidTotal raw)%Q
          /\ length (parsedUsageItems (usageItems (parseItems w raw)))
             = length (filter (yieldsParsedItem w) raw))
    /\ (acc_midMonthPayment (parseItems w [midMonthSample]) == 5)%Q
    /\ parsedUsageItems (usageItems (parseItems w [midMonthSample])) = [].
Proof.
  intros w padW costW acc item Hmid acc'. subst acc'.
  assert (Hinvoice :
            forall raw,
              (acc_midMonthPayment (parseItems w raw) == prepaidTotal raw)%Q
              /\ length (parsedUsageItems (usageItems (parseItems w raw)))
                 = length (filter (yieldsParsedItem w) raw))
    by (intros raw; split; [apply parseItems_prepaid|apply parseItems_parsed]).
  pose proof (mid_month_yields_nothing w item Hmid) as Hyield.
  unfold processItem, prepayment. rewrite Hmid.
  destruct (raw_cents item) as [cents|]; cbn [acc_midMonthPayment usageItems divisors].
  - repeat split; try reflexivity; try exact Hyield; try apply Hinvoice.
    apply filter_snoc_false, midMonthLine_not_parsed.
  - repeat split; try reflexivity; try exact Hyield; try apply Hinvoice.
    ring.
Qed.

Lemma mid_month_line_accumulates_witness :
  isMidMonth midMonthSample = true
  /\ (acc_midMonthPayment (processItem silent 1 5 emptyAcc midMonthSample)
      == acc_midMonthPayment emptyAcc + prepayment midMonthSample)%Q.
Proof.
  split; [reflexivity|].
  exact (proj1 (mid_month_line_accumulates silent 1 5 emptyAcc midMonthSample
                  eq_refl)).
Defined.

(** C6.  The line "142 token-based usage calls to claude-4-sonnet,
    totalling: $9.94" of 994 cents is parsed to the request count 142
    and the model "claude-4-sonnet", and exactly one line is pushed for
    it: model "claude-4-sonnet", not discounted, total "$9.94", which
    reads back as 994/100 = 9.94 dollars. *)
Theorem token_based_sample_parsed :
  forall w : World,
    parseDescription w (raw_description tokenBasedSample)
    = Counted (Some 142) "claude-4-sonnet" true
    /\ usageItems (parseItems w [tokenBasedSample])
       = [ mkItem ("**142** " ++ t w "api.requestUnit" ++ " @ **$0.070~**")
                  "$9.94"
                  (raw_description tokenBasedSample)
                  (Some "claude-4-sonnet")
                  (Some false) ]
    /\ Stats.itemCost
         (mkItem ("**142** " ++ t w "api.requestUnit" ++ " @ **$0.070~**")
                 "$9.94" (raw_description tokenBasedSample)
                 (Some "claude-4-sonnet") (Some false))
       = Some (994 # 100)
    /\ (dollars 994 == 9.94)%Q
    /\ (acc_midMonthPayment (parseItems w [tokenBasedSample]) == 0)%Q.
Proof.
  intros w. repeat split; vm_compute; reflexivity.
Qed.

(** *** Lines without requests *)

Lemma firstPass_divisors raw :
  Forall (fun d => isZeroDivisor d = false) (snd (firstPass raw)).
Proof.
  unfold firstPass.
  apply (fold_left_invariant
           (fun st : Z * Q * list (option Z) =>
              Forall (fun d => isZeroDivisor d = false) (snd st))).
  - intros [[m c] log] item H; cbn [snd] in *.
    destruct (raw_cents item); [|exact H].
    destruct (isMidMonth item); [exact H|].
    destruct (currentItemRequestCount (raw_description item)) as [n|];
      [|exact H].
    destruct (0 <? n) eqn:Hn; [|exact H].
    cbn [snd]. apply Forall_app; split; [exact H|].
    constructor; [|constructor].
    apply Z.ltb_lt in Hn. destruct n; try reflexivity; lia.
  - constructor.
Qed.

Lemma secondPass_divisors raw :
  Forall (fun d => isZeroDivisor d = false) (snd (secondPass raw)).
Proof.
  unfold secondPass.
  apply (fold_left_invariant
           (fun st : Q * list (option Z) =>
              Forall (fun d => isZeroDivisor d = false) (snd st))).
  - intros [c log] item H; cbn [snd] in *.
    destruct (raw_cents item); [|exact H].
    destruct (isMidMonth item); [exact H|].
    destruct (currentItemRequestCount (raw_description item)) as [n|];
      [|exact H].
    destruct (0 <? n) eqn:Hn; [|exact H].
    cbn [snd]. apply Forall_app; split; [exact H|].
    constructor; [|constructor].
    apply Z.ltb_lt in Hn. destruct n; try reflexivity; lia.
  - constructor.
Qed.

Lemma processItem_divisors w padW costW acc item :
  Forall (fun d => isZeroDivisor d = false) (divisors acc) ->
  Forall (fun d => isZeroDivisor d = false)
         (divisors (processItem w padW costW acc item)).
Proof.
  intros H. unfold processItem.
  destruct (raw_cents item); [|exact H].
  destruct (isMidMonth item); [exact H|].
  destruct (parseDescription w (raw_description item))
    as [|requestCount name tot]; [exact H|].
  destruct requestCount as [[|p|p]|]; try exact H;
    cbn [divisors]; apply Forall_app; split; try exact H;
    constructor; try constructor; reflexivity.
Qed.

Lemma no_zero_divisor w raw :
  Forall (fun d => isZeroDivisor d = false) (allDivisors w raw).
Proof.
  unfold allDivisors. apply Forall_app; split; [apply firstPass_divisors|].
  apply Forall_app; split; [apply secondPass_divisors|].
  unfold parseItems.
  apply (fold_left_invariant
           (fun acc => Forall (fun d => isZeroDivisor d = false)
                              (divisors acc))).
  - intros acc item. apply processItem_divisors.
  - constructor.
Qed.

(** C9.  A line whose parsed request count is 0 is skipped: the third
    loop pushes no ParsedUsageItem for it and performs no division, and,
    the line not being a prepayment line, leaves the items and the
    totals exactly as they were.  An invoice with such a line has the
    same total cost, the same number of ParsedUsageItems and, the line
    not being a prepayment line, the same MidMonthPayment as the invoice
    without it.  In all three loops over an invoice no per-request
    division has a zero divisor. *)
Theorem zero_request_line_skipped :
  forall (w : World) (padW costW : nat) (acc : Acc) (item : RawItem)
         (name : string) (totalling : bool),
    parseDescription w (raw_description item)
    = Counted (Some 0) name totalling ->
    let acc' := processItem w padW costW acc item in
    parsedUsageItems (usageItems acc') = parsedUsageItems (usageItems acc)
    /\ divisors acc' = divisors acc
    /\ (if isMidMonth item then True else acc' = acc)
    /\ (forall before after,
          (Stats.sumPositive
             (usageItems (parseItems w (before ++ item :: after)))
           == Stats.sumPositive (usageItems (parseItems w (before ++ after))))%Q
          /\ length (parsedUsageItems
                       (usageItems (parseItems w (before ++ item :: after))))
             = length (parsedUsageItems
                         (usageItems (parseItems w (before ++ after))))
          /\ (if isMidMonth item then True
              else (acc_midMonthPayment
                      (parseItems w (before ++ item :: after))
                    == acc_midMonthPayment (parseItems w (before ++ after)))%Q))
    /\ (forall raw, Forall (fun d => isZeroDivisor d = false)
                           (allDivisors w raw)).
Proof.
  intros w padW costW acc item name totalling Hzero acc'. subst acc'.
  pose proof (zero_count_yields_nothing w item Hzero) as Hyield.
  assert (Hinvoice :
            forall before after,
              (Stats.sumPositive
                 (usageItems (parseItems w (before ++ item :: after)))
               == Stats.sumPositive
                    (usageItems (parseItems w (before ++ after))))%Q
              /\ length (parsedUsageItems
                           (usageItems
                              (parseItems w (before ++ item :: after))))
                 = length (parsedUsageItems
                             (usageItems (parseItems w (before ++ after))))
              /\ (if isMidMonth item then True
                  else (acc_midMonthPayment
                          (parseItems w (before ++ item :: after))
                        == acc_midMonthPayment
                             (parseItems w (before ++ after)))%Q)).
  { intros before after. split; [|split].
    - rewrite !parseItems_total, !invoiceTotal_app. cbn [invoiceTotal].
      now rewrite Hyield.
    - rewrite !parseItems_parsed, !filter_app. cbn [filter].
      now rewrite Hyield.
    - destruct (isMidMonth item) eqn:Hmid; [exact I|].
      rewrite !parseItems_prepaid, !prepaidTotal_app. cbn [prepaidTotal].
      now rewrite Hmid. }
  unfold processItem. rewrite Hzero.
  destruct (raw_cents item) as [cents|].
  - destruct (isMidMonth item); cbn [usageItems divisors].
    + repeat split; try apply no_zero_divisor; try apply Hinvoice.
      apply filter_snoc_false, midMonthLine_not_parsed.
    + repeat split; try apply no_zero_divisor; apply Hinvoice.
  - destruct (isMidMonth item); repeat split;
      try apply no_zero_divisor; apply Hinvoice.
Qed.

Lemma zero_request_line_skipped_witness :
  parseDescription silent (raw_description zeroCountSample)
  = Counted (Some 0) "statusBar.unknownModel" false
  /\ processItem silent 1 5 emptyAcc zeroCountSample = emptyAcc.
Proof.
  split; [reflexivity|].
  exact (proj1 (proj2 (proj2
           (zero_request_line_skipped silent 1 5 emptyAcc zeroCountSample
              (name := "statusBar.unknownModel") (totalling := false)
              eq_refl)))).
Defined.

End ApiFacts.

(** ** Costs, the unpaid amount and unknown models *)

Module StatsFacts.

Import Stats Spec Samples.

(** *** The unpaid amount *)

(** The unpaid amount of any snapshot: 0 under team spend and
    [max(0, totalCost - midMonthPayment)] otherwise; it is never
    negative and is 0 whenever the total cost is below the prepayment;
    and the amount the tooltip states as unpaid, which it does only for
    invoice data, is [max(0, totalCost - midMonthPayment)]. *)
Lemma unpaidAmount_cases :
  forall stats : CursorStats,
    let total := actualTotalCost stats in
    let paid := midMonthPayment (usageBasedPricing (activeMonthData stats)) in
    unpaidAmount stats
    = (if useTeamSpendData stats then 0%Q else specUnpaid total paid)
    /\ (0 <= unpaidAmount stats)%Q
    /\ ((total < paid)%Q -> (unpaidAmount stats == 0)%Q)
    /\ (forall shownTotal unpaid,
          usageLine stats = UsageWithUnpaid shownTotal unpaid ->
          useTeamSpendData stats = false /\ unpaid = specUnpaid total paid).
Proof.
  intros stats total paid. subst total paid.
  unfold usageLine, unpaidAmount, specUnpaid.
  destruct (useTeamSpendData stats).
  - repeat split; try reflexivity; try apply Qle_refl.
    + destruct (showsUsage stats) in H; discriminate.
    + destruct (showsUsage stats) in H; discriminate.
  - split; [reflexivity|]. split; [apply Q.le_max_l|]. split.
    + intros Hlt. apply Q.max_l.
      apply Qlt_le_weak. apply (Qplus_lt_l _ _ (midMonthPayment
        (usageBasedPricing (activeMonthData stats)))).
      setoid_replace (actualTotalCost stats
                      - midMonthPayment
                          (usageBasedPricing (activeMonthData stats))
                      + midMonthPayment
                          (usageBasedPricing (activeMonthData stats)))%Q
        with (actualTotalCost stats) by ring.
      setoid_replace (0 + midMonthPayment
                            (usageBasedPricing (activeMonthData stats)))%Q
        with (midMonthPayment (usageBasedPricing (activeMonthData stats)))
        by ring.
      exact Hlt.
    + intros shownTotal unpaid H. split; [reflexivity|].
      destruct (showsUsage stats); [|discriminate].
      destruct (Qltb 0 _); [|discriminate].
      injection H as _ Hunpaid. symmetry. exact Hunpaid.
Qed.

(** *** The set of unknown models *)

Lemma record_present detected term :
  alreadyPresent detected term = true -> record detected term = detected.
Proof.
  intros H. unfold record. rewrite H. now destruct (meaningful term).
Qed.

Lemma alreadyPresent_intro detected term d :
  In d detected ->
  JS.includes (JS.toLowerCase d) (JS.toLowerCase term) = true
  \/ JS.includes (JS.toLowerCase term) (JS.toLowerCase d) = true ->
  alreadyPresent detected term = true.
Proof.
  intros Hin Hsub. unfold alreadyPresent. apply existsb_exists.
  exists d. split; [exact Hin|]. apply orb_true_iff. exact Hsub.
Qed.

Lemma alreadyPresent_sameFinding detected term :
  alreadyPresent detected term = existsb (fun d => sameFinding d term) detected.
Proof. reflexivity. Qed.

Lemma deduplicated_snoc detected term :
  deduplicated detected ->
  Forall (fun d => sameFinding d term = false) detected ->
  deduplicated (detected ++ [term]).
Proof.
  unfold deduplicated. induction 1 as [|d l Hd Hl IH]; intros Hnew; cbn.
  - constructor; constructor.
  - inversion Hnew as [|? ? Hd' Hl']; subst. constructor.
    + apply Forall_app; split; [exact Hd|]. constructor; [exact Hd'|constructor].
    + apply IH, Hl'.
Qed.

(** Recording a term keeps the set de-duplicated. *)
Lemma record_deduplicated detected term :
  deduplicated detected -> deduplicated (record detected term).
Proof.
  intros H. unfold record. destruct (meaningful term); [|exact H].
  destruct (alreadyPresent detected term) eqn:Hp; [exact H|].
  apply deduplicated_snoc; [exact H|].
  rewrite alreadyPresent_sameFinding in Hp.
  apply Forall_forall. intros d Hin.
  destruct (sameFinding d term) eqn:E; [|reflexivity].
  assert (existsb (fun d => sameFinding d term) detected = true)
    by (apply existsb_exists; eauto).
  congruence.
Qed.

Lemma detect_deduplicated stats detected :
  deduplicated detected -> deduplicated (detect stats detected).
Proof.
  intros H. unfold detect. destruct (_ && _); [|exact H].
  revert H. apply fold_left_invariant. intros acc item Hacc.
  unfold detectItem. destruct (JS.includes _ _); [exact Hacc|].
  destruct (_ && _); [|exact Hacc]. now apply record_deduplicated.
Qed.

Lemma notify_detected session :
  detectedUnknownModels (fst (notify session)) = detectedUnknownModels session.
Proof. unfold notify. now destruct (_ && _). Qed.

Lemma updateStats_deduplicated session fetched :
  deduplicated (detectedUnknownModels session) ->
  deduplicated (detectedUnknownModels (fst (updateStats session fetched))).
Proof.
  intros H. destruct fetched as [stats|e]; cbn; [|exact H].
  pose proof (notify_detected
                (mkSession (unknownModelNotificationShown session)
                           (detect stats (detectedUnknownModels session))))
    as Hn.
  destruct (notify _) as [session' notification]. cbn in Hn |- *.
  rewrite Hn. cbn. now apply detect_deduplicated.
Qed.

Lemma run_deduplicated cycles :
  forall session,
    deduplicated (detectedUnknownModels session) ->
    deduplicated (detectedUnknownModels (fst (run session cycles))).
Proof.
  induction cycles as [|fetched rest IH]; intros session H; cbn.
  - exact H.
  - pose proof (updateStats_deduplicated session fetched H) as Hu.
    destruct (updateStats session fetched) as [session' shown].
    cbn in Hu. specialize (IH session' Hu).
    now destruct (run session' rest) as [final more].
Qed.

(** *** The latch *)

Lemma notify_latched session :
  unknownModelNotificationShown session = true ->
  notify session = (session, None).
Proof. intros H. unfold notify. now rewrite H. Qed.

Lemma notify_cases session :
  notify session = (session, None)
  \/ exists text,
       notify session
       = (mkSession true (detectedUnknownModels session), Some text).
Proof.
  unfold notify. destruct (negb _ && _); [right|left]; eauto.
Qed.

Lemma updateStats_latched session fetched :
  unknownModelNotificationShown session = true ->
  unknownModelNotificationShown (fst (updateStats session fetched)) = true
  /\ notifications [snd (updateStats session fetched)] = [].
Proof.
  intros H. destruct fetched as [stats|e]; cbn.
  - rewrite notify_latched by exact H. cbn. auto.
  - auto.
Qed.

Lemma run_latched cycles :
  forall session,
    unknownModelNotificationShown session = true ->
    notifications (snd (run session cycles)) = [].
Proof.
  induction cycles as [|fetched rest IH]; intros session H; cbn.
  - reflexivity.
  - destruct (updateStats_latched session fetched H) as [Hl Hn].
    destruct (updateStats session fetched) as [session' shown].
    cbn in Hl, Hn. specialize (IH session' Hl).
    destruct (run session' rest) as [final more]. cbn in IH |- *.
    unfold notifications in *. cbn in Hn |- *.
    rewrite app_nil_r in Hn. rewrite Hn, IH. reflexivity.
Qed.

Lemma updateStats_notifies session fetched :
  notifications [snd (updateStats session fetched)] = []
  \/ (unknownModelNotificationShown (fst (updateStats session fetched)) = true
      /\ length (notifications [snd (updateStats session fetched)]) = 1%nat).
Proof.
  destruct fetched as [stats|e]; cbn; [|now left].
  destruct (notify_cases
              (mkSession (unknownModelNotificationShown session)
                         (detect stats (detectedUnknownModels session))))
    as [H|[text H]]; rewrite H; cbn; [left|right]; auto.
Qed.

Lemma run_notifies_once cycles :
  forall session,
    (length (notifications (snd (run session cycles))) <= 1)%nat.
Proof.
  induction cycles as [|fetched rest IH]; intros session; cbn.
  - lia.
  - pose proof (updateStats_notifies session fetched) as Hu.
    pose proof (run_latched rest) as Hl.
    destruct (updateStats session fetched) as [session' shown].
    cbn in Hu. specialize (IH session'). specialize (Hl session').
    destruct (run session' rest) as [final more]. cbn in IH, Hl |- *.
    unfold notifications in *. cbn in Hu |- *. rewrite app_nil_r in Hu.
    rewrite length_app.
    destruct Hu as [Hn|[Hs Hn]].
    + rewrite Hn. cbn. exact IH.
    + rewrite Hn, (Hl Hs). cbn. lia.
Qed.

(** C8.  The set of unknown models is de-duplicated by containment in
    either direction, letter case aside: a term that contains a recorded
    model, or is contained in one, is not added, so that over any
    sequence of refresh cycles of a process no two recorded models
    contain one another.  The lines
    "10 glorbo-7 requests" then "4 glorbo-7-mini requests" (terms
    "glorbo-7" then "glorbo-7-mini") leave the single entry "glorbo-7".
    Over any sequence of refresh cycles of a process, the aggregate
    notification is shown at most once. *)
Theorem unknown_models_deduplicated_and_reported_once :
  forall (session : Session) (cycles : list (Result CursorStats)),
    (length (notifications (snd (run session cycles))) <= 1)%nat
    /\ deduplicated (detectedUnknownModels (fst (run initialSession cycles)))
    /\ (forall detected term d,
          In d detected ->
          JS.includes (JS.toLowerCase d) (JS.toLowerCase term) = true
          \/ JS.includes (JS.toLowerCase term) (JS.toLowerCase d) = true ->
          record detected term = detected)
    /\ record (record [] "glorbo-7") "glorbo-7-mini" = ["glorbo-7"]
    /\ map extractedTermForNotification
           (items (usageBasedPricing (activeMonthData glorboStats)))
       = ["glorbo-7"; "glorbo-7-mini"]
    /\ detect glorboStats [] = ["glorbo-7"]
    /\ fst (run initialSession
                [Ok glorboStats; Ok glorboStats; Ok glorboStats])
       = mkSession true ["glorbo-7"]
    /\ notifications
         (snd (run initialSession
                   [Ok glorboStats; Ok glorboStats; Ok glorboStats]))
       = ["glorbo-7"].
Proof.
  intros session cycles. split; [apply run_notifies_once|].
  split; [apply run_deduplicated; constructor|]. split.
  - intros detected term d Hin Hsub.
    apply record_present. eapply alreadyPresent_intro; eauto.
  - repeat split; vm_compute; reflexivity.
Qed.

End StatsFacts.

(** ** Billing periods *)

Module BillingFacts.

Import JSDate Api Spec Samples.

Ltac divmod := Z.div_mod_to_equations; lia.

Lemma daysInMonth_bounds y m : 28 <= daysInMonth y m <= 31.
Proof.
  unfold daysInMonth.
  destruct (m =? 1); [destruct (isLeap y); lia|].
  destruct ((m =? 3) || (m =? 5) || (m =? 8) || (m =? 10)); lia.
Qed.

Lemma daysInMonth_december y : daysInMonth y 11 = 31.
Proof. reflexivity. Qed.

(** A day that exists in the month stays where it is. *)
Lemma roll_fits fuel y m d :
  d <= daysInMonth y m -> roll fuel y m d = (y, m, d).
Proof.
  intros H. destruct fuel; simpl; [reflexivity|].
  apply Z.leb_le in H. now rewrite H.
Qed.

Lemma makeDay_fits y m d :
  d <= daysInMonth (y + m / 12) (m mod 12) ->
  makeDay y m d = (y + m / 12, m mod 12, d).
Proof. intros H. unfold makeDay. now apply roll_fits. Qed.

(** A day past the end of the month lands in the next month. *)
Lemma makeDay_overflows y m d :
  daysInMonth (y + m / 12) (m mod 12) < d <= 31 ->
  makeDay y m d
  = (y + m / 12, m mod 12 + 1, d - daysInMonth (y + m / 12) (m mod 12)).
Proof.
  intros [Hlo Hhi]. unfold makeDay.
  pose proof (daysInMonth_bounds (y + m / 12) (m mod 12)) as Hb.
  destruct (Z.to_nat d) as [|fuel] eqn:Hfuel; [lia|].
  cbn [roll].
  destruct (d <=? daysInMonth (y + m / 12) (m mod 12)) eqn:Hle;
    [apply Z.leb_le in Hle; lia|].
  destruct (m mod 12 =? 11) eqn:Hdec.
  - apply Z.eqb_eq in Hdec. rewrite Hdec in Hlo.
    rewrite daysInMonth_december in Hlo. lia.
  - apply roll_fits.
    pose proof (daysInMonth_bounds (y + m / 12) (m mod 12 + 1)). lia.
Qed.

Lemma setMonth_fits x m :
  date x <= daysInMonth (year x + m / 12) (m mod 12) ->
  setMonth x m = mk (year x + m / 12) (m mod 12) (date x) (time x).
Proof.
  intros H. unfold setMonth, make. now rewrite makeDay_fits.
Qed.

Lemma setFullYear_fits x y :
  0 <= month x < 12 ->
  date x <= daysInMonth y (month x) ->
  setFullYear x y = mk y (month x) (date x) (time x).
Proof.
  intros Hm H. unfold setFullYear, make.
  assert (Hq : month x / 12 = 0) by divmod.
  assert (Hr : month x mod 12 = month x) by divmod.
  rewrite makeDay_fits; rewrite Hq, Hr, Z.add_0_r; [reflexivity|exact H].
Qed.

Lemma target_month ys ms yn mn :
  0 <= mn < 12 ->
  ys + (ms + ((yn - ys) * 12 + (mn - ms))) / 12 = yn
  /\ (ms + ((yn - ys) * 12 + (mn - ms))) mod 12 = mn.
Proof. intros H. split; divmod. Qed.

Section Shift.

Variables subscriptionStart currentDate : JSDate.t.
Hypothesis start_valid : valid subscriptionStart.
Hypothesis now_valid : valid currentDate.

Let y := year currentDate.
Let m := JSDate.month currentDate.

Lemma anchor_day_bounds : 1 <= date subscriptionStart <= 31.
Proof.
  destruct start_valid as [_ Hd].
  pose proof (daysInMonth_bounds (year subscriptionStart)
                                 (JSDate.month subscriptionStart)).
  lia.
Qed.

(** The anchor day exists in the current month: the shift keeps it. *)
Lemma tentative_fits :
  date subscriptionStart <= daysInMonth y m ->
  tentativePeriodStart subscriptionStart currentDate
  = mk y m (date subscriptionStart) (time subscriptionStart).
Proof.
  intros Hfit. destruct now_valid as [Hrange _].
  destruct (@target_month (year subscriptionStart)
                          (JSDate.month subscriptionStart)
                          (year currentDate) (JSDate.month currentDate)
                          Hrange) as [Hy Hm].
  unfold tentativePeriodStart, monthsSinceStart, getFullYear, getMonth.
  cbv zeta.
  rewrite setMonth_fits; rewrite Hy, Hm; [|exact Hfit].
  rewrite setFullYear_fits; cbn [year JSDate.month date time];
    [reflexivity|exact Hrange|exact Hfit].
Qed.

(** The anchor day does not exist in the current month: the shift runs
    on into the next month. *)
Lemma tentative_overflows :
  daysInMonth y m < date subscriptionStart ->
  tentativePeriodStart subscriptionStart currentDate
  = mk y (m + 1) (date subscriptionStart - daysInMonth y m)
       (time subscriptionStart)
  /\ m + 1 < 12.
Proof.
  intros Hover. destruct now_valid as [Hrange _].
  destruct (@target_month (year subscriptionStart)
                          (JSDate.month subscriptionStart)
                          (year currentDate) (JSDate.month currentDate)
                          Hrange) as [Hy Hm].
  pose proof anchor_day_bounds as Hday.
  pose proof (daysInMonth_bounds y m) as Hb.
  assert (Hnext : m + 1 < 12).
  { destruct (Z.eq_dec m 11) as [E|]; [|subst m; lia].
    rewrite E, daysInMonth_december in Hover. lia. }
  split; [|exact Hnext].
  unfold tentativePeriodStart, monthsSinceStart, getFullYear, getMonth.
  cbv zeta. unfold setMonth at 1, make.
  rewrite makeDay_overflows; rewrite Hy, Hm; [|fold y m; lia].
  fold y m.
  rewrite setFullYear_fits; cbn [year JSDate.month date time];
    [reflexivity|subst m; lia|].
  pose proof (daysInMonth_bounds y (m + 1)). lia.
Qed.

Lemma current_overflows :
  daysInMonth y m < date subscriptionStart ->
  currentPeriodStart subscriptionStart currentDate
  = mk y m (date subscriptionStart - daysInMonth y m)
       (time subscriptionStart).
Proof.
  intros Hover. destruct (tentative_overflows Hover) as [Ht Hnext].
  destruct now_valid as [Hrange _]. fold m in Hrange.
  pose proof anchor_day_bounds as Hday.
  pose proof (daysInMonth_bounds y m) as Hb.
  unfold currentPeriodStart. cbv zeta. rewrite Ht.
  assert (Hlt : ltb currentDate
                    (mk y (m + 1) (date subscriptionStart - daysInMonth y m)
                        (time subscriptionStart)) = true).
  { unfold ltb. cbn [year JSDate.month date time]. fold y m.
    rewrite Z.ltb_irrefl.
    assert (E : (m <? m + 1) = true) by (apply Z.ltb_lt; lia).
    now rewrite E. }
  rewrite Hlt. unfold getMonth. cbn [JSDate.month].
  replace (m + 1 - 1) with m by lia.
  assert (Hq : m / 12 = 0) by divmod.
  assert (Hr : m mod 12 = m) by divmod.
  rewrite setMonth_fits; cbn [year JSDate.month date time];
    rewrite Hq, Hr, Z.add_0_r; [reflexivity|lia].
Qed.

(** The anchor day exists in the current month.  The period start is
    the shifted start when today is not before it; otherwise it is moved
    back one month, where the day is kept if it exists and runs on into
    the current month if it does not. *)
Lemma current_fits :
  date subscriptionStart <= daysInMonth y m ->
  let shifted := mk y m (date subscriptionStart) (time subscriptionStart) in
  let days' := daysInMonth (y + (m - 1) / 12) ((m - 1) mod 12) in
  (ltb currentDate shifted = false ->
   currentPeriodStart subscriptionStart currentDate = shifted)
  /\ (ltb currentDate shifted = true ->
      date subscriptionStart <= days' ->
      currentPeriodStart subscriptionStart currentDate
      = mk (y + (m - 1) / 12) ((m - 1) mod 12)
           (date subscriptionStart) (time subscriptionStart))
  /\ (ltb currentDate shifted = true ->
      days' < date subscriptionStart ->
      currentPeriodStart subscriptionStart currentDate
      = mk y m (date subscriptionStart - days') (time subscriptionStart)).
Proof.
  intros Hfit shifted days'. subst shifted days'.
  destruct now_valid as [Hrange _]. fold m in Hrange.
  pose proof anchor_day_bounds as Hday.
  unfold currentPeriodStart. cbv zeta. rewrite (tentative_fits Hfit).
  split; [|split].
  - intros Hlt. rewrite Hlt. reflexivity.
  - intros Hlt Hprev. rewrite Hlt.
    unfold getMonth. cbn [JSDate.month].
    rewrite setMonth_fits; cbn [year JSDate.month date time];
      [reflexivity|exact Hprev].
  - intros Hlt Hprev. rewrite Hlt.
    unfold getMonth. cbn [JSDate.month].
    assert (Hnot_dec : (m - 1) mod 12 <> 11).
    { intros E. rewrite E, daysInMonth_december in Hprev. lia. }
    assert (Hq : (m - 1) / 12 = 0) by divmod.
    assert (Hr : (m - 1) mod 12 = m - 1) by divmod.
    unfold setMonth, make. cbn [year JSDate.month date time].
    rewrite makeDay_overflows by lia.
    rewrite Hq, Hr, Z.add_0_r.
    replace (m - 1 + 1) with m by lia. reflexivity.
Qed.

(** An anchor day up to 28 exists in every month. *)
Lemma setMonth_day_kept x k :
  date x <= 28 -> getDate (setMonth x k) = date x.
Proof.
  intros H. rewrite setMonth_fits; [reflexivity|].
  pose proof (daysInMonth_bounds (year x + k / 12) (k mod 12)). lia.
Qed.

Lemma current_day_kept :
  date subscriptionStart <= 28 ->
  getDate (currentPeriodStart subscriptionStart currentDate)
  = date subscriptionStart.
Proof.
  intros H. pose proof (daysInMonth_bounds y m) as Hb.
  unfold currentPeriodStart. cbv zeta.
  rewrite tentative_fits by lia.
  destruct (ltb currentDate _).
  - now rewrite setMonth_day_kept.
  - reflexivity.
Qed.

Lemma previous_day_kept :
  date subscriptionStart <= 28 ->
  getDate (previousPeriodStart subscriptionStart currentDate)
  = date subscriptionStart.
Proof.
  intros H. unfold previousPeriodStart. cbv zeta.
  pose proof (current_day_kept H) as Hc. unfold getDate in Hc at 1.
  rewrite setMonth_day_kept; unfold getDate; lia.
Qed.

End Shift.

(** C1, against the statement of the specification: for the anchor
    31 January 2024 seen on 15 April 2024 the shifted start is 1 May, in
    the month after the 30-day target month, where clamping gives
    30 April; the period start, moved back a month, is 1 April. *)
Lemma anchor31_counterexample :
  valid anchor31 /\ valid midApril
  /\ daysInMonth (getFullYear midApril) (getMonth midApril) = 30
  /\ clampedShift anchor31 (getFullYear midApril) (getMonth midApril)
     = mk 2024 3 30 0
  /\ tentativePeriodStart anchor31 midApril = mk 2024 4 1 0
  /\ currentPeriodStart anchor31 midApril = mk 2024 3 1 0
  /\ tentativePeriodStart anchor31 midApril
     <> clampedShift anchor31 (getFullYear midApril) (getMonth midApril)
  /\ getDate (currentPeriodStart anchor31 midApril) <> 30.
Proof.
  unfold valid. repeat split; try (vm_compute; congruence).
Qed.

(** C1, as amended.  The subscription start is shifted into the current
    month with [setMonth] and [setFullYear], and the period start is the
    shifted start moved back one month when today precedes it.  No clamp
    is applied anywhere: a day that does not exist in the month it is
    set to runs on into the following month.

    The shifted start keeps the anchor's day of the month exactly when
    that day exists in the current month, and then agrees with the
    clamped shift.  In that case the period start is the shifted start
    if today is not before it; if today is before it, the period start
    is the anchor day of the previous month when the day exists there,
    and otherwise the day in excess, in the current month: for the
    anchor 30 December 2023 seen on 1 March 2024 the shifted start is
    30 March and the period start is 1 March.

    When the current month is shorter than the anchor day, the shifted
    start is the day in excess of the following month and the period
    start, moved back one month, is that day of the current month: for
    an anchor on day 31 and a month of 30 days the shifted start is day
    1 of the following month and the period start is day 1 of the
    30-day month, not day 30.

    For an anchor day up to 28 the current and the previous period
    start always keep the anchor day. *)
Theorem period_start_keeps_day_or_rolls_over :
  forall subscriptionStart currentDate : JSDate.t,
    valid subscriptionStart ->
    valid currentDate ->
    let y := getFullYear currentDate in
    let m := getMonth currentDate in
    let days := daysInMonth y m in
    (date subscriptionStart <= days ->
     tentativePeriodStart subscriptionStart currentDate
     = clampedShift subscriptionStart y m
     /\ getDate (tentativePeriodStart subscriptionStart currentDate)
        = date subscriptionStart)
    /\ (date subscriptionStart <= 28 ->
        getDate (currentPeriodStart subscriptionStart currentDate)
        = date subscriptionStart
        /\ getDate (previousPeriodStart subscriptionStart currentDate)
           = date subscriptionStart)
    /\ (days < date subscriptionStart ->
        tentativePeriodStart subscriptionStart currentDate
        = mk y (m + 1) (date subscriptionStart - days)
             (time subscriptionStart)
        /\ currentPeriodStart subscriptionStart currentDate
           = mk y m (date subscriptionStart - days) (time subscriptionStart))
    /\ (date subscriptionStart = 31 -> days = 30 ->
        getMonth (tentativePeriodStart subscriptionStart currentDate) = m + 1
        /\ getDate (tentativePeriodStart subscriptionStart currentDate) = 1
        /\ getMonth (currentPeriodStart subscriptionStart currentDate) = m
        /\ getDate (currentPeriodStart subscriptionStart currentDate) = 1)
    /\ (date subscriptionStart <= days ->
        let shifted :=
          mk y m (date subscriptionStart) (time subscriptionStart) in
        let days' := daysInMonth (y + (m - 1) / 12) ((m - 1) mod 12) in
        (ltb currentDate shifted = false ->
         currentPeriodStart subscriptionStart currentDate = shifted)
        /\ (ltb currentDate shifted = true ->
            date subscriptionStart <= days' ->
            currentPeriodStart subscriptionStart currentDate
            = mk (y + (m - 1) / 12) ((m - 1) mod 12)
                 (date subscriptionStart) (time subscriptionStart))
        /\ (ltb currentDate shifted = true ->
            days' < date subscriptionStart ->
            currentPeriodStart subscriptionStart currentDate
            = mk y m (date subscriptionStart - days')
                 (time subscriptionStart)))
    /\ (valid anchorDec30 /\ valid marchFirst
        /\ date anchorDec30
           <= daysInMonth (getFullYear marchFirst) (getMonth marchFirst)
        /\ tentativePeriodStart anchorDec30 marchFirst = mk 2024 2 30 0
        /\ currentPeriodStart anchorDec30 marchFirst = mk 2024 2 1 0
        /\ getDate (currentPeriodStart anchorDec30 marchFirst)
           <> date anchorDec30).
Proof.
  intros s n Hs Hn y m days. subst y m days.
  unfold getFullYear, getMonth, getDate.
  split; [|split; [|split; [|split; [|split]]]].
  - intros Hfit. rewrite tentative_fits by assumption.
    unfold clampedShift. rewrite Z.min_l by exact Hfit. split; reflexivity.
  - intros Hsmall. split.
    + apply current_day_kept; assumption.
    + apply previous_day_kept; assumption.
  - intros Hover. split.
    + apply tentative_overflows; assumption.
    + apply current_overflows; assumption.
  - intros H31 H30.
    assert (Hover : daysInMonth (year n) (JSDate.month n) < date s) by lia.
    rewrite (proj1 (tentative_overflows Hs Hn Hover)).
    rewrite (current_overflows Hs Hn Hover).
    cbn [JSDate.month date].
    repeat split; lia.
  - intros Hfit. exact (current_fits Hs Hn Hfit).
  - unfold valid. repeat split; try (vm_compute; congruence).
Qed.

Lemma period_start_keeps_day_or_rolls_over_witness :
  valid anchor15 /\ valid midApril
  /\ getDate (currentPeriodStart anchor15 midApril) = date anchor15
  /\ valid anchor31
  /\ getDate (currentPeriodStart anchor31 midApril) = 1.
Proof.
  assert (H15 : valid anchor15)
    by (unfold valid; vm_compute; intuition congruence).
  assert (H31 : valid anchor31)
    by (unfold valid; vm_compute; intuition congruence).
  assert (Hn : valid midApril)
    by (unfold valid; vm_compute; intuition congruence).
  split; [exact H15|]. split; [exact Hn|]. split; [|split; [exact H31|]].
  - apply (proj1 (proj2 (period_start_keeps_day_or_rolls_over H15 Hn))).
    vm_compute; congruence.
  - apply (proj1 (proj2 (proj2 (proj2
             (period_start_keeps_day_or_rolls_over H31 Hn)))));
      reflexivity.
Defined.

End BillingFacts.

(** ** The team-membership cache *)

Module TeamFacts.

Import Team Spec Samples.






(** The cache holds one record: after a lookup for another subject the
    first subject is looked up afresh. *)
Remark cache_single_record :
  let after1 := snd (checkTeamMembership twoAccounts aliceToken freshStore) in
  let after2 := snd (checkTeamMembership twoAccounts bobToken after1) in
  let after3 := snd (checkTeamMembership twoAccounts aliceToken after2) in
  sent after1 = [GetUsage "user_1"; PostTeams; PostTeam 7]
  /\ sent (snd (checkTeamMembership twoAccounts aliceToken after1))
     = sent after1
  /\ sent after3
     = [ GetUsage "user_1"; PostTeams; PostTeam 7;
         GetUsage "user_2"; PostTeams; PostTeam 7;
         GetUsage "user_1"; PostTeams; PostTeam 7 ].
Proof. repeat split; vm_compute; reflexivity. Qed.



End TeamFacts.

(** ** The snapshot *)

Module FetchFacts.

Import Team Api Spec Samples.

Lemma resolved_condition info teamId teamUserId :
  resolvedMember info = Some (teamId, teamUserId) ->
  m_teamId info = Some teamId /\ m_userId info = Some teamUserId
  /\ isTeamMember info && truthyNum (m_teamId info)
     && truthyNum (m_userId info) = true.
Proof.
  unfold resolvedMember.
  destruct (m_teamId info) as [a|]; [|discriminate].
  destruct (m_userId info) as [b|]; [|discriminate].
  cbn [truthyNum].
  destruct (isTeamMember info && negb (a =? 0) && negb (b =? 0)) eqn:E;
    [|discriminate].
  intros H; injection H as <- <-. auto.
Qed.

Lemma unresolved_condition info :
  resolvedMember info = None ->
  match m_teamId info, m_userId info with
  | Some _, Some _ =>
      isTeamMember info && truthyNum (m_teamId info)
      && truthyNum (m_userId info) = false
  | _, _ => True
  end.
Proof.
  unfold resolvedMember.
  destruct (m_teamId info) as [a|]; [|trivial].
  destruct (m_userId info) as [b|]; [|trivial].
  cbn [truthyNum].
  now destruct (isTeamMember info && negb (a =? 0) && negb (b =? 0)).
Qed.

(** Outside the team branch nothing is sent and no variable is set. *)
Lemma teamBranch_skipped w userId info s :
  resolvedMember info = None ->
  teamBranch w userId info s = (Ok (mkLocals None false None), s).
Proof.
  intros H. apply unresolved_condition in H. unfold teamBranch.
  destruct (m_teamId info); [|reflexivity].
  destruct (m_userId info); [|reflexivity].
  now rewrite H.
Qed.

(** A team-spend lookup that throws is caught: no counters, no team
    spend. *)
Lemma teamBranch_caught w userId info teamId teamUserId e s :
  resolvedMember info = Some (teamId, teamUserId) ->
  teamSpendLookup w teamId teamUserId = Err e ->
  exists s', teamBranch w userId info s = (Ok (mkLocals None false None), s').
Proof.
  intros H Hlookup. apply resolved_condition in H as (Ht & Hu & Hc).
  unfold teamBranch. rewrite Ht, Hu. rewrite Ht, Hu in Hc. rewrite Hc.
  unfold teamSpendLookup in Hlookup.
  unfold getTeamSpend, tryCatch, bind, await, lift, ret, throw.
  destruct (reply_teamSpend w teamId) as [teamSpend|e']; [|eauto].
  rewrite Hlookup. eauto.
Qed.

(** The team branch that succeeds: the counters of the individual usage
    and the member's [spendCents] as far as the extracted object has
    it. *)
Lemma teamBranch_done w userId info teamId teamUserId userSpend usage s :
  resolvedMember info = Some (teamId, teamUserId) ->
  teamSpendLookup w teamId teamUserId = Ok userSpend ->
  reply_usage w userId = Ok usage ->
  exists s',
    teamBranch w userId info s
    = (Ok (mkLocals
             (Some (mkPremium (numRequests (gpt4 usage))
                              (Some (orDefault (maxRequestUsage (gpt4 usage))
                                               500))
                              (m_startOfMonth info)))
             true (Some (numOr "spendCents" userSpend 0))),
       s').
Proof.
  intros H Hlookup Husage. apply resolved_condition in H as (Ht & Hu & Hc).
  unfold teamBranch. rewrite Ht, Hu. rewrite Ht, Hu in Hc. rewrite Hc.
  unfold teamSpendLookup in Hlookup.
  unfold getTeamSpend, tryCatch, bind, await, lift, ret, throw.
  destruct (reply_teamSpend w teamId) as [teamSpend|e']; [|discriminate].
  rewrite Hlookup, Husage. eauto.
Qed.

(** The object [extractUserSpend] returns has no [spendCents]. *)
Lemma extracted_without_spendCents teamSpend userId userSpend :
  extractUserSpend teamSpend userId = Ok userSpend ->
  prop "spendCents" userSpend = None /\ numOr "spendCents" userSpend 0 = 0.
Proof.
  unfold extractUserSpend.
  destruct (find _ (teamMemberSpend teamSpend)); [|discriminate].
  intros H; injection H as <-. split; reflexivity.
Qed.

Lemma lookup_without_spendCents w teamId teamUserId userSpend :
  teamSpendLookup w teamId teamUserId = Ok userSpend ->
  numOr "spendCents" userSpend 0 = 0.
Proof.
  unfold teamSpendLookup.
  destruct (reply_teamSpend w teamId) as [teamSpend|e]; [|discriminate].
  intros H. now apply extracted_without_spendCents in H.
Qed.

(** The lookup succeeds exactly when the payload arrives and holds the
    member. *)
Lemma lookup_succeeds w teamId teamUserId teamSpend :
  reply_teamSpend w teamId = Ok teamSpend ->
  existsb (fun member => member_userId member =? teamUserId)
          (teamMemberSpend teamSpend) = true ->
  exists userSpend, teamSpendLookup w teamId teamUserId = Ok userSpend.
Proof.
  intros Hreply Hmember. unfold teamSpendLookup, extractUserSpend.
  rewrite Hreply.
  destruct (find _ (teamMemberSpend teamSpend)) as [member|] eqn:Hfind;
    [eauto|].
  apply existsb_exists in Hmember as (member & Hin & Hid).
  apply (find_none _ _ Hfind) in Hin. cbv beta in Hin. congruence.
Qed.

(** A failure of the membership lookup is thrown on. *)
Lemma fetch_membership_failure w token store e store1 :
  checkTeamMembership w token store = (Err e, store1) ->
  fetchCursorStats w token store = (Err e, store1).
Proof.
  intros H. unfold fetchCursorStats, tryCatch at 1, bind at 1.
  now rewrite H.
Qed.

(** The invoice request never makes the computation throw. *)
Lemma monthOrEmpty_eval w m y s :
  monthOrEmpty w m y s
  = (Ok (monthDataFor w m y),
     mkStore (cacheFile s) (sent s ++ [PostMonthlyInvoice m y])%list).
Proof.
  unfold monthOrEmpty, fetchMonthData, tryCatch, bind, await, ret, throw,
    monthDataFor.
  now destruct (reply_invoice w m y).
Qed.

(** Once the membership is resolved and the counters are there, the
    snapshot is produced. *)
Lemma fetch_assembles w token store info store1 locals store2 premium store3 :
  checkTeamMembership w token store = (Ok info, store1) ->
  teamBranch w (userOf token) info store1 = (Ok locals, store2) ->
  individualBranch w (userOf token) locals store2 = (Ok premium, store3) ->
  exists thisMonth thatMonth store',
    reported w thisMonth
    /\ reported w thatMonth
    /\ fetchCursorStats w token store
       = (Ok (mkStats thisMonth thatMonth premium
                (l_isUsingTeamSpend locals)
                (m_teamId info)
                (if l_isUsingTeamSpend locals && isTeamMember info
                    && truthyNum (m_teamId info) && truthyNum (m_userId info)
                 then l_teamSpendCents locals else None)),
          store').
Proof.
  intros Hcheck Hteam Hind.
  unfold fetchCursorStats. fold (userOf token).
  unfold tryCatch at 1. unfold bind at 1. rewrite Hcheck.
  unfold bind at 1. rewrite Hteam.
  unfold bind at 1. rewrite Hind. cbv zeta.
  set (cp := option_map (fun s => currentPeriodStart s (newDate w))
                        (JSDate.parse (startOfMonth premium))).
  set (pp := option_map (fun s => previousPeriodStart s (newDate w))
                        (JSDate.parse (startOfMonth premium))).
  unfold bind at 1. rewrite monthOrEmpty_eval.
  unfold bind at 1. rewrite monthOrEmpty_eval.
  eexists (mkMonthStats (monthOf cp) (yearOf cp) _),
          (mkMonthStats (monthOf pp) (yearOf pp) _), _.
  split; [|split; [|reflexivity]]; reflexivity.
Qed.

Lemma individualBranch_kept w userId premium l c s :
  individualBranch w userId (mkLocals (Some premium) l c) s = (Ok premium, s).
Proof. reflexivity. Qed.

Lemma individualBranch_done w userId l c usage s :
  reply_usage w userId = Ok usage ->
  exists s',
    individualBranch w userId (mkLocals None l c) s
    = (Ok (mkPremium (numRequests (gpt4 usage)) (maxRequestUsage (gpt4 usage))
                     (usage_startOfMonth usage)), s').
Proof.
  intros H. unfold individualBranch, bind, await, ret. cbn.
  rewrite H. eauto.
Qed.

(** The snapshot of a computation whose membership lookup and usage
    request succeed. *)
Lemma fetch_characterised w token store info store1 usage :
  checkTeamMembership w token store = (Ok info, store1) ->
  reply_usage w (userOf token) = Ok usage ->
  exists thisMonth thatMonth store',
    reported w thisMonth
    /\ reported w thatMonth
    /\ fetchCursorStats w token store
       = (Ok (if teamSourced w info
              then mkStats thisMonth thatMonth
                     (mkPremium (numRequests (gpt4 usage))
                                (Some (orDefault
                                         (maxRequestUsage (gpt4 usage)) 500))
                                (m_startOfMonth info))
                     true (m_teamId info) (Some 0)
              else mkStats thisMonth thatMonth
                     (mkPremium (numRequests (gpt4 usage))
                                (maxRequestUsage (gpt4 usage))
                                (usage_startOfMonth usage))
                     false (m_teamId info) None),
          store').
Proof.
  intros Hcheck Husage. unfold teamSourced.
  destruct (resolvedMember info) as [[teamId teamUserId]|] eqn:Hres.
  - destruct (teamSpendLookup w teamId teamUserId) as [userSpend|e] eqn:Hl.
    + destruct (@teamBranch_done w (userOf token) info teamId teamUserId
                  userSpend usage store1 Hres Hl Husage) as (s2 & Hteam).
      destruct (@fetch_assembles w token store info store1 _ s2 _ s2
                  Hcheck Hteam (@individualBranch_kept _ _ _ _ _ _))
        as (cur & last & s' & Fc & Fl & Hfetch).
      exists cur, last, s'. split; [exact Fc|]. split; [exact Fl|].
      rewrite Hfetch. cbn [l_isUsingTeamSpend l_teamSpendCents].
      apply resolved_condition in Hres as (_ & _ & Hc).
      cbn [andb]. rewrite Hc.
      now rewrite (@lookup_without_spendCents _ _ _ _ Hl).
    + destruct (@teamBranch_caught w (userOf token) info teamId teamUserId
                  e store1 Hres Hl) as (s2 & Hteam).
      destruct (@individualBranch_done w (userOf token) false None usage
                  s2 Husage) as (s3 & Hind).
      destruct (@fetch_assembles w token store info store1 _ s2 _ s3
                  Hcheck Hteam Hind)
        as (cur & last & s' & Fc & Fl & Hfetch).
      exists cur, last, s'. split; [exact Fc|]. split; [exact Fl|].
      exact Hfetch.
  - pose proof (teamBranch_skipped w (userOf token) info store1 Hres)
      as Hteam.
    destruct (@individualBranch_done w (userOf token) false None usage
                store1 Husage) as (s3 & Hind).
    destruct (@fetch_assembles w token store info store1 _ store1 _ s3
                Hcheck Hteam Hind)
      as (cur & last & s' & Fc & Fl & Hfetch).
    exists cur, last, s'. split; [exact Fc|]. split; [exact Fl|].
    exact Hfetch.
Qed.


(** *** The total of an invoice *)

Lemma monthData_accountable w m y :
  Forall accountable (items (monthDataFor w m y)).
Proof.
  unfold monthDataFor.
  destruct (reply_invoice w m y) as [response|e]; [|constructor].
  unfold monthDataOf. destruct (invoice_items response) as [raw|];
    cbn [items]; [|constructor].
  unfold parseItems.
  apply (fold_left_invariant
           (fun acc => Forall accountable (usageItems acc))).
  - intros acc item. apply ApiFacts.processItem_accountable.
  - constructor.
Qed.

(** The total of an invoice is the sum of the positive costs of its
    ParsedUsageItems. *)
Lemma sumPositive_parsed w m :
  reported w m ->
  Stats.sumPositive (items (usageBasedPricing m))
  = Stats.sumPositive (parsedUsageItems (items (usageBasedPricing m))).
Proof.
  intros H. unfold Stats.sumPositive. symmetry.
  apply ApiFacts.sumPositive_parsed_from. rewrite H. apply monthData_accountable.
Qed.

Lemma invoice_total stats :
  isTeamSpendData stats = false ->
  Stats.useTeamSpendData stats = false
  /\ Stats.actualTotalCost stats
     = Stats.sumPositive
         (items (usageBasedPricing (Stats.activeMonthData stats))).
Proof.
  intros H. unfold Stats.useTeamSpendData, Stats.actualTotalCost,
    Stats.hasTeamSpend.
  rewrite H. cbn [andb]. split; [reflexivity|].
  destruct (items (usageBasedPricing (Stats.activeMonthData stats)));
    reflexivity.
Qed.

Lemma active_reported w stats :
  reported w (currentMonth stats) ->
  reported w (lastMonth stats) ->
  reported w (Stats.activeMonthData stats).
Proof.
  intros Hc Hl. unfold Stats.activeMonthData.
  now destruct (_ || _).
Qed.


(** *** The total of an invoice and its raw lines *)

(** The total of the lines pushed for an invoice is the sum of the
    positive costs, cents over 100, of the raw lines that yield a
    ParsedUsageItem. *)
Lemma monthData_total w m y :
  (Stats.sumPositive (items (monthDataFor w m y))
   == invoiceTotal w (linesOf w m y))%Q.
Proof.
  unfold monthDataFor, linesOf.
  destruct (reply_invoice w m y) as [response|e]; [|reflexivity].
  unfold monthDataOf. destruct (invoice_items response) as [raw|];
    cbn [items]; [|reflexivity].
  unfold parseItems. rewrite ApiFacts.parseLoop_total.
  cbn [usageItems emptyAcc]. unfold Stats.sumPositive. cbn. ring.
Qed.

(** *** The snapshot under team failures and team spend *)

(** C2, against the statement of the specification: the individual
    usage is available and only the teams request of the membership
    lookup fails; the lookup throws and so does the whole computation. *)
Lemma membership_failure_counterexample :
  reply_usage teamsDown (userOf sessionToken) = Ok usagePayload
  /\ fst (checkTeamMembership teamsDown sessionToken freshStore) = Err down
  /\ fst (fetchCursorStats teamsDown sessionToken freshStore) = Err down.
Proof. repeat split; vm_compute; reflexivity. Qed.

(** C2, as amended.  When the membership lookup has resolved a team
    member and the team-spend lookup throws (the request fails or the
    payload lacks the member), the computation still completes, given
    the individual usage: the snapshot is not team-sourced, carries no
    team spend, its counters are those of the individual usage, and its
    total cost is the sum of the positive costs of the ParsedUsageItems
    of the active month, that is of the positive cents over 100 of the
    raw lines of that month's invoice that yield a ParsedUsageItem. *)
Theorem team_spend_failure_not_fatal :
  forall (w : World) (token : string) (store store1 : Store)
         (info : Membership) (teamId teamUserId : Z) (e : Error)
         (usage : CursorUsageResponse),
    checkTeamMembership w token store = (Ok info, store1) ->
    resolvedMember info = Some (teamId, teamUserId) ->
    teamSpendLookup w teamId teamUserId = Err e ->
    reply_usage w (userOf token) = Ok usage ->
    exists stats store',
      fetchCursorStats w token store = (Ok stats, store')
      /\ isTeamSpendData stats = false
      /\ teamSpendCents stats = None
      /\ Stats.useTeamSpendData stats = false
      /\ Stats.actualTotalCost stats
         = Stats.sumPositive
             (parsedUsageItems
                (items (usageBasedPricing (Stats.activeMonthData stats))))
      /\ (Stats.actualTotalCost stats
          == invoiceTotal w (linesOf w (month (Stats.activeMonthData stats))
                                       (year (Stats.activeMonthData stats))))%Q
      /\ premiumRequests stats
         = mkPremium (numRequests (gpt4 usage)) (maxRequestUsage (gpt4 usage))
                     (usage_startOfMonth usage).
Proof.
  intros w token store store1 info teamId teamUserId e usage
         Hcheck Hres Hlookup Husage.
  destruct (@fetch_characterised w token store info store1 usage
              Hcheck Husage)
    as (cur & last & store' & Fc & Fl & Hfetch).
  unfold teamSourced in Hfetch. rewrite Hres, Hlookup in Hfetch.
  eexists. exists store'. split; [exact Hfetch|].
  split; [reflexivity|]. split; [reflexivity|].
  match goal with
  | |- Stats.useTeamSpendData ?s = _ /\ _ =>
      destruct (@invoice_total s eq_refl) as [Hteam Htotal];
      pose proof (@active_reported w s Fc Fl) as Hactive
  end.
  split; [exact Hteam|]. split; [|split; [|reflexivity]].
  - rewrite Htotal. apply (@sumPositive_parsed w _ Hactive).
  - rewrite Htotal, Hactive. apply monthData_total.
Qed.

Lemma team_spend_failure_not_fatal_witness :
  exists stats store',
    fetchCursorStats teamSpendDown sessionToken freshStore = (Ok stats, store')
    /\ isTeamSpendData stats = false
    /\ teamSpendCents stats = None
    /\ Stats.useTeamSpendData stats = false
    /\ Stats.actualTotalCost stats
       = Stats.sumPositive
           (parsedUsageItems
              (items (usageBasedPricing (Stats.activeMonthData stats))))
    /\ (Stats.actualTotalCost stats
        == invoiceTotal teamSpendDown
             (linesOf teamSpendDown (month (Stats.activeMonthData stats))
                                    (year (Stats.activeMonthData stats))))%Q
    /\ premiumRequests stats
       = mkPremium (numRequests (gpt4 usagePayload))
                   (maxRequestUsage (gpt4 usagePayload))
                   (usage_startOfMonth usagePayload).
Proof.
  apply (@team_spend_failure_not_fatal teamSpendDown sessionToken freshStore
           (snd (checkTeamMembership teamSpendDown sessionToken freshStore))
           (mkMembership true (Some 7) (Some 42) "2024-01-15T00:00:00.000Z")
           7 42 down usagePayload);
    vm_compute; reflexivity.
Defined.

(** C3, at the team member of [teamWorld].  The team-spend payload
    arrives and holds the entry of member 42 with a [spendCents] of
    1234, and the individual usage arrives with 120 requests and no
    [maxRequestUsage].  The snapshot is team-sourced and its premium
    counters are those of the individual usage, with the limit 500.
    But the object [extractUserSpend] returns for the member has no
    [spendCents] property, so [userSpend.spendCents || 0] stores 0
    cents: the total cost is 0 dollars, the stored cents over 100, and
    not the 12.34 dollars of the member's entry. *)
Theorem team_spend_cents_not_carried :
  resolvedMember
    (mkMembership true (Some 7) (Some 42) "2024-01-15T00:00:00.000Z")
  = Some (7, 42)
  /\ reply_teamSpend teamWorld 7 = Ok teamSpendPayload
  /\ option_map member_spendCents
        (find (fun member => member_userId member =? 42)
              (teamMemberSpend teamSpendPayload))
     = Some (Some 1234)
  /\ reply_usage teamWorld (userOf sessionToken) = Ok usagePayload
  /\ (exists userSpend,
        extractUserSpend teamSpendPayload 42 = Ok userSpend
        /\ prop "spendCents" userSpend = None
        /\ numOr "spendCents" userSpend 0 = 0)
  /\ (exists stats store',
        fetchCursorStats teamWorld sessionToken freshStore = (Ok stats, store')
        /\ isTeamSpendData stats = true
        /\ teamSpendCents stats = Some 0
        /\ Stats.useTeamSpendData stats = true
        /\ (Stats.actualTotalCost stats == 0)%Q
        /\ ~ (Stats.actualTotalCost stats == inject_Z 1234 / 100)%Q
        /\ Stats.usageLine stats = Stats.TeamUsage (0 / 100)%Q
        /\ current (premiumRequests stats) = numRequests (gpt4 usagePayload)
        /\ limit (premiumRequests stats) = Some 500).
Proof.
  split; [reflexivity|]. split; [reflexivity|]. split; [reflexivity|].
  split; [reflexivity|]. split.
  - eexists. split; [reflexivity|]. split; reflexivity.
  - eexists. eexists. split; [vm_compute; reflexivity|].
    repeat split; try (vm_compute; reflexivity).
    vm_compute. discriminate.
Qed.

(** The member's [spendCents] does not reach the snapshot: the object
    [extractUserSpend] returns has no such property, so the team-sourced
    snapshot carries 0 cents whatever the payload holds. *)
Remark team_spend_cents_dropped :
  forall (w : World) (token : string) (store store1 : Store)
         (info : Membership) (usage : CursorUsageResponse),
    checkTeamMembership w token store = (Ok info, store1) ->
    teamSourced w info = true ->
    reply_usage w (userOf token) = Ok usage ->
    exists stats store',
      fetchCursorStats w token store = (Ok stats, store')
      /\ teamSpendCents stats = Some 0.
Proof.
  intros w token store store1 info usage Hcheck Hteam Husage.
  destruct (@fetch_characterised w token store info store1 usage
              Hcheck Husage)
    as (cur & last & store' & _ & _ & Hfetch).
  rewrite Hteam in Hfetch. eexists. exists store'.
  split; [exact Hfetch|reflexivity].
Qed.

(** C10.  Given the membership and the individual usage, the limit of
    the premium requests is [maxRequestUsage || 500] of the [gpt-4]
    entry when the snapshot is team-sourced, hence 500 when that entry
    has no or a zero [maxRequestUsage], and [maxRequestUsage] as it is
    otherwise.  The same usage payload, without [maxRequestUsage], gives
    the limit 500 to the team member and no limit to the user outside a
    team. *)
Theorem premium_limit_depends_on_path :
  forall (w : World) (token : string) (store store1 : Store)
         (info : Membership) (usage : CursorUsageResponse),
    checkTeamMembership w token store = (Ok info, store1) ->
    reply_usage w (userOf token) = Ok usage ->
    exists stats store',
      fetchCursorStats w token store = (Ok stats, store')
      /\ isTeamSpendData stats = teamSourced w info
      /\ limit (premiumRequests stats)
         = (if teamSourced w info
            then Some (orDefault (maxRequestUsage (gpt4 usage)) 500)
            else maxRequestUsage (gpt4 usage))
      /\ (if teamSourced w info && negb (truthyNum (maxRequestUsage (gpt4 usage)))
          then limit (premiumRequests stats) = Some 500
          else True)
      /\ reply_usage teamWorld (userOf sessionToken)
         = reply_usage soloWorld (userOf sessionToken)
      /\ limitOf (fetchCursorStats teamWorld sessionToken freshStore)
         = Some (Some 500)
      /\ limitOf (fetchCursorStats soloWorld sessionToken freshStore)
         = Some None.
Proof.
  intros w token store store1 info usage Hcheck Husage.
  destruct (@fetch_characterised w token store info store1 usage
              Hcheck Husage)
    as (cur & last & store' & _ & _ & Hfetch).
  eexists. exists store'. split; [exact Hfetch|].
  destruct (teamSourced w info); cbn [isTeamSpendData premiumRequests limit].
  - split; [reflexivity|]. split; [reflexivity|]. split.
    + cbn [andb]. destruct (maxRequestUsage (gpt4 usage)) as [n|];
        cbn; [|reflexivity].
      destruct (n =? 0); cbn; [reflexivity|exact I].
    + repeat split; vm_compute; reflexivity.
  - split; [reflexivity|]. split; [reflexivity|]. split; [exact I|].
    repeat split; vm_compute; reflexivity.
Qed.

Lemma premium_limit_depends_on_path_witness :
  exists stats store',
    fetchCursorStats teamWorld sessionToken freshStore = (Ok stats, store')
    /\ isTeamSpendData stats
       = teamSourced teamWorld
           (mkMembership true (Some 7) (Some 42) "2024-01-15T00:00:00.000Z")
    /\ limit (premiumRequests stats) = Some 500.
Proof.
  destruct (@premium_limit_depends_on_path teamWorld sessionToken freshStore
              (snd (checkTeamMembership teamWorld sessionToken freshStore))
              (mkMembership true (Some 7) (Some 42)
                            "2024-01-15T00:00:00.000Z")
              usagePayload eq_refl eq_refl)
    as (stats & store' & Hfetch & Hteam & Hlimit & _).
  exists stats, store'. split; [exact Hfetch|]. split; [exact Hteam|].
  exact Hlimit.
Defined.

End FetchFacts.

(* ================================================================= *)
(** * Further properties of the code *)

(** ** Matches of the anchored patterns *)

Module MatchingFacts.

Import Regex Matching.

Lemma lookup_other n m s c : n <> m -> lookup m ((n, s) :: c) = lookup m c.
Proof.
  intros H. cbn. destruct (Nat.eqb_spec n m); [contradiction|reflexivity].
Qed.

(** Whatever a match returns was returned by its continuation, called
    with captures that differ from the given ones in the pattern's own
    groups only. *)
Lemma rmatch_inv r :
  forall i c k o,
    rmatch r i c k = Some o ->
    exists i' c', k i' c' = Some o
                  /\ forall n, ~ In n (groupsOf r) -> lookup n c' = lookup n c.
Proof.
  induction r as [|p|r1 IH1 r2 IH2|r1 IH1 r2 IH2|g r' IH|n r' IH| | |];
    intros i c k o H; cbn [rmatch groupsOf] in *.
  - exists i, c. auto.
  - destruct (snd i) as [|a s']; [discriminate|].
    destruct (p a); [|discriminate]. exists (Some a, s'), c. auto.
  - apply IH1 in H. destruct H as (i1 & c1 & H & Hc1).
    apply IH2 in H. destruct H as (i2 & c2 & H & Hc2).
    exists i2, c2. split; [exact H|].
    intros n Hn. rewrite Hc2, Hc1; auto; intro; apply Hn, in_or_app; auto.
  - unfold orElse in H. destruct (rmatch r1 i c k) eqn:E1.
    + injection H as <-. apply IH1 in E1. destruct E1 as (i1 & c1 & E & Hc).
      exists i1, c1. split; [exact E|]. intros n Hn. apply Hc.
      intro; apply Hn, in_or_app; auto.
    + apply IH2 in H. destruct H as (i1 & c1 & E & Hc).
      exists i1, c1. split; [exact E|]. intros n Hn. apply Hc.
      intro; apply Hn, in_or_app; auto.
  - change (repLoop g r' k (S (String.length (snd i))) i c = Some o) in H.
    remember (S (String.length (snd i))) as fuel eqn:Hfuel. clear Hfuel.
    revert i c H.
    induction fuel as [|fuel IHf]; intros i c H.
    + cbn in H. exists i, c. auto.
    + cbn [repLoop] in H.
      assert (Hagain :
        rmatch r' i c
          (fun i' c' =>
             if (String.length (snd i') <? String.length (snd i))%nat
             then repLoop g r' k fuel i' c' else None) = Some o ->
        exists i' c', k i' c' = Some o
          /\ forall n, ~ In n (groupsOf r') -> lookup n c' = lookup n c).
      { intros E. apply IH in E. destruct E as (i1 & c1 & E & Hc1).
        destruct (String.length (snd i1) <? String.length (snd i))%nat;
          [|discriminate].
        apply IHf in E. destruct E as (i2 & c2 & E & Hc2).
        exists i2, c2. split; [exact E|].
        intros n Hn. rewrite Hc2, Hc1; auto. }
      unfold orElse in H. destruct g.
      * match type of H with
        | match ?x with _ => _ end = _ => destruct x eqn:E
        end.
        -- injection H as <-. apply Hagain. reflexivity.
        -- exists i, c. auto.
      * destruct (k i c) eqn:E.
        -- injection H as <-. exists i, c. auto.
        -- apply Hagain. exact H.
  - apply IH in H. destruct H as (i1 & c1 & H & Hc).
    exists i1, ((n, consumed i i1) :: c1). split; [exact H|].
    intros m Hm. rewrite lookup_other.
    + apply Hc. intro; apply Hm; right; assumption.
    + intro; apply Hm; left; assumption.
  - destruct (fst i); [discriminate|]. exists i, c. auto.
  - destruct (snd i); [|discriminate]. exists i, c. auto.
  - destruct (xorb (wordBefore i) (wordAfter i)); [|discriminate].
    exists i, c. auto.
Qed.

(** A greedy run over one class, when what follows cannot start with a
    character of the class: the continuation is entered after the
    longest run. *)
Lemma greedy_run_only p k :
  (forall a s' prev c, p a = true -> k (prev, String a s') c = None) ->
  forall s prev c n,
    (String.length s < n)%nat ->
    repLoop true (Chr p) k n (prev, s) c = k (afterRun p prev s) c.
Proof.
  intros Hk. induction s as [|a s' IH]; intros prev c n Hn.
  - destruct n as [|n]; [reflexivity|]. cbn. reflexivity.
  - destruct n as [|n]; [cbn in Hn; lia|].
    cbn [repLoop rmatch snd afterRun].
    destruct (p a) eqn:Hp.
    + replace (String.length s' <? String.length (String a s'))%nat
        with true by (symmetry; apply Nat.ltb_lt; cbn; lia).
      rewrite IH by (cbn in Hn; lia).
      rewrite (Hk a s' prev c Hp).
      destruct (k (afterRun p (Some a) s') c); reflexivity.
    + reflexivity.
Qed.

(** A greedy run takes the longest run when the continuation accepts
    it. *)
Lemma greedy_run_first p k o :
  forall s prev c n,
    (String.length s < n)%nat ->
    k (afterRun p prev s) c = Some o ->
    repLoop true (Chr p) k n (prev, s) c = Some o.
Proof.
  induction s as [|a s' IH]; intros prev c n Hn H.
  - destruct n as [|n]; [exact H|]. cbn. exact H.
  - destruct n as [|n]; [cbn in Hn; lia|].
    cbn [repLoop rmatch snd afterRun] in *.
    destruct (p a) eqn:Hp.
    + replace (String.length s' <? String.length (String a s'))%nat
        with true by (symmetry; apply Nat.ltb_lt; cbn; lia).
      rewrite (IH (Some a) c n) by (cbn in Hn; lia || exact H).
      reflexivity.
    + exact H.
Qed.

Lemma substringTo_app a :
  forall b, JS.substringTo (String.length a) (a ++ b) = a.
Proof.
  induction a as [|x a IH]; intros b; cbn.
  - destruct b; reflexivity.
  - f_equal. apply IH.
Qed.

(** The text between the start of a subject and the rest left after a
    prefix. *)
Lemma consumed_app prev prev' run rest :
  consumed (prev, run ++ rest) (prev', rest) = run.
Proof.
  unfold consumed. cbn [snd]. rewrite TextFacts.length_append.
  replace (String.length run + String.length rest - String.length rest)%nat
    with (String.length run) by lia.
  apply substringTo_app.
Qed.

Lemma afterRun_digits s :
  forall prev, s = JS.digitsPrefix s ++ snd (afterRun JS.isDigit prev s).
Proof.
  induction s as [|a s' IH]; intros prev; cbn; [reflexivity|].
  destruct (JS.isDigit a); cbn; [f_equal; apply IH|reflexivity].
Qed.

(** The text a run of digits consumed is the digits the subject starts
    with. *)
Lemma consumed_digits prev0 prev s :
  consumed (prev0, s) (afterRun JS.isDigit prev s) = JS.digitsPrefix s.
Proof.
  pose proof (afterRun_digits s prev) as H.
  destruct (afterRun JS.isDigit prev s) as [prev' rest]. cbn [snd] in H.
  rewrite H at 1. apply consumed_app.
Qed.

Lemma consumed_digits_cons prev0 a s' :
  JS.isDigit a = true ->
  consumed (prev0, String a s') (afterRun JS.isDigit (Some a) s')
  = JS.digitsPrefix (String a s').
Proof.
  intros Ha.
  rewrite <- (consumed_digits prev0 prev0 (String a s')).
  cbn [afterRun]. rewrite Ha. reflexivity.
Qed.

(** A pattern anchored at the start matches at the start or nowhere. *)
Lemma search_anchored X :
  forall s a, search (Cat Bol X) (Some a) s = None.
Proof.
  induction s as [|b s' IH]; intros a; cbn; [reflexivity|apply IH].
Qed.

Lemma exec_anchored X s :
  exec (Cat Bol X) s = matchAt (Cat Bol X) (None, s).
Proof.
  unfold exec. destruct s as [|a s']; cbn [search].
  - destruct (matchAt (Cat Bol X) (None, "")); reflexivity.
  - rewrite search_anchored.
    destruct (matchAt (Cat Bol X) (None, String a s')); reflexivity.
Qed.

(** [(p+)REST] and [p+] on a subject that is not empty: one character
    of the class, then the loop. *)
Lemma rmatch_group_plus p g REST prev a s' c k :
  rmatch (Cat (Grp g (plus (Chr p))) REST) (prev, String a s') c k
  = if p a
    then repLoop true (Chr p)
           (fun i' c' =>
              rmatch REST i' ((g, consumed (prev, String a s') i') :: c') k)
           (S (String.length s')) (Some a, s') c
    else None.
Proof. cbn [rmatch plus snd]. destruct (p a); reflexivity. Qed.

Lemma rmatch_plus p prev a s' c k :
  rmatch (plus (Chr p)) (prev, String a s') c k
  = if p a
    then repLoop true (Chr p) k (S (String.length s')) (Some a, s') c
    else None.
Proof. cbn [rmatch plus snd]. destruct (p a); reflexivity. Qed.

(** [^(\d+)REST]: when REST cannot start with a digit and has no group 1,
    group 1 of a match is the run of digits the subject starts with. *)
Lemma leading_group REST s m :
  (forall a s' prev c k,
      JS.isDigit a = true -> rmatch REST (prev, String a s') c k = None) ->
  ~ In 1%nat (groupsOf REST) ->
  exec (Cat Bol (Cat (Grp 1 (plus digit)) REST)) s = Some m ->
  group 1 m = Some (JS.digitsPrefix s) /\ JS.digitsPrefix s <> "".
Proof.
  intros Hrest Hgrp. rewrite exec_anchored. unfold matchAt.
  destruct (rmatch _ _ _ _) as [[c' i']|] eqn:E; [|discriminate].
  intros H. injection H as <-. unfold group. cbn [groups].
  change (rmatch (Cat (Grp 1 (plus (Chr JS.isDigit))) REST) (None, s) []
                 (fun i'' c'' => Some (c'', i'')) = Some (c', i')) in E.
  destruct s as [|a s']; [discriminate|].
  rewrite rmatch_group_plus in E.
  destruct (JS.isDigit a) eqn:Ha; [|discriminate].
  rewrite greedy_run_only in E.
  - apply rmatch_inv in E. destruct E as (i1 & c1 & E & Hc).
    injection E as <- <-. rewrite (Hc 1%nat Hgrp). cbn [lookup Nat.eqb].
    rewrite consumed_digits_cons by exact Ha.
    split; [reflexivity|]. cbn. rewrite Ha. discriminate.
  - intros b t prev c Hb. apply Hrest. exact Hb.
  - cbn. lia.
Qed.

(** [^(\d+)]: matches exactly the subjects that start with a digit, and
    group 1 is the run of digits. *)
Lemma leading_count_exec s :
  match exec (Cat Bol (Grp 1 (plus digit))) s with
  | Some m => group 1 m = Some (JS.digitsPrefix s) /\ JS.digitsPrefix s <> ""
  | None => JS.digitsPrefix s = ""
  end.
Proof.
  rewrite exec_anchored. unfold matchAt.
  change (rmatch (Cat Bol (Grp 1 (plus digit))) (None, s) []
                 (fun i' c' => Some (c', i')))
    with (rmatch (Cat (Grp 1 (plus (Chr JS.isDigit))) Eps) (None, s) []
                 (fun i' c' => Some (c', i'))).
  destruct s as [|a s']; [reflexivity|].
  rewrite rmatch_group_plus.
  destruct (JS.isDigit a) eqn:Ha.
  - cbn [rmatch].
    erewrite greedy_run_first; [|cbn; lia|reflexivity].
    unfold group. cbn [groups lookup Nat.eqb].
    rewrite consumed_digits_cons by exact Ha.
    split; [reflexivity|]. cbn. rewrite Ha. discriminate.
  - cbn. rewrite Ha. reflexivity.
Qed.

(** A literal on a subject that starts with it. *)
Lemma rmatch_lit l :
  forall prev rest c k,
    rmatch (lit l) (prev, l ++ rest) c k = k (endOf prev l, rest) c.
Proof.
  induction l as [|a l IH]; intros prev rest c k; [reflexivity|].
  destruct l as [|b l'].
  - cbn. rewrite Ascii.eqb_refl. reflexivity.
  - change (lit (String a (String b l')))
      with (Cat (chr a) (lit (String b l'))).
    cbn [rmatch chr snd append]. rewrite Ascii.eqb_refl.
    apply (IH (Some a) rest c k).
Qed.

Lemma afterRun_app p run :
  forall prev rest,
    allOf p run = true -> stopsRun p rest = true ->
    afterRun p prev (run ++ rest) = (endOf prev run, rest).
Proof.
  induction run as [|a run IH]; intros prev rest Hrun Hrest.
  - cbn. destruct rest as [|b rest]; [reflexivity|].
    cbn in Hrest |- *. apply negb_true_iff in Hrest. rewrite Hrest.
    reflexivity.
  - cbn in Hrun. apply andb_true_iff in Hrun as [Ha Hrun].
    cbn. rewrite Ha. apply IH; assumption.
Qed.

(** [(p+)REST] on a subject that starts with a run of the class. *)
Lemma rmatch_group_run p g REST prev run rest c k o :
  run <> "" -> allOf p run = true -> stopsRun p rest = true ->
  (forall a s' prev' c',
      p a = true ->
      rmatch REST (prev', String a s') c' k = None) ->
  rmatch REST (endOf prev run, rest) ((g, run) :: c) k = Some o ->
  rmatch (Cat (Grp g (plus (Chr p))) REST) (prev, run ++ rest) c k = Some o.
Proof.
  intros Hne Hrun Hrest Hfail Hk.
  destruct run as [|a run']; [contradiction|].
  cbn in Hrun. apply andb_true_iff in Hrun as [Ha Hrun].
  cbn [append]. rewrite rmatch_group_plus, Ha.
  rewrite greedy_run_only.
  - rewrite afterRun_app by assumption.
    change (String a (run' ++ rest)) with (String a run' ++ rest).
    rewrite consumed_app. exact Hk.
  - intros b t prev' c' Hb. apply Hfail. exact Hb.
  - lia.
Qed.

(** [(p+)] at the end of a pattern, on a subject that starts with a
    character of the class. *)
Lemma rmatch_plus_last p prev a s c :
  p a = true ->
  exists i',
    rmatch (plus (Chr p)) (prev, String a s) c (fun i' c' => Some (c', i'))
    = Some (c, i').
Proof.
  intros Ha. rewrite rmatch_plus, Ha. eexists.
  apply greedy_run_first; [lia|reflexivity].
Qed.

End MatchingFacts.

(** ** The request count of a line *)

Module ParseFacts.

Import Regex Matching MatchingFacts Api Notions.

Lemma digitsPrefix_idem s :
  JS.digitsPrefix (JS.digitsPrefix s) = JS.digitsPrefix s.
Proof.
  induction s as [|a s IH]; cbn; [reflexivity|].
  destruct (JS.isDigit a) eqn:Ha; cbn; [rewrite Ha, IH|]; reflexivity.
Qed.

Lemma parseInt_digitsPrefix s :
  JS.parseInt (JS.digitsPrefix s) = leadingNumber s.
Proof.
  unfold JS.parseInt, leadingNumber. rewrite digitsPrefix_idem. reflexivity.
Qed.

Lemma leadingNumber_some s :
  JS.digitsPrefix s <> "" -> leadingNumber s <> None.
Proof.
  unfold leadingNumber.
  destruct (JS.digitsPrefix s); [contradiction|discriminate].
Qed.

Lemma leadingNumber_nonneg desc n : leadingNumber desc = Some n -> 0 <= n.
Proof.
  unfold leadingNumber.
  destruct (JS.digitsPrefix desc) as [|a s] eqn:E; [discriminate|].
  intros H; injection H as <-.
  change (0 <= JS.digitsValue (String a s) 0). rewrite <- E.
  apply TextFacts.digitsValue_nonneg. lia.
Qed.

Lemma digit_not_blank a : JS.isDigit a = true -> Ascii.eqb " " a = false.
Proof.
  intros H. destruct (Ascii.eqb_spec " " a) as [<-|];
    [discriminate|reflexivity].
Qed.

Lemma digit_not_space a : JS.isDigit a = true -> JS.isSpace a = false.
Proof.
  unfold JS.isDigit, JS.isSpace. cbv zeta. intros H.
  apply andb_true_iff in H. destruct H as [H1 H2].
  apply N.leb_le in H1. apply N.leb_le in H2.
  apply orb_false_iff. split.
  - apply andb_false_iff. right. apply N.leb_gt. lia.
  - apply N.eqb_neq. lia.
Qed.

(** Group 1 of each of the anchored patterns of [fetchMonthData]. *)
Lemma parseGroup_leading REST s m :
  (forall a s' prev c k,
      JS.isDigit a = true -> rmatch REST (prev, String a s') c k = None) ->
  ~ In 1%nat (groupsOf REST) ->
  exec (Cat Bol (Cat (Grp 1 (plus digit)) REST)) s = Some m ->
  parseGroup 1 m = leadingNumber s /\ leadingNumber s <> None.
Proof.
  intros Hrest Hgrp H.
  destruct (leading_group REST s Hrest Hgrp H) as [Hg Hne].
  unfold parseGroup. rewrite Hg, parseInt_digitsPrefix.
  split; [reflexivity|apply leadingNumber_some, Hne].
Qed.

Lemma tokenBasedCount_leading s m :
  exec tokenBasedCountPattern s = Some m ->
  parseGroup 1 m = leadingNumber s /\ leadingNumber s <> None.
Proof.
  apply parseGroup_leading.
  - intros a s' prev c k Ha. cbn [rmatch lit chr snd].
    rewrite (digit_not_blank a Ha). reflexivity.
  - cbn. tauto.
Qed.

Lemma tokenBased_leading s m :
  exec tokenBasedPattern s = Some m ->
  parseGroup 1 m = leadingNumber s /\ leadingNumber s <> None.
Proof.
  apply parseGroup_leading.
  - intros a s' prev c k Ha. cbn [rmatch seq lit chr snd].
    rewrite (digit_not_blank a Ha). reflexivity.
  - cbn. intros [H|[]]. discriminate.
Qed.

Lemma original_leading s m :
  exec originalPattern s = Some m ->
  parseGroup 1 m = leadingNumber s /\ leadingNumber s <> None.
Proof.
  apply parseGroup_leading.
  - intros a s' prev c k Ha. cbn [rmatch seq plus space snd].
    rewrite (digit_not_space a Ha). reflexivity.
  - cbn. intros [H|[]]. discriminate.
Qed.

Lemma leadingCount_leading s :
  match exec leadingCountPattern s with
  | Some m => parseGroup 1 m = leadingNumber s /\ leadingNumber s <> None
  | None => leadingNumber s = None
  end.
Proof.
  pose proof (leading_count_exec s) as H.
  change (Cat Bol (Grp 1 (plus digit))) with leadingCountPattern in H.
  destruct (exec leadingCountPattern s) as [m|].
  - destruct H as [Hg Hne]. unfold parseGroup.
    rewrite Hg, parseInt_digitsPrefix.
    split; [reflexivity|apply leadingNumber_some, Hne].
  - unfold leadingNumber. rewrite H. reflexivity.
Qed.

(** The request count the parser reads off a description. *)
Lemma parseDescription_leading w desc :
  match parseDescription w desc with
  | Unparsable => leadingNumber desc = None
  | Counted requestCount _ _ =>
      requestCount = leadingNumber desc /\ requestCount <> None
  end.
Proof.
  unfold parseDescription.
  destruct (exec tokenBasedPattern desc) as [m|] eqn:Et.
  { destruct (tokenBased_leading desc Et) as [-> Hn].
    split; [reflexivity|exact Hn]. }
  destruct (exec originalPattern desc) as [m|] eqn:Eo.
  { destruct (original_leading desc Eo) as [-> Hn].
    destruct (JS.includes desc "tool calls"); [now split|].
    destruct (exec genericModelPattern desc); [now split|].
    destruct (JS.includes desc "extra fast premium request"); [|now split].
    destruct (exec extraFastPattern desc) as [x|]; [|now split].
    destruct (group 1 x) as [g|]; [|now split].
    destruct (JS.truthyStr g); now split. }
  pose proof (leadingCount_leading desc) as Hl.
  destruct (exec leadingCountPattern desc) as [m|].
  - destruct Hl as [-> Hn]. split; [reflexivity|exact Hn].
  - exact Hl.
Qed.

(** The request count the two sizing passes read off a description. *)
Lemma currentItemRequestCount_leading desc :
  currentItemRequestCount desc
  = Some (match leadingNumber desc with Some n => n | None => 0 end).
Proof.
  unfold currentItemRequestCount.
  destruct (exec tokenBasedCountPattern desc) as [m|] eqn:Et.
  { destruct (tokenBasedCount_leading desc Et) as [-> Hn].
    destruct (leadingNumber desc); [reflexivity|contradiction]. }
  pose proof (leadingCount_leading desc) as Hl.
  destruct (exec leadingCountPattern desc) as [m|].
  - destruct Hl as [-> Hn].
    destruct (leadingNumber desc); [reflexivity|contradiction].
  - rewrite Hl. reflexivity.
Qed.

(** X1.  Whatever pattern of [fetchMonthData] matches a description,
    the request count of the line is the number the description starts
    with, the value of its leading run of digits: it is never [NaN] and
    never negative.  A line is dropped as unparsable exactly when its
    description does not start with a digit. *)
Theorem request_count_is_leading_number (w : World) (desc : string) :
  (parseDescription w desc = Unparsable <-> leadingNumber desc = None)
  /\ (forall requestCount parsedModelName isTotallingItem,
         parseDescription w desc
         = Counted requestCount parsedModelName isTotallingItem ->
         requestCount = leadingNumber desc
         /\ exists n, requestCount = Some n /\ 0 <= n).
Proof.
  pose proof (parseDescription_leading w desc) as H.
  destruct (parseDescription w desc) as [|rc name tot].
  - split; [tauto|]. discriminate.
  - destruct H as [Hrc Hsome]. split.
    + split; [discriminate|]. intros Hnone. congruence.
    + intros requestCount parsedModelName isTotallingItem E.
      injection E as <- _ _. split; [exact Hrc|].
      destruct rc as [n|]; [|contradiction].
      exists n. split; [reflexivity|].
      symmetry in Hrc. exact (leadingNumber_nonneg _ Hrc).
Qed.

(** X2.  The request count the two sizing passes of [fetchMonthData]
    read off a description is the number the description starts with,
    and 0 when it starts with none: the same count as the parser's for
    every line that parses. *)
Theorem sizing_count_is_leading_number (w : World) (desc : string) :
  currentItemRequestCount desc
  = Some (match leadingNumber desc with Some n => n | None => 0 end)
  /\ match parseDescription w desc with
     | Unparsable => currentItemRequestCount desc = Some 0
     | Counted requestCount _ _ => currentItemRequestCount desc = requestCount
     end.
Proof.
  split; [exact (currentItemRequestCount_leading desc)|].
  rewrite currentItemRequestCount_leading.
  pose proof (parseDescription_leading w desc) as H.
  destruct (parseDescription w desc) as [|rc name tot].
  - rewrite H. reflexivity.
  - destruct H as [-> Hn].
    destruct (leadingNumber desc); [reflexivity|contradiction].
Qed.

(** *** Lines of the token-based form *)

Lemma modelChar_not_comma a :
  isModelChar a = true -> Ascii.eqb "," a = false.
Proof.
  intros H. destruct (Ascii.eqb_spec "," a) as [<-|];
    [discriminate|reflexivity].
Qed.

Lemma allDigits_allOf n : Spec.allDigits n = allOf JS.isDigit n.
Proof.
  induction n as [|a n IH]; cbn; [reflexivity|rewrite IH; reflexivity].
Qed.

Lemma leadingNumber_run n rest :
  n <> "" -> Spec.allDigits n = true -> stopsRun JS.isDigit rest = true ->
  leadingNumber (n ++ rest) = Some (JS.digitsValue n 0).
Proof.
  intros Hne Hn Hrest. unfold leadingNumber.
  assert (Hp : JS.digitsPrefix (n ++ rest) = n).
  { clear Hne. induction n as [|a n IH]; cbn in *.
    - destruct rest as [|b rest]; [reflexivity|].
      cbn in Hrest |- *. apply negb_true_iff in Hrest. rewrite Hrest.
      reflexivity.
    - apply andb_true_iff in Hn as [Ha Hn]. rewrite Ha, IH by assumption.
      reflexivity. }
  rewrite Hp. destruct n; [contradiction|reflexivity].
Qed.

(** The token-based pattern matches a line of the token-based form, and
    group 2 is the model. *)
Lemma tokenBased_exec n model amount :
  n <> "" -> Spec.allDigits n = true ->
  model <> "" -> allOf isModelChar model = true ->
  startsWithAmount amount = true ->
  exists m,
    exec tokenBasedPattern (tokenBasedLine n model amount) = Some m
    /\ group 2 m = Some model.
Proof.
  intros Hn Hdigits Hmodel Hchars Hamount. unfold tokenBasedLine.
  destruct amount as [|x amount']; [discriminate|].
  cbn [startsWithAmount] in Hamount.
  set (R3 := plus (Chr (fun x => JS.isDigit x || Ascii.eqb x "."))).
  set (R2 := Cat (Grp 2 (plus modelChar)) (Cat (lit ", totalling: $") R3)).
  set (R1 := Cat (lit " token-based usage calls to ") R2).
  change tokenBasedPattern with (Cat Bol (Cat (Grp 1 (plus digit)) R1)).
  rewrite exec_anchored. unfold matchAt.
  change (rmatch (Cat Bol (Cat (Grp 1 (plus digit)) R1))
                 (None, n ++ " token-based usage calls to " ++ model
                          ++ ", totalling: $" ++ String x amount') []
                 (fun i' c' => Some (c', i')))
    with (rmatch (Cat (Grp 1 (plus (Chr JS.isDigit))) R1)
                 (None, n ++ " token-based usage calls to " ++ model
                          ++ ", totalling: $" ++ String x amount') []
                 (fun i' c' => Some (c', i'))).
  destruct (@rmatch_plus_last isAmountChar
              (endOf (endOf (endOf (endOf None n)
                                   " token-based usage calls to ") model)
                     ", totalling: $")
              x amount' [(2%nat, model); (1%nat, n)] Hamount) as (iEnd & Hend).
  assert (Hm : rmatch (Cat (Grp 1 (plus (Chr JS.isDigit))) R1)
                 (None, n ++ " token-based usage calls to " ++ model
                          ++ ", totalling: $" ++ String x amount') []
                 (fun i' c' => Some (c', i'))
               = Some ([(2%nat, model); (1%nat, n)], iEnd)).
  2:{ rewrite Hm. eexists. split; reflexivity. }
  apply rmatch_group_run;
    [exact Hn|rewrite <- allDigits_allOf; exact Hdigits|reflexivity| |].
  - intros a s' prev' c' Ha. unfold R1.
    cbn [rmatch lit chr snd]. rewrite (digit_not_blank a Ha). reflexivity.
  - unfold R1.
    change (rmatch (Cat (lit " token-based usage calls to ") R2)
                   (endOf None n,
                    " token-based usage calls to " ++ model
                      ++ ", totalling: $" ++ String x amount')
                   [(1%nat, n)] (fun i' c' => Some (c', i')))
      with (rmatch (lit " token-based usage calls to ")
                   (endOf None n,
                    " token-based usage calls to "
                      ++ (model ++ ", totalling: $" ++ String x amount'))
                   [(1%nat, n)]
                   (fun i' c' =>
                      rmatch R2 i' c' (fun i'' c'' => Some (c'', i'')))).
    rewrite rmatch_lit. unfold R2, modelChar.
    apply rmatch_group_run; [exact Hmodel|exact Hchars|reflexivity| |].
    + intros a s' prev' c' Ha.
      cbn [rmatch lit chr snd]. rewrite (modelChar_not_comma a Ha).
      reflexivity.
    + change (rmatch (Cat (lit ", totalling: $") R3)
                     (endOf (endOf (endOf None n)
                                   " token-based usage calls to ") model,
                      ", totalling: $" ++ String x amount')
                     [(2%nat, model); (1%nat, n)]
                     (fun i' c' => Some (c', i')))
        with (rmatch (lit ", totalling: $")
                     (endOf (endOf (endOf None n)
                                   " token-based usage calls to ") model,
                      ", totalling: $" ++ String x amount')
                     [(2%nat, model); (1%nat, n)]
                     (fun i' c' =>
                        rmatch R3 i' c' (fun i'' c'' => Some (c'', i'')))).
      rewrite rmatch_lit. exact Hend.
Qed.

(** X3.  Every line of the token-based form, a count of digits, the
    words " token-based usage calls to ", a model name of word
    characters, dots and hyphens, the words ", totalling: $" and an
    amount, parses to the value of its count and to its model, and is
    marked as a totalling item. *)
Theorem token_based_line_parses :
  forall (w : World) (count model amount : string),
    count <> "" -> Spec.allDigits count = true ->
    model <> "" -> allOf isModelChar model = true ->
    startsWithAmount amount = true ->
    parseDescription w (tokenBasedLine count model amount)
    = Counted (Some (JS.digitsValue count 0)) model true.
Proof.
  intros w count model amount Hn Hdigits Hmodel Hchars Hamount.
  destruct (@tokenBased_exec count model amount Hn Hdigits Hmodel Hchars
                             Hamount)
    as (m & Hexec & Hgroup).
  unfold parseDescription. rewrite Hexec, Hgroup.
  destruct (tokenBased_leading _ Hexec) as [-> _].
  unfold tokenBasedLine.
  rewrite leadingNumber_run by (assumption || reflexivity).
  reflexivity.
Qed.

Lemma token_based_line_parses_witness :
  parseDescription Samples.silent
    (tokenBasedLine "142" "claude-4-sonnet" "9.94")
  = Counted (Some 142) "claude-4-sonnet" true.
Proof.
  exact (@token_based_line_parses Samples.silent "142" "claude-4-sonnet" "9.94"
           ltac:(discriminate) eq_refl ltac:(discriminate) eq_refl eq_refl).
Defined.

End ParseFacts.

(** ** The lines kept from an invoice *)

Module LineFacts.

Import Api Spec Notions ParseFacts.

(** The lines that yield a ParsedUsageItem are the kept lines. *)
Lemma yields_kept w item : yieldsParsedItem w item = keptLine item.
Proof.
  unfold yieldsParsedItem, keptLine.
  destruct (raw_cents item); [|reflexivity].
  destruct (isMidMonth item); [reflexivity|]. cbn [negb andb].
  pose proof (parseDescription_leading w (raw_description item)) as H.
  destruct (parseDescription w (raw_description item)) as [|rc name tot].
  - rewrite H. reflexivity.
  - destruct H as [<- Hn]. destruct rc as [[|p|p]|]; try reflexivity.
    congruence.
Qed.

Lemma processItem_kept w padW costW acc item :
  exists pushed,
    parsedUsageItems (usageItems (processItem w padW costW acc item))
    = (parsedUsageItems (usageItems acc) ++ pushed)%list
    /\ if keptLine item
       then exists line, pushed = [line] /\ renders item line
       else pushed = [].
Proof.
  rewrite <- (yields_kept w). unfold processItem, yieldsParsedItem, renders.
  unfold parsedUsageItems.
  destruct (raw_cents item) as [cents|];
    [|exists []; rewrite app_nil_r; auto].
  destruct (isMidMonth item).
  - exists []. cbn [usageItems]. rewrite filter_app. auto.
  - destruct (parseDescription w (raw_description item))
      as [|rc name tot]; [exists []; rewrite app_nil_r; auto|].
    destruct rc as [[|p|p]|];
      try (exists []; rewrite app_nil_r; split; reflexivity);
      cbn [usageItems]; rewrite filter_app; cbn [filter];
      (eexists; split; [reflexivity|]); cbn;
      (eexists; split; [reflexivity|]); cbn; auto.
Qed.

Lemma parseLoop_kept w padW costW raw :
  forall acc kept,
    Forall2 renders kept (parsedUsageItems (usageItems acc)) ->
    Forall2 renders (kept ++ filter keptLine raw)
            (parsedUsageItems
               (usageItems (fold_left (processItem w padW costW) raw acc))).
Proof.
  induction raw as [|item raw IH]; intros acc kept H; cbn [fold_left filter].
  - rewrite app_nil_r. exact H.
  - destruct (processItem_kept w padW costW acc item) as (pushed & Hp & Hk).
    destruct (keptLine item).
    + destruct Hk as (line & -> & Hr).
      replace (kept ++ item :: filter keptLine raw)%list
        with ((kept ++ [item]) ++ filter keptLine raw)%list
        by (rewrite <- app_assoc; reflexivity).
      apply IH. rewrite Hp. apply Forall2_app; [exact H|].
      constructor; [exact Hr|constructor].
    + subst pushed. rewrite app_nil_r in Hp. apply IH. rewrite Hp. exact H.
Qed.

(** X4.  The ParsedUsageItems of an invoice are, one for one and in the
    order of the invoice, the lines that have cents, do not carry the
    prepayment marker and start with a number other than 0; each keeps
    the description of its line as it is, states the total
    [cents / 100] with two decimals and carries the discount flag of
    the description.  No other line yields one. *)
Theorem parsed_items_render_kept_lines (w : World) (raw : list RawItem) :
  Forall2 renders (filter keptLine raw)
          (parsedUsageItems (usageItems (parseItems w raw))).
Proof.
  unfold parseItems.
  apply (@parseLoop_kept w (paddingWidth raw) (costPaddingWidth raw) raw
                         emptyAcc []).
  constructor.
Qed.

Lemma invoiceTotal_kept w raw : invoiceTotal w raw = keptTotal raw.
Proof.
  induction raw as [|item raw IH]; cbn [invoiceTotal keptTotal];
    [reflexivity|].
  rewrite yields_kept, IH. reflexivity.
Qed.

(** X5.  The total [updateStats] adds up from the lines [fetchMonthData]
    pushed for an invoice, reading each total text back as a number, is
    the sum of the positive [cents / 100] of the kept lines: the lines
    with cents, without the prepayment marker, that start with a number
    other than 0.  Prepayment lines, credits and dropped lines add
    nothing. *)
Theorem invoice_total_of_kept_lines (w : World) (response : InvoiceResponse) :
  (Stats.sumPositive (items (monthDataOf w response))
   == keptTotal (match invoice_items response with
                 | Some raw => raw
                 | None => []
                 end))%Q.
Proof.
  unfold monthDataOf. destruct (invoice_items response) as [raw|];
    cbn [items]; [|reflexivity].
  rewrite <- (invoiceTotal_kept w). apply ApiFacts.parseItems_total.
Qed.

End LineFacts.

(** ** The width of the request counts *)

Module WidthFacts.

Import JS Spec.







End WidthFacts.

Module AlignFacts.

Import Api Spec Notions ParseFacts LineFacts WidthFacts.







Lemma positive_of_flag n : (0 <? n) = true -> positiveDivisor (Some n).
Proof. intros H. exists n. split; [reflexivity|apply Z.ltb_lt, H]. Qed.

Lemma processItem_positive w padW costW acc item :
  Forall positiveDivisor (divisors acc) ->
  Forall positiveDivisor (divisors (processItem w padW costW acc item)).
Proof.
  intros H. unfold processItem.
  destruct (raw_cents item); [|exact H].
  destruct (isMidMonth item); [exact H|].
  pose proof (parseDescription_leading w (raw_description item)) as Hl.
  destruct (parseDescription w (raw_description item)) as [|rc name tot];
    [exact H|].
  destruct Hl as [Hrc Hsome].
  assert (Hpush : rc <> Some 0 ->
            Forall positiveDivisor (divisors acc ++ [rc])).
  { intros Hnz. apply Forall_app. split; [exact H|].
    constructor; [|constructor].
    destruct rc as [n|]; [|contradiction].
    symmetry in Hrc. pose proof (leadingNumber_nonneg _ Hrc).
    exists n. split; [reflexivity|].
    assert (n <> 0) by congruence. lia. }
  destruct rc as [[|p|p]|]; [exact H| | |]; cbn [divisors];
    apply Hpush; discriminate.
Qed.

(** X7.  Every divisor of a per-request division that the three loops
    of [fetchMonthData] carry out is a positive number: never zero,
    never negative and never [NaN], so that every cost per request is a
    finite number. *)
Theorem every_divisor_is_positive (w : World) (raw : list RawItem) :
  Forall positiveDivisor (allDivisors w raw).
Proof.
  unfold allDivisors. apply Forall_app. split; [|apply Forall_app; split].
  - unfold firstPass.
    apply (fold_left_invariant
             (fun st : Z * Q * list (option Z) =>
                Forall positiveDivisor (snd st))).
    + intros [[m c] log] item H; cbn [snd] in *.
      destruct (raw_cents item); [|exact H].
      destruct (isMidMonth item); [exact H|].
      destruct (currentItemRequestCount (raw_description item)) as [n|];
        [|exact H].
      destruct (0 <? n) eqn:Hn; [|exact H].
      cbn [snd]. apply Forall_app. split; [exact H|].
      constructor; [apply positive_of_flag, Hn|constructor].
    + constructor.
  - unfold secondPass.
    apply (fold_left_invariant
             (fun st : Q * list (option Z) =>
                Forall positiveDivisor (snd st))).
    + intros [c log] item H; cbn [snd] in *.
      destruct (raw_cents item); [|exact H].
      destruct (isMidMonth item); [exact H|].
      destruct (currentItemRequestCount (raw_description item)) as [n|];
        [|exact H].
      destruct (0 <? n) eqn:Hn; [|exact H].
      cbn [snd]. apply Forall_app. split; [exact H|].
      constructor; [apply positive_of_flag, Hn|constructor].
    + constructor.
  - unfold parseItems.
    apply (fold_left_invariant
             (fun acc => Forall positiveDivisor (divisors acc))).
    + intros acc item. apply processItem_positive.
    + constructor.
Qed.

End AlignFacts.

(** ** Billing periods for an anchor day up to 28 *)

Module PeriodFacts.

Import JSDate Api Spec Samples Display BillingFacts.

Lemma ltb_fields y1 m1 d1 t1 y2 m2 d2 t2 :
  ltb (mk y1 m1 d1 t1) (mk y2 m2 d2 t2) = true
  <-> y1 < y2
      \/ (y1 = y2 /\ (m1 < m2
                      \/ (m1 = m2 /\ (d1 < d2 \/ (d1 = d2 /\ t1 < t2))))).
Proof.
  unfold ltb. cbn [year JSDate.month date time].
  destruct (Z.ltb_spec y1 y2); [split; [auto|reflexivity]|].
  destruct (Z.ltb_spec y2 y1); [split; [discriminate|lia]|].
  destruct (Z.ltb_spec m1 m2);
    [split; [intros _; right; split; lia|reflexivity]|].
  destruct (Z.ltb_spec m2 m1); [split; [discriminate|lia]|].
  destruct (Z.ltb_spec d1 d2);
    [split; [intros _; right; split; lia|reflexivity]|].
  destruct (Z.ltb_spec d2 d1); [split; [discriminate|lia]|].
  rewrite Z.ltb_lt. split; [intros; right; split; lia|lia].
Qed.

Lemma day_fits y m d : d <= 28 -> d <= daysInMonth y m.
Proof. intros H. pose proof (daysInMonth_bounds y m). lia. Qed.

(** Moving a date whose day is at most 28 by whole months. *)
Lemma setMonth_small y m d ms k :
  d <= 28 ->
  setMonth (mk y m d ms) k = mk (y + k / 12) (k mod 12) d ms.
Proof.
  intros H. rewrite setMonth_fits; cbn [year JSDate.month date time];
    [reflexivity|apply day_fits, H].
Qed.

Lemma usagePeriodStart_mk ys ms d ms' y m :
  0 <= ms < 12 -> d <= 28 -> 0 <= m < 12 ->
  usagePeriodStart (mk ys ms d ms') (m + 1) y = mk y m d ms'.
Proof.
  intros Hms Hd Hm.
  unfold usagePeriodStart, getMonth, getFullYear. cbv zeta.
  cbn [year JSDate.month].
  rewrite setMonth_small by exact Hd.
  replace (ys + ms / 12) with ys by divmod.
  replace (ms mod 12) with ms by divmod.
  rewrite (@setFullYear_fits (mk ys ms d ms') ys);
    cbn [year JSDate.month date time];
    [|exact Hms|apply day_fits, Hd].
  rewrite setMonth_small by exact Hd.
  rewrite setFullYear_fits; cbn [year JSDate.month date time];
    [|divmod|apply day_fits, Hd].
  f_equal; divmod.
Qed.

Section SmallAnchor.

Variables subscriptionStart currentDate : JSDate.t.
Hypothesis start_valid : valid subscriptionStart.
Hypothesis now_valid : valid currentDate.
Hypothesis small : date subscriptionStart <= 28.

Let yn := year currentDate.
Let mn := JSDate.month currentDate.
Let ds := date subscriptionStart.
Let ts := time subscriptionStart.

Lemma tentative_small :
  tentativePeriodStart subscriptionStart currentDate = mk yn mn ds ts.
Proof.
  apply tentative_fits; [exact now_valid|apply day_fits, small].
Qed.

Lemma current_small :
  currentPeriodStart subscriptionStart currentDate
  = if ltb currentDate (mk yn mn ds ts)
    then mk (yn + (mn - 1) / 12) ((mn - 1) mod 12) ds ts
    else mk yn mn ds ts.
Proof.
  unfold currentPeriodStart. cbv zeta. rewrite tentative_small.
  destruct (ltb currentDate (mk yn mn ds ts)); [|reflexivity].
  unfold getMonth. cbn [JSDate.month]. apply setMonth_small. exact small.
Qed.

Lemma current_small_fields :
  exists y m,
    currentPeriodStart subscriptionStart currentDate = mk y m ds ts
    /\ 0 <= m < 12.
Proof.
  rewrite current_small. destruct now_valid as [Hm _]. fold mn in Hm.
  destruct (ltb currentDate (mk yn mn ds ts)); eexists; eexists;
    (split; [reflexivity|]); [divmod|exact Hm].
Qed.

Lemma previous_small :
  exists y m,
    currentPeriodStart subscriptionStart currentDate = mk y m ds ts
    /\ 0 <= m < 12
    /\ previousPeriodStart subscriptionStart currentDate
       = mk (y + (m - 1) / 12) ((m - 1) mod 12) ds ts.
Proof.
  destruct current_small_fields as (y & m & Hc & Hm).
  exists y, m. split; [exact Hc|]. split; [exact Hm|].
  unfold previousPeriodStart. cbv zeta. rewrite Hc.
  unfold getMonth. cbn [JSDate.month]. apply setMonth_small. exact small.
Qed.

(** Today lies in the current period. *)
Lemma today_in_period :
  ltb currentDate (currentPeriodStart subscriptionStart currentDate) = false
  /\ ltb currentDate
         (periodEnd (currentPeriodStart subscriptionStart currentDate)) = true.
Proof.
  rewrite current_small.
  destruct now_valid as [Hm Hd]. fold mn yn in Hm, Hd.
  assert (Hnow : currentDate = mk yn mn (date currentDate) (time currentDate))
    by (destruct currentDate; reflexivity).
  destruct (ltb currentDate (mk yn mn ds ts)) eqn:Hlt.
  - unfold periodEnd, getMonth. cbn [JSDate.month].
    rewrite setMonth_small by exact small.
    assert (Hback : mk (yn + (mn - 1) / 12 + ((mn - 1) mod 12 + 1) / 12)
                       (((mn - 1) mod 12 + 1) mod 12) ds ts
                    = mk yn mn ds ts)
      by (f_equal; divmod).
    rewrite Hback. split; [|exact Hlt].
    rewrite Hnow. apply not_true_is_false. rewrite ltb_fields.
    intros H.
    assert (Hr : ((mn - 1) mod 12 = mn - 1 /\ (mn - 1) / 12 = 0)
                 \/ ((mn - 1) mod 12 = 11 /\ (mn - 1) / 12 = -1 /\ mn = 0))
      by divmod.
    lia.
  - split; [exact Hlt|].
    unfold periodEnd, getMonth. cbn [JSDate.month].
    rewrite setMonth_small by exact small.
    rewrite Hnow. apply ltb_fields.
    assert (Hr : ((mn + 1) mod 12 = mn + 1 /\ (mn + 1) / 12 = 0)
                 \/ ((mn + 1) mod 12 = 0 /\ (mn + 1) / 12 = 1 /\ mn = 11))
      by divmod.
    lia.
Qed.

(** The previous period ends where the current one starts. *)
Lemma previous_abuts :
  periodEnd (previousPeriodStart subscriptionStart currentDate)
  = currentPeriodStart subscriptionStart currentDate
  /\ ltb (previousPeriodStart subscriptionStart currentDate)
         (currentPeriodStart subscriptionStart currentDate) = true.
Proof.
  destruct previous_small as (y & m & Hc & Hm & Hp).
  rewrite Hp, Hc. split.
  - unfold periodEnd, getMonth. cbn [JSDate.month].
    rewrite setMonth_small by exact small. f_equal; divmod.
  - apply ltb_fields.
    assert (Hr : ((m - 1) mod 12 = m - 1 /\ (m - 1) / 12 = 0)
                 \/ ((m - 1) mod 12 = 11 /\ (m - 1) / 12 = -1 /\ m = 0))
      by divmod.
    lia.
Qed.

(** The period the tooltip reconstructs from a month and a year. *)
Lemma usagePeriodStart_small y m :
  0 <= m < 12 ->
  usagePeriodStart subscriptionStart (m + 1) y = mk y m ds ts.
Proof.
  intros Hm. destruct start_valid as [Hsm _].
  assert (Hs : subscriptionStart
               = mk (year subscriptionStart) (JSDate.month subscriptionStart)
                    ds ts) by (destruct subscriptionStart; reflexivity).
  rewrite Hs. apply usagePeriodStart_mk; assumption.
Qed.

Lemma tooltip_period :
  usagePeriodStart subscriptionStart
    (getMonth (currentPeriodStart subscriptionStart currentDate) + 1)
    (getFullYear (currentPeriodStart subscriptionStart currentDate))
  = currentPeriodStart subscriptionStart currentDate
  /\ usagePeriodStart subscriptionStart
       (getMonth (previousPeriodStart subscriptionStart currentDate) + 1)
       (getFullYear (previousPeriodStart subscriptionStart currentDate))
     = previousPeriodStart subscriptionStart currentDate.
Proof.
  destruct previous_small as (y & m & Hc & Hm & Hp).
  rewrite Hp, Hc. unfold getMonth, getFullYear. cbn [year JSDate.month].
  split; apply usagePeriodStart_small; [exact Hm|divmod].
Qed.

End SmallAnchor.

Lemma anchor15_valid : valid anchor15.
Proof. unfold valid. vm_compute. intuition congruence. Qed.

Lemma midApril_valid : valid midApril.
Proof. unfold valid. vm_compute. intuition congruence. Qed.

Lemma anchor15_small : date anchor15 <= 28.
Proof. vm_compute. congruence. Qed.

(** X9.  For a subscription that began on a day up to the 28th, the
    previous billing period is the month right before the current one:
    it starts before the current period and, moved forward one month,
    ends exactly where the current period starts. *)
Theorem previous_period_abuts_current :
  forall subscriptionStart currentDate : JSDate.t,
    valid subscriptionStart ->
    valid currentDate ->
    date subscriptionStart <= 28 ->
    periodEnd (previousPeriodStart subscriptionStart currentDate)
    = currentPeriodStart subscriptionStart currentDate
    /\ ltb (previousPeriodStart subscriptionStart currentDate)
           (currentPeriodStart subscriptionStart currentDate) = true.
Proof.
  intros s n Hs Hn Hsmall. apply previous_abuts; assumption.
Qed.

Lemma previous_period_abuts_current_witness :
  periodEnd (previousPeriodStart anchor15 midApril)
  = currentPeriodStart anchor15 midApril
  /\ ltb (previousPeriodStart anchor15 midApril)
         (currentPeriodStart anchor15 midApril) = true.
Proof.
  exact (@previous_period_abuts_current anchor15 midApril
           anchor15_valid midApril_valid anchor15_small).
Defined.

(** X10.  For a subscription that began on a day up to the 28th, the
    usage-based period [updateStats] works out again from the month and
    the year of a month of the snapshot starts on the very date
    [fetchCursorStats] computed for that month, for the current and for
    the last month. *)
Theorem tooltip_period_is_fetched_period :
  forall subscriptionStart currentDate : JSDate.t,
    valid subscriptionStart ->
    valid currentDate ->
    date subscriptionStart <= 28 ->
    usagePeriodStart subscriptionStart
      (getMonth (currentPeriodStart subscriptionStart currentDate) + 1)
      (getFullYear (currentPeriodStart subscriptionStart currentDate))
    = currentPeriodStart subscriptionStart currentDate
    /\ usagePeriodStart subscriptionStart
         (getMonth (previousPeriodStart subscriptionStart currentDate) + 1)
         (getFullYear (previousPeriodStart subscriptionStart currentDate))
       = previousPeriodStart subscriptionStart currentDate.
Proof.
  intros s n Hs Hn Hsmall. apply tooltip_period; assumption.
Qed.

Lemma tooltip_period_is_fetched_period_witness :
  usagePeriodStart anchor15
    (getMonth (currentPeriodStart anchor15 midApril) + 1)
    (getFullYear (currentPeriodStart anchor15 midApril))
  = currentPeriodStart anchor15 midApril.
Proof.
  exact (proj1 (@tooltip_period_is_fetched_period anchor15 midApril
                  anchor15_valid midApril_valid anchor15_small)).
Defined.

End PeriodFacts.

(** ** The membership lookup and the member's entry *)

Module MemberFacts.

Import Team Spec Samples.

(** X11.  [extractUserSpend] returns the entry of the first member of
    the payload with the user id: the member's id, name, e-mail, role
    and hard-limit override, the fast premium requests with 0 for a
    missing or zero value, and no [spendCents].  It throws, with the
    message "User spend data not found in team spend response", exactly
    when no member has the user id. *)
Theorem extract_user_spend_first_match
        (teamSpend : TeamSpendResponse) (userId : Z) :
  match extractUserSpend teamSpend userId with
  | Ok userSpend =>
      exists before member after,
        teamMemberSpend teamSpend = (before ++ member :: after)%list
        /\ Forall (fun other => member_userId other <> userId) before
        /\ member_userId member = userId
        /\ prop "userId" userSpend = Some (Num userId)
        /\ prop "name" userSpend = Some (Str (member_name member))
        /\ prop "email" userSpend = Some (Str (member_email member))
        /\ prop "role" userSpend = Some (Str (member_role member))
        /\ prop "hardLimitOverrideDollars" userSpend
           = Some (Num (member_hardLimitOverrideDollars member))
        /\ prop "fastPremiumRequests" userSpend
           = Some (Num (orDefault (member_fastPremiumRequests member) 0))
        /\ prop "spendCents" userSpend = None
  | Err e =>
      Forall (fun other => member_userId other <> userId)
             (teamMemberSpend teamSpend)
      /\ message e = "User spend data not found in team spend response"
  end.
Proof.
  unfold extractUserSpend.
  induction (teamMemberSpend teamSpend) as [|x members IH]; cbn [find].
  - split; [constructor|reflexivity].
  - destruct (member_userId x =? userId) eqn:E.
    + apply Z.eqb_eq in E. exists [], x, members.
      rewrite E. repeat split; constructor.
    + apply Z.eqb_neq in E.
      destruct (find _ members) as [found|].
      * destruct IH as (before & member & after & Hs & Hb & Hrest).
        exists (x :: before), member, after.
        split; [rewrite Hs; reflexivity|].
        split; [constructor; assumption|exact Hrest].
      * destruct IH as [Hall Hmsg].
        split; [constructor; assumption|exact Hmsg].
Qed.

(** A lookup that fails: which request failed, and the cache file. *)
Lemma freshLookup_failure w token subject store e store' :
  freshLookup w token subject store = (Err e, store') ->
  cacheFile store' = cacheFile store
  /\ (reply_usage w (userOf token) = Err e
      \/ reply_teams w = Err e
      \/ exists teamId, reply_team w teamId = Err e).
Proof.
  unfold freshLookup, bind, await, saveUserCache, ret.
  fold (userOf token). cbn [cacheFile sent].
  destruct (reply_usage w (userOf token)) as [usage|e1].
  2:{ intros H; injection H as <- <-. auto. }
  destruct (reply_teams w) as [response|e1].
  2:{ intros H; injection H as <- <-. auto. }
  destruct (hd_error (teams response)) as [id|].
  - destruct ((0 <? length (teams response))%nat); cbn [andb];
      [|discriminate].
    destruct (truthyNum (Some id)); [|discriminate].
    destruct (reply_team w id) as [detail|e1] eqn:Hteam; [discriminate|].
    intros H; injection H as <- <-. split; [reflexivity|]. eauto.
  - destruct ((0 <? length (teams response))%nat); discriminate.
Qed.

(** X12.  When [checkTeamMembership] throws, the error is the one of
    the request that failed, the usage, the teams or the team-detail
    request, and the cache file is left as it was: a failed lookup
    never overwrites the cached record. *)
Theorem membership_failure_keeps_cache :
  forall (w : World) (token : string) (store store' : Store) (e : Error),
    checkTeamMembership w token store = (Err e, store') ->
    cacheFile store' = cacheFile store
    /\ (reply_usage w (userOf token) = Err e
        \/ reply_teams w = Err e
        \/ exists teamId, reply_team w teamId = Err e).
Proof.
  intros w token store store' e.
  unfold checkTeamMembership, tryCatch, bind, loadUserCache, throw.
  destruct (cacheFile store) as [c|] eqn:Hfile.
  - destruct (cacheHit _ c); [discriminate|].
    destruct (freshLookup w token _ store) as [[info|e1] s1] eqn:Hl;
      [discriminate|].
    intros H; injection H as <- <-.
    destruct (freshLookup_failure _ _ _ _ Hl) as [Hc Hwhich].
    split; [congruence|exact Hwhich].
  - destruct (freshLookup w token _ store) as [[info|e1] s1] eqn:Hl;
      [discriminate|].
    intros H; injection H as <- <-.
    destruct (freshLookup_failure _ _ _ _ Hl) as [Hc Hwhich].
    split; [congruence|exact Hwhich].
Qed.

Lemma membership_failure_keeps_cache_witness :
  cacheFile (snd (checkTeamMembership teamsDown sessionToken
                    (mkStore (Some staleRecord) [])))
  = Some staleRecord.
Proof.
  exact (proj1 (@membership_failure_keeps_cache teamsDown sessionToken
                  (mkStore (Some staleRecord) [])
                  (snd (checkTeamMembership teamsDown sessionToken
                          (mkStore (Some staleRecord) [])))
                  down eq_refl)).
Defined.



End MemberFacts.

(** ** What a snapshot needs, sends and carries *)

Module SnapshotFacts.
Import Team Api Spec Samples Notions MoreSamples.

(** The team branch never throws; it leaves counters only when the usage
    request succeeded, and it sends the team-spend request and, after a
    successful lookup, the usage request. *)
Lemma teamBranch_runs w userId info s :
  exists locals,
    teamBranch w userId info s
    = (Ok locals,
       mkStore (cacheFile s)
               (sent s
                ++ match resolvedMember info with
                   | Some (teamId, teamUserId) =>
                       PostTeamSpend teamId
                       :: match teamSpendLookup w teamId teamUserId with
                          | Ok _ => [GetUsage userId]
                          | Err _ => []
                          end
                   | None => []
                   end)%list)
    /\ match l_premiumRequests locals with
       | Some _ => exists usage, reply_usage w userId = Ok usage
                                 /\ teamSourced w info = true
       | None => match reply_usage w userId with
                 | Ok _ => teamSourced w info = false
                 | Err _ => True
                 end
       end.
Proof.
  unfold teamSourced.
  destruct (resolvedMember info) as [[teamId teamUserId]|] eqn:Hres.
  - apply FetchFacts.resolved_condition in Hres as (Ht & Hu & Hc).
    unfold teamBranch. rewrite Ht, Hu. rewrite Ht, Hu in Hc. rewrite Hc.
    unfold teamSpendLookup.
    unfold getTeamSpend, tryCatch, bind, await, lift, ret, throw.
    cbn [cacheFile sent].
    destruct (reply_teamSpend w teamId) as [teamSpend|e].
    + destruct (extractUserSpend teamSpend teamUserId) as [userSpend|e].
      * destruct (reply_usage w userId) as [usage|e] eqn:Hu'.
        -- eexists. split.
           ++ cbn [cacheFile sent]. rewrite <- ?app_assoc. reflexivity.
           ++ cbn. eauto.
        -- eexists. split.
           ++ cbn [cacheFile sent]. rewrite <- ?app_assoc. reflexivity.
           ++ cbn. exact I.
      * eexists. split; [reflexivity|]. cbn.
        destruct (reply_usage w userId); auto.
    + eexists. split; [reflexivity|]. cbn.
      destruct (reply_usage w userId); auto.
  - rewrite (FetchFacts.teamBranch_skipped w userId info s Hres).
    eexists. split.
    + rewrite app_nil_r. destruct s; reflexivity.
    + cbn. destruct (reply_usage w userId); auto.
Qed.

(** A usage request that fails makes the membership lookup fail with
    the same error, unless the cache answers. *)
Lemma check_usage_failure w token store e :
  reply_usage w (userOf token) = Err e ->
  (exists info, checkTeamMembership w token store = (Ok info, store))
  \/ (exists store', checkTeamMembership w token store = (Err e, store')).
Proof.
  intros Hu.
  unfold checkTeamMembership, tryCatch, bind, loadUserCache.
  assert (Hfresh : forall sub, exists store',
             freshLookup w token sub store = (Err e, store')).
  { intros sub. unfold freshLookup, bind, await. fold (userOf token).
    rewrite Hu. eauto. }
  destruct (cacheFile store) as [c|].
  - destruct (cacheHit _ c).
    + left. eexists. reflexivity.
    + right. destruct (Hfresh (jwt_sub w (nth_error (split "%3A%3A" token) 1)))
        as (s' & ->). eexists. reflexivity.
  - right. destruct (Hfresh (jwt_sub w (nth_error (split "%3A%3A" token) 1)))
      as (s' & ->). eexists. reflexivity.
Qed.

Lemma fetch_usage_failure w token store e :
  reply_usage w (userOf token) = Err e ->
  fst (fetchCursorStats w token store) = Err e.
Proof.
  intros Hu.
  destruct (check_usage_failure w token store Hu) as [(info & Hc)|(s' & Hc)].
  - unfold fetchCursorStats. fold (userOf token).
    unfold tryCatch at 1. unfold bind at 1. rewrite Hc.
    destruct (teamBranch_runs w (userOf token) info store)
      as (locals & Hteam & Hlocals).
    unfold bind at 1. rewrite Hteam.
    destruct (l_premiumRequests locals) as [p|] eqn:Hp.
    + destruct Hlocals as (usage & Hok & _). congruence.
    + unfold bind at 1. unfold individualBranch. rewrite Hp.
      unfold bind, await. rewrite Hu. reflexivity.
  - rewrite (FetchFacts.fetch_membership_failure w token store Hc).
    reflexivity.
Qed.

(** The snapshot, the requests sent and the cache of a computation whose
    membership lookup and usage request succeed. *)
Lemma fetch_trace w token store info store1 usage :
  checkTeamMembership w token store = (Ok info, store1) ->
  reply_usage w (userOf token) = Ok usage ->
  exists stats store',
    fetchCursorStats w token store = (Ok stats, store')
    /\ cacheFile store' = cacheFile store1
    /\ sent store'
       = (sent store1 ++ requestsAfterMembership token info stats)%list
    /\ reported w (currentMonth stats)
    /\ reported w (lastMonth stats)
    /\ isTeamSpendData stats = teamSourced w info
    /\ teamSpendCents stats = (if teamSourced w info then Some 0 else None)
    /\ teamId stats = m_teamId info
    /\ current (premiumRequests stats) = numRequests (gpt4 usage).
Proof.
  intros Hcheck Husage.
  destruct (teamBranch_runs w (userOf token) info store1)
    as (locals & Hteam & Hlocals).
  destruct (@FetchFacts.fetch_characterised w token store info store1 usage
              Hcheck Husage)
    as (cur & last & s' & Fc & Fl & Hfetch).
  assert (Hsent :
    cacheFile s' = cacheFile store1
    /\ sent s'
       = (sent store1
          ++ match resolvedMember info with
             | Some (teamId, _) => [PostTeamSpend teamId]
             | None => []
             end
          ++ [ GetUsage (userOf token);
               PostMonthlyInvoice (month cur) (year cur);
               PostMonthlyInvoice (month last) (year last) ])%list).
  { revert Hfetch.
    unfold fetchCursorStats. fold (userOf token).
    unfold tryCatch at 1. unfold bind at 1. rewrite Hcheck.
    unfold bind at 1. rewrite Hteam.
    unfold bind at 1.
    assert (Hind : exists premium,
      individualBranch w (userOf token) locals
        (mkStore (cacheFile store1)
           (sent store1
            ++ match resolvedMember info with
               | Some (teamId, teamUserId) =>
                   PostTeamSpend teamId
                   :: match teamSpendLookup w teamId teamUserId with
                      | Ok _ => [GetUsage (userOf token)]
                      | Err _ => []
                      end
               | None => []
               end)%list)
      = (Ok premium,
         mkStore (cacheFile store1)
           (sent store1
            ++ match resolvedMember info with
               | Some (teamId, _) => [PostTeamSpend teamId]
               | None => []
               end ++ [GetUsage (userOf token)])%list)).
    { unfold individualBranch.
      destruct (l_premiumRequests locals) as [p|].
      - destruct Hlocals as (_ & _ & Hts). unfold teamSourced in Hts.
        destruct (resolvedMember info) as [[a b]|]; [|discriminate].
        destruct (teamSpendLookup w a b); [|discriminate].
        eexists. reflexivity.
      - rewrite Husage in Hlocals. unfold teamSourced in Hlocals.
        unfold bind, await, ret. rewrite Husage. cbn [cacheFile sent].
        destruct (resolvedMember info) as [[a b]|].
        + destruct (teamSpendLookup w a b); [discriminate|].
          eexists. rewrite <- app_assoc. reflexivity.
        + eexists. rewrite <- app_assoc. reflexivity. }
    destruct Hind as (premium & ->). cbv zeta.
    unfold bind at 1. rewrite FetchFacts.monthOrEmpty_eval.
    unfold bind at 1. rewrite FetchFacts.monthOrEmpty_eval.
    cbn [cacheFile sent]. unfold ret.
    intros H. injection H as Hstats <-. cbn [cacheFile sent].
    split; [reflexivity|].
    rewrite <- !app_assoc. cbn [app].
    assert (Hm : forall (a b : CursorStats), a = b ->
               month (currentMonth a) = month (currentMonth b)
               /\ year (currentMonth a) = year (currentMonth b)
               /\ month (lastMonth a) = month (lastMonth b)
               /\ year (lastMonth a) = year (lastMonth b))
      by (intros a b ->; auto).
    apply Hm in Hstats. cbn [currentMonth lastMonth month year] in Hstats.
    destruct (teamSourced w info);
      cbn [currentMonth lastMonth month year] in Hstats;
      destruct Hstats as (-> & -> & -> & ->); reflexivity. }
  destruct Hsent as [Hfile Hsent].
  eexists. exists s'. split; [exact Hfetch|].
  split; [exact Hfile|].
  unfold requestsAfterMembership.
  destruct (teamSourced w info);
    cbn [currentMonth lastMonth isTeamSpendData teamSpendCents teamId
         premiumRequests current];
    repeat split; try assumption; try reflexivity.
Qed.


(** A snapshot was produced: the membership was resolved and the usage
    request succeeded. *)
Lemma fetch_inv w token store stats store' :
  fetchCursorStats w token store = (Ok stats, store') ->
  exists info store1 usage,
    checkTeamMembership w token store = (Ok info, store1)
    /\ reply_usage w (userOf token) = Ok usage.
Proof.
  intros H.
  destruct (checkTeamMembership w token store) as [[info|e] store1] eqn:Hc.
  - destruct (reply_usage w (userOf token)) as [usage|e] eqn:Hu.
    + exists info, store1, usage. auto.
    + pose proof (fetch_usage_failure w token store Hu) as Hf.
      rewrite H in Hf. discriminate.
  - rewrite (FetchFacts.fetch_membership_failure w token store Hc) in H.
    discriminate.
Qed.

(** X14.  [fetchCursorStats] produces a snapshot exactly when the
    membership lookup resolves and the individual usage request
    succeeds; a failure of the invoice or of the team-spend request
    never prevents it.  A failed membership lookup is thrown on with
    its error and its store, and a failed usage request makes the
    computation throw that request's error. *)
Theorem snapshot_needs_membership_and_usage
        (w : World) (token : string) (store : Store) :
  ((exists stats store', fetchCursorStats w token store = (Ok stats, store'))
   <-> (exists info store1,
           checkTeamMembership w token store = (Ok info, store1))
       /\ (exists usage, reply_usage w (userOf token) = Ok usage))
  /\ (forall e store1,
         checkTeamMembership w token store = (Err e, store1) ->
         fetchCursorStats w token store = (Err e, store1))
  /\ (forall e,
         reply_usage w (userOf token) = Err e ->
         fst (fetchCursorStats w token store) = Err e).
Proof.
  split; [split|split].
  - intros (stats & store' & H).
    destruct (fetch_inv w token store H) as (info & store1 & usage & Hc & Hu).
    eauto.
  - intros [(info & store1 & Hc) (usage & Hu)].
    destruct (fetch_trace w token store Hc Hu) as (stats & store' & H & _).
    eauto.
  - intros e store1. apply FetchFacts.fetch_membership_failure.
  - intros e. apply fetch_usage_failure.
Qed.

(** X15.  Once the membership is resolved, and given the individual
    usage, [fetchCursorStats] sends the team-spend request for a
    resolved team member and for no one else, then one usage request,
    then the invoice request of the current and of the last month, in
    this order and nothing else; it does not write the cache file. *)
Theorem requests_after_membership :
  forall (w : World) (token : string) (store store1 : Store)
         (info : Membership) (usage : CursorUsageResponse),
    checkTeamMembership w token store = (Ok info, store1) ->
    reply_usage w (userOf token) = Ok usage ->
    exists stats store',
      fetchCursorStats w token store = (Ok stats, store')
      /\ cacheFile store' = cacheFile store1
      /\ sent store'
         = (sent store1 ++ requestsAfterMembership token info stats)%list.
Proof.
  intros w token store store1 info usage Hc Hu.
  destruct (fetch_trace w token store Hc Hu)
    as (stats & store' & H & Hfile & Hsent & _).
  eauto.
Qed.

Lemma requests_after_membership_witness :
  exists stats store',
    fetchCursorStats teamWorld sessionToken freshStore = (Ok stats, store')
    /\ cacheFile store'
       = cacheFile (snd (checkTeamMembership teamWorld sessionToken freshStore))
    /\ sent store'
       = (sent (snd (checkTeamMembership teamWorld sessionToken freshStore))
          ++ requestsAfterMembership sessionToken
               (mkMembership true (Some 7) (Some 42)
                             "2024-01-15T00:00:00.000Z") stats)%list.
Proof.
  exact (@requests_after_membership teamWorld sessionToken freshStore
           (snd (checkTeamMembership teamWorld sessionToken freshStore))
           (mkMembership true (Some 7) (Some 42) "2024-01-15T00:00:00.000Z")
           usagePayload eq_refl eq_refl).
Defined.

(** X16.  In every snapshot [fetchCursorStats] produces, a month whose
    invoice request failed carries the empty data, no line, no unpaid
    mid-month invoice and a prepayment of 0, and a month whose request
    succeeded carries the data parsed from the reply. *)
Theorem invoice_failure_gives_empty_month :
  forall (w : World) (token : string) (store store' : Store)
         (stats : CursorStats),
    fetchCursorStats w token store = (Ok stats, store') ->
    forall m,
      m = currentMonth stats \/ m = lastMonth stats ->
      match reply_invoice w (month m) (year m) with
      | Ok response => usageBasedPricing m = monthDataOf w response
      | Err _ => usageBasedPricing m = emptyMonthData
      end.
Proof.
  intros w token store store' stats H m Hm.
  destruct (fetch_inv w token store H) as (info & store1 & usage & Hc & Hu).
  destruct (fetch_trace w token store Hc Hu)
    as (stats0 & store0 & H0 & _ & _ & Fc & Fl & _).
  rewrite H in H0. injection H0 as <- <-.
  unfold reported, monthDataFor in Fc, Fl.
  destruct Hm as [-> | ->].
  - destruct (reply_invoice w (month (currentMonth stats))
                              (year (currentMonth stats))); exact Fc.
  - destruct (reply_invoice w (month (lastMonth stats))
                              (year (lastMonth stats))); exact Fl.
Qed.

Lemma invoice_failure_gives_empty_month_witness :
  usageBasedPricing
    (currentMonth
       (mkStats (mkMonthStats (Some 4) (Some 2024) emptyMonthData)
                (mkMonthStats (Some 3) (Some 2024) emptyMonthData)
                (mkPremium 120 (Some 500) "2024-01-15T00:00:00.000Z")
                true (Some 7) (Some 0)))
  = emptyMonthData.
Proof.
  exact (@invoice_failure_gives_empty_month
           invoiceDown sessionToken freshStore
           (snd (fetchCursorStats invoiceDown sessionToken freshStore))
           (mkStats (mkMonthStats (Some 4) (Some 2024) emptyMonthData)
                    (mkMonthStats (Some 3) (Some 2024) emptyMonthData)
                    (mkPremium 120 (Some 500) "2024-01-15T00:00:00.000Z")
                    true (Some 7) (Some 0))
           eq_refl _ (or_introl eq_refl)).
Defined.

(** X17.  In every snapshot [fetchCursorStats] produces, the team spend
    is 0 cents when the snapshot is team-sourced and absent otherwise:
    the object [extractUserSpend] returns has no [spendCents], so the
    member's spend never reaches the snapshot, and [updateStats] shows
    a total cost of 0 as the current usage of a team-sourced
    snapshot. *)
Theorem team_sourced_cost_is_zero :
  forall (w : World) (token : string) (store store' : Store)
         (stats : CursorStats),
    fetchCursorStats w token store = (Ok stats, store') ->
    teamSpendCents stats = (if isTeamSpendData stats then Some 0 else None)
    /\ (if isTeamSpendData stats
        then (Stats.actualTotalCost stats == 0)%Q
             /\ Stats.usageLine stats
                = Stats.TeamUsage (Stats.actualTotalCost stats)
        else Stats.useTeamSpendData stats = false).
Proof.
  intros w token store store' stats H.
  destruct (fetch_inv w token store H) as (info & store1 & usage & Hc & Hu).
  destruct (fetch_trace w token store Hc Hu)
    as (stats0 & store0 & H0 & _ & _ & _ & _ & Hteam & Hcents & _).
  rewrite H in H0. injection H0 as <- <-.
  rewrite <- Hteam in Hcents. split; [exact Hcents|].
  unfold Stats.usageLine, Stats.showsUsage, Stats.useTeamSpendData,
    Stats.actualTotalCost, Stats.hasTeamSpend.
  rewrite Hcents. destruct (isTeamSpendData stats); cbn [andb].
  - rewrite orb_true_r. cbn [orb]. split; reflexivity.
  - reflexivity.
Qed.

Lemma team_sourced_cost_is_zero_witness :
  teamSpendCents
    (mkStats (mkMonthStats (Some 4) (Some 2024)
                           (monthDataOf teamWorld aprilInvoice))
             (mkMonthStats (Some 3) (Some 2024)
                           (monthDataOf teamWorld aprilInvoice))
             (mkPremium 120 (Some 500) "2024-01-15T00:00:00.000Z")
             true (Some 7) (Some 0))
  = Some 0.
Proof.
  exact (proj1 (@team_sourced_cost_is_zero teamWorld sessionToken freshStore
                  (snd (fetchCursorStats teamWorld sessionToken freshStore))
                  (mkStats (mkMonthStats (Some 4) (Some 2024)
                                         (monthDataOf teamWorld aprilInvoice))
                           (mkMonthStats (Some 3) (Some 2024)
                                         (monthDataOf teamWorld aprilInvoice))
                           (mkPremium 120 (Some 500)
                                      "2024-01-15T00:00:00.000Z")
                           true (Some 7) (Some 0))
                  eq_refl)).
Defined.

End SnapshotFacts.

(** ** The usage-based period of the tooltip *)

Module ShownPeriodFacts.
Import Team Api Spec Samples MoreSamples Display.

(** The months of a produced snapshot are those of the current and of
    the previous period start, computed from the snapshot's own start of
    the subscription. *)
Lemma fetch_months w token store stats store' :
  fetchCursorStats w token store = (Ok stats, store') ->
  let start := JSDate.parse (startOfMonth (premiumRequests stats)) in
  let currentPeriod :=
    option_map (fun s => currentPeriodStart s (newDate w)) start in
  let previousPeriod :=
    option_map (fun s => previousPeriodStart s (newDate w)) start in
  month (currentMonth stats) = monthOf currentPeriod
  /\ year (currentMonth stats) = yearOf currentPeriod
  /\ month (lastMonth stats) = monthOf previousPeriod
  /\ year (lastMonth stats) = yearOf previousPeriod.
Proof.
  intros H.
  destruct (checkTeamMembership w token store) as [[info|e] store1] eqn:Hc;
    [|rewrite (FetchFacts.fetch_membership_failure w token store Hc) in H;
      discriminate].
  destruct (SnapshotFacts.teamBranch_runs w (userOf token) info store1)
    as (locals & Hteam & _).
  revert H. unfold fetchCursorStats. fold (userOf token).
  unfold tryCatch at 1. unfold bind at 1. rewrite Hc.
  unfold bind at 1. rewrite Hteam.
  unfold bind at 1.
  destruct (individualBranch w (userOf token) locals _)
    as [[premium|e] store3]; [|discriminate].
  cbv zeta.
  unfold bind at 1. rewrite FetchFacts.monthOrEmpty_eval.
  unfold bind at 1. rewrite FetchFacts.monthOrEmpty_eval.
  unfold ret. intros H. injection H as <- _.
  cbn [currentMonth lastMonth premiumRequests month year].
  repeat split; reflexivity.
Qed.

(** X8.  For a snapshot [fetchCursorStats] produces from a subscription
    that began on a day up to the 28th, today lies in the current
    billing period: the period start is not after today, and today is
    before the same day of the following month.  The usage-based period
    [updateStats] shows, when it shows one, is that period when the
    active month is the current month of the snapshot.  When
    [updateStats] falls back to the last month, the period shown is the
    previous billing period, whose end is the start of the current one:
    today is then not before the end shown. *)
Theorem shown_usage_period_and_today :
  forall (w : World) (token : string) (store store' : Store)
         (stats : CursorStats) (subscriptionStart : JSDate.t),
    fetchCursorStats w token store = (Ok stats, store') ->
    JSDate.parse (startOfMonth (premiumRequests stats))
    = Some subscriptionStart ->
    JSDate.valid subscriptionStart ->
    JSDate.valid (newDate w) ->
    JSDate.date subscriptionStart <= 28 ->
    let today := newDate w in
    let current := currentPeriodStart subscriptionStart today in
    let previous := previousPeriodStart subscriptionStart today in
    (JSDate.ltb today current = false /\ JSDate.ltb today (periodEnd current) = true)
    /\ shownUsagePeriod stats
       = (if Stats.showsUsage stats
          then Some (if usesCurrentMonth stats
                     then (current, periodEnd current)
                     else (previous, current))
          else None)
    /\ (usesCurrentMonth stats = true ->
        forall shownStart shownEnd,
          shownUsagePeriod stats = Some (shownStart, shownEnd) ->
          JSDate.ltb today shownStart = false /\ JSDate.ltb today shownEnd = true)
    /\ (usesCurrentMonth stats = false ->
        forall shownStart shownEnd,
          shownUsagePeriod stats = Some (shownStart, shownEnd) ->
          shownEnd = current /\ JSDate.ltb today shownEnd = false).
Proof.
  intros w token store store' stats s H Hparse Hs Hn Hsmall
         today current previous.
  subst today current previous.
  pose proof (@PeriodFacts.today_in_period s (newDate w) Hn Hsmall)
    as Htoday.
  destruct (@PeriodFacts.previous_abuts s (newDate w) Hn Hsmall)
    as [Habuts _].
  destruct (@PeriodFacts.tooltip_period s (newDate w) Hs Hn Hsmall)
    as [Hcur Hprev].
  destruct (fetch_months w token store H) as (Hcm & Hcy & Hlm & Hly).
  rewrite Hparse in Hcm, Hcy, Hlm, Hly.
  cbn [option_map monthOf yearOf] in Hcm, Hcy, Hlm, Hly.
  assert (Hshown :
    shownUsagePeriod stats
    = (if Stats.showsUsage stats
       then Some (if usesCurrentMonth stats
                  then (currentPeriodStart s (newDate w),
                        periodEnd (currentPeriodStart s (newDate w)))
                  else (previousPeriodStart s (newDate w),
                        currentPeriodStart s (newDate w)))
       else None)).
  { unfold shownUsagePeriod. cbv zeta.
    destruct (Stats.showsUsage stats); [|reflexivity].
    rewrite Hparse. unfold Stats.activeMonthData.
    fold (usesCurrentMonth stats).
    destruct (usesCurrentMonth stats).
    - rewrite Hcm, Hcy, Hcur. reflexivity.
    - rewrite Hlm, Hly, Hprev, Habuts. reflexivity. }
  split; [exact Htoday|]. split; [exact Hshown|].
  rewrite Hshown. split.
  - intros Hactive shownStart shownEnd Hperiod. rewrite Hactive in Hperiod.
    destruct (Stats.showsUsage stats); [|discriminate].
    injection Hperiod as <- <-. exact Htoday.
  - intros Hactive shownStart shownEnd Hperiod. rewrite Hactive in Hperiod.
    destruct (Stats.showsUsage stats); [|discriminate].
    injection Hperiod as <- <-. split; [reflexivity|exact (proj1 Htoday)].
Qed.

Lemma quietApril_valid :
  JSDate.valid anchor15 /\ JSDate.valid (newDate quietApril) /\ JSDate.date anchor15 <= 28.
Proof.
  split; [exact PeriodFacts.anchor15_valid|].
  split; [exact PeriodFacts.midApril_valid|exact PeriodFacts.anchor15_small].
Qed.

Lemma shown_usage_period_and_today_witness :
  fst (fetchCursorStats quietApril sessionToken freshStore)
  = Ok quietAprilSnapshot
  /\ usesCurrentMonth quietAprilSnapshot = false
  /\ shownUsagePeriod quietAprilSnapshot
     = Some (JSDate.mk 2024 2 15 0, JSDate.mk 2024 3 15 0)
  /\ JSDate.ltb (newDate quietApril) (JSDate.mk 2024 3 15 0) = false
  /\ JSDate.ltb (newDate quietApril)
         (periodEnd (currentPeriodStart anchor15 (newDate quietApril)))
     = true.
Proof.
  assert (Hfetch :
    fetchCursorStats quietApril sessionToken freshStore
    = (Ok quietAprilSnapshot,
       snd (fetchCursorStats quietApril sessionToken freshStore)))
    by (vm_compute; reflexivity).
  assert (Hperiod :
    shownUsagePeriod quietAprilSnapshot
    = Some (JSDate.mk 2024 2 15 0, JSDate.mk 2024 3 15 0))
    by (vm_compute; reflexivity).
  destruct quietApril_valid as (Hs & Hn & Hsmall).
  destruct (@shown_usage_period_and_today quietApril sessionToken freshStore
              _ quietAprilSnapshot anchor15 Hfetch eq_refl Hs Hn Hsmall)
    as ((_ & Hend) & _ & _ & Hfallback).
  split; [rewrite Hfetch; reflexivity|]. split; [reflexivity|].
  split; [exact Hperiod|]. split; [|exact Hend].
  exact (proj2 (Hfallback eq_refl _ _ Hperiod)).
Defined.

End ShownPeriodFacts.

(** ** The detector's state and the amounts shown *)

Module SessionFacts.
Import Stats Spec Samples MoreSamples.

Lemma record_grows detected term :
  exists more,
    record detected term = (detected ++ more)%list
    /\ Forall (fun x => meaningful x = true) more.
Proof.
  unfold record. destruct (meaningful term) eqn:Hm.
  - destruct (alreadyPresent detected term).
    + exists []. rewrite app_nil_r. split; [reflexivity|constructor].
    + exists [term]. split; [reflexivity|].
      constructor; [exact Hm|constructor].
  - exists []. rewrite app_nil_r. split; [reflexivity|constructor].
Qed.

Lemma grows_trans (a : list string) b c :
  (exists more, b = (a ++ more)%list
                /\ Forall (fun x => meaningful x = true) more) ->
  (exists more, c = (b ++ more)%list
                /\ Forall (fun x => meaningful x = true) more) ->
  exists more, c = (a ++ more)%list
               /\ Forall (fun x => meaningful x = true) more.
Proof.
  intros (m1 & -> & H1) (m2 & -> & H2). exists (m1 ++ m2)%list.
  split; [rewrite app_assoc; reflexivity|].
  apply Forall_app. split; assumption.
Qed.

Lemma grows_refl (a : list string) :
  exists more, a = (a ++ more)%list
               /\ Forall (fun x => meaningful x = true) more.
Proof. exists []. rewrite app_nil_r. split; [reflexivity|constructor]. Qed.

Lemma detect_grows stats detected :
  exists more,
    detect stats detected = (detected ++ more)%list
    /\ Forall (fun x => meaningful x = true) more.
Proof.
  unfold detect. destruct (_ && _); [|apply grows_refl].
  generalize (items (usageBasedPricing (activeMonthData stats))) as lines.
  intros lines. revert detected.
  induction lines as [|item lines IH]; intros detected; cbn [fold_left].
  - apply grows_refl.
  - eapply grows_trans; [|apply IH].
    unfold detectItem. destruct (JS.includes _ _); [apply grows_refl|].
    destruct (_ && _); [apply record_grows|apply grows_refl].
Qed.

Lemma updateStats_grows session fetched :
  (exists more,
      detectedUnknownModels (fst (updateStats session fetched))
      = (detectedUnknownModels session ++ more)%list
      /\ Forall (fun x => meaningful x = true) more)
  /\ (unknownModelNotificationShown session = true ->
      unknownModelNotificationShown (fst (updateStats session fetched))
      = true).
Proof.
  destruct fetched as [stats|e]; cbn.
  - pose proof (StatsFacts.notify_detected
                  (mkSession (unknownModelNotificationShown session)
                             (detect stats (detectedUnknownModels session))))
      as Hn.
    destruct (StatsFacts.notify_cases
                (mkSession (unknownModelNotificationShown session)
                           (detect stats (detectedUnknownModels session))))
      as [Hc|[text Hc]]; rewrite Hc in *; cbn in *;
      (split; [apply detect_grows|auto]).
  - split; [apply grows_refl|auto].
Qed.

(** X18.  Over any sequence of refresh cycles of a process, failed
    fetches included, the set of unknown models only grows: what was
    recorded stays, in its order, and every term added has more than
    one character and is none of the generic words.  Once the
    notification was shown the latch stays closed. *)
Theorem detected_models_only_grow
        (session : Session) (cycles : list (Result CursorStats)) :
  (exists more,
      detectedUnknownModels (fst (run session cycles))
      = (detectedUnknownModels session ++ more)%list
      /\ Forall (fun term => meaningful term = true) more)
  /\ (if unknownModelNotificationShown session
      then unknownModelNotificationShown (fst (run session cycles)) = true
      else True).
Proof.
  revert session.
  induction cycles as [|fetched rest IH]; intros session; cbn [run].
  - split; [apply grows_refl|]. cbn.
    destruct (unknownModelNotificationShown session); auto.
  - destruct (updateStats_grows session fetched) as [Hg Hl].
    destruct (updateStats session fetched) as [session' shown].
    cbn [fst] in Hg, Hl.
    destruct (IH session') as [Hg' Hl'].
    destruct (run session' rest) as [final more]. cbn [fst] in *.
    split; [eapply grows_trans; eassumption|].
    destruct (unknownModelNotificationShown session); [|exact I].
    rewrite (Hl eq_refl) in Hl'. exact Hl'.
Qed.

(** The sum of the positive costs is not negative. *)
Lemma sumPositive_nonneg lines : (0 <= sumPositive lines)%Q.
Proof.
  unfold sumPositive.
  apply (fold_left_invariant (fun sum => (0 <= sum)%Q)).
  - intros sum item H. destruct (itemCost item) as [cost|]; [|exact H].
    destruct (Qltb 0 cost) eqn:E; [|exact H].
    unfold Qltb in E. apply negb_true_iff in E.
    assert (Hc : (0 < cost)%Q).
    { apply Qnot_le_lt. intros Hle. apply Qle_bool_iff in Hle. congruence. }
    apply Qlt_le_weak in Hc.
    setoid_replace 0%Q with (0 + 0)%Q by ring.
    apply Qplus_le_compat; assumption.
  - apply Qle_refl.
Qed.

Lemma prepaidTotal_nonneg raw : (0 <= prepaidTotal raw)%Q.
Proof.
  induction raw as [|item raw IH]; cbn [prepaidTotal]; [apply Qle_refl|].
  destruct (Api.isMidMonth item); [|exact IH].
  setoid_replace 0%Q with (0 + 0)%Q by ring.
  apply Qplus_le_compat; [|exact IH].
  unfold prepayment. destruct (raw_cents item) as [cents|]; [|apply Qle_refl].
  unfold Qle, Qdiv, Qmult, Qinv, inject_Z. cbn [Qnum Qden].
  pose proof (Z.abs_nonneg cents). lia.
Qed.

(** X19.  For a snapshot that is not team-sourced and whose active
    month was parsed from an invoice, the total cost is not negative,
    whatever credits the invoice holds, the prepayment is not negative,
    whatever the sign of its cents, and the unpaid amount lies between
    0 and the total cost. *)
Theorem invoice_cost_bounds :
  forall (w : World) (response : InvoiceResponse) (stats : CursorStats),
    isTeamSpendData stats = false ->
    usageBasedPricing (activeMonthData stats) = Api.monthDataOf w response ->
    (0 <= actualTotalCost stats)%Q
    /\ (0 <= midMonthPayment (usageBasedPricing (activeMonthData stats)))%Q
    /\ (0 <= unpaidAmount stats)%Q
    /\ (unpaidAmount stats <= actualTotalCost stats)%Q.
Proof.
  intros w response stats Hteam Hdata.
  destruct (FetchFacts.invoice_total stats Hteam) as [Huse Htotal].
  assert (Hpaid : (0 <= midMonthPayment
                          (usageBasedPricing (activeMonthData stats)))%Q).
  { rewrite Hdata. unfold Api.monthDataOf.
    destruct (invoice_items response) as [raw|]; cbn [midMonthPayment];
      [|apply Qle_refl].
    rewrite ApiFacts.parseItems_prepaid. apply prepaidTotal_nonneg. }
  assert (Htot : (0 <= actualTotalCost stats)%Q)
    by (rewrite Htotal; apply sumPositive_nonneg).
  split; [exact Htot|]. split; [exact Hpaid|].
  unfold unpaidAmount. rewrite Huse.
  split; [apply Q.le_max_l|].
  apply Q.max_lub; [exact Htot|].
  setoid_replace (actualTotalCost stats)
    with (actualTotalCost stats - 0)%Q at 2 by ring.
  apply Qplus_le_compat; [apply Qle_refl|].
  apply Qopp_le_compat. exact Hpaid.
Qed.

Lemma invoice_cost_bounds_witness :
  (0 <= actualTotalCost prepaidStats)%Q
  /\ (unpaidAmount prepaidStats <= actualTotalCost prepaidStats)%Q.
Proof.
  destruct (@invoice_cost_bounds silent prepaidInvoice prepaidStats
              eq_refl eq_refl) as (H1 & _ & _ & H2).
  split; [exact H1|exact H2].
Defined.

End SessionFacts.

(** ** The unpaid amount of a produced snapshot *)

Module UnpaidFacts.
Import Team Api Stats Spec Samples MoreSamples.

(** The prepayment of a month that holds the data of the world's reply
    is not negative. *)
Lemma reported_prepaid w m :
  reported w m -> (0 <= midMonthPayment (usageBasedPricing m))%Q.
Proof.
  intros H. rewrite H. unfold monthDataFor.
  destruct (reply_invoice w (month m) (year m)) as [response|e];
    [|apply Qle_refl].
  unfold monthDataOf. destruct (invoice_items response) as [raw|];
    cbn [midMonthPayment]; [|apply Qle_refl].
  rewrite ApiFacts.parseItems_prepaid. apply SessionFacts.prepaidTotal_nonneg.
Qed.

(** Under team spend a produced snapshot has a total cost of 0 and a
    prepayment that is not negative. *)
Lemma team_spend_amounts w token store store' stats :
  fetchCursorStats w token store = (Ok stats, store') ->
  useTeamSpendData stats = true ->
  (actualTotalCost stats == 0)%Q
  /\ (0 <= midMonthPayment (usageBasedPricing (activeMonthData stats)))%Q.
Proof.
  intros H Huse.
  destruct (SnapshotFacts.fetch_inv w token store H)
    as (info & store1 & usage & Hc & Hu).
  destruct (SnapshotFacts.fetch_trace w token store Hc Hu)
    as (stats0 & store0 & H0 & _ & _ & Fc & Fl & Hteam & Hcents & _).
  rewrite H in H0. injection H0 as <- <-.
  split.
  - unfold actualTotalCost. unfold useTeamSpendData in Huse. rewrite Huse.
    unfold hasTeamSpend in Huse. apply andb_true_iff in Huse as [Hsrc _].
    rewrite <- Hteam, Hsrc in Hcents. rewrite Hcents. reflexivity.
  - apply (@reported_prepaid w).
    apply (@FetchFacts.active_reported w stats Fc Fl).
Qed.

(** C4.  In every snapshot [fetchCursorStats] produces, the unpaid
    amount of [updateStats] is [max(0, totalCost - midMonthPayment)],
    for the total cost and the prepayment of the active month: under
    team spend the total cost is 0 and the prepayment is not negative,
    so the 0 the code takes there is the same number.  The amount is
    never negative, it is 0 whenever the total cost is below the
    prepayment, and the line of the tooltip that states an unpaid
    amount states the total cost and exactly
    [max(0, totalCost - midMonthPayment)]. *)
Theorem unpaid_amount_of_snapshot :
  forall (w : World) (token : string) (store store' : Store)
         (stats : CursorStats),
    fetchCursorStats w token store = (Ok stats, store') ->
    let total := actualTotalCost stats in
    let paid := midMonthPayment (usageBasedPricing (activeMonthData stats)) in
    (unpaidAmount stats == specUnpaid total paid)%Q
    /\ (0 <= unpaidAmount stats)%Q
    /\ ((total < paid)%Q -> (unpaidAmount stats == 0)%Q)
    /\ (forall shownTotal unpaid,
          usageLine stats = UsageWithUnpaid shownTotal unpaid ->
          shownTotal = total /\ unpaid = specUnpaid total paid).
Proof.
  intros w token store store' stats H total paid. subst total paid.
  destruct (StatsFacts.unpaidAmount_cases stats)
    as (Heq & Hnn & Hlt & Hshown).
  split; [|split; [exact Hnn|split; [exact Hlt|]]].
  - rewrite Heq. destruct (useTeamSpendData stats) eqn:Huse;
      [|reflexivity].
    destruct (team_spend_amounts w token store H Huse) as [Htotal Hpaid].
    unfold specUnpaid. symmetry. apply Q.max_l.
    rewrite Htotal. apply Qle_minus_iff.
    setoid_replace
      (0 + - (0 - midMonthPayment
                    (usageBasedPricing (activeMonthData stats))))%Q
      with (midMonthPayment (usageBasedPricing (activeMonthData stats)))
      by ring.
    exact Hpaid.
  - intros shownTotal unpaid Hline.
    split; [|exact (proj2 (Hshown shownTotal unpaid Hline))].
    unfold usageLine in Hline.
    destruct (showsUsage stats); [|discriminate].
    destruct (useTeamSpendData stats); [discriminate|].
    destruct (Qltb 0 _); [|discriminate].
    injection Hline as Htotal _. symmetry. exact Htotal.
Qed.

Lemma unpaid_amount_of_snapshot_witness :
  fst (fetchCursorStats prepaidWorld sessionToken freshStore)
  = Ok prepaidSnapshot
  /\ (actualTotalCost prepaidSnapshot
      < midMonthPayment (usageBasedPricing (activeMonthData prepaidSnapshot)))%Q
  /\ (unpaidAmount prepaidSnapshot
      == specUnpaid (actualTotalCost prepaidSnapshot)
                    (midMonthPayment
                       (usageBasedPricing (activeMonthData prepaidSnapshot))))%Q
  /\ (unpaidAmount prepaidSnapshot == 0)%Q.
Proof.
  assert (Hfetch :
    fetchCursorStats prepaidWorld sessionToken freshStore
    = (Ok prepaidSnapshot,
       snd (fetchCursorStats prepaidWorld sessionToken freshStore)))
    by (vm_compute; reflexivity).
  assert (Hbelow :
    (actualTotalCost prepaidSnapshot
     < midMonthPayment
         (usageBasedPricing (activeMonthData prepaidSnapshot)))%Q)
    by (vm_compute; reflexivity).
  destruct (@unpaid_amount_of_snapshot prepaidWorld sessionToken freshStore
              _ prepaidSnapshot Hfetch) as (Heq & _ & Hzero & _).
  split; [rewrite Hfetch; reflexivity|]. split; [exact Hbelow|].
  split; [exact Heq|exact (Hzero Hbelow)].
Defined.

End UnpaidFacts.

(** ** The usage-based status and the Stripe session *)

Module DashboardFacts.
Import Regex Matching Dashboard.

(** X20.  [checkUsageBasedStatus] never throws.  It reports the pricing
    as enabled exactly when the status request succeeds with the flag
    set and the hard-limit request succeeds too, and then carries the
    hard limit of the reply; when either request fails it answers
    disabled, without a limit, and the hard limit is not even requested
    after a failed status request.  With a disabled status the
    percentage of the limit [updateStats] works out is 0. *)
Theorem usage_status_check_never_throws
        (d : Service) (teamId : option Z) (log : list Call) :
  exists usageStatus log',
    checkUsageBasedStatus d teamId log = (Ok usageStatus, log')
    /\ (isEnabled usageStatus = true
        <-> exists response limitResponse,
              reply_usageBased d (payloadOf teamId) = Ok response
              /\ usageBasedPremiumRequests response = Some true
              /\ reply_hardLimit d (payloadOf teamId) = Ok limitResponse)
    /\ match reply_usageBased d (payloadOf teamId),
             reply_hardLimit d (payloadOf teamId) with
       | Ok _, Ok limitResponse =>
           status_limit usageStatus = hardLimit limitResponse
           /\ log' = (log ++ [PostGetUsageBasedPremiumRequests (payloadOf teamId);
                              PostGetHardLimit (payloadOf teamId)])%list
       | Ok _, Err _ =>
           usageStatus = mkStatus false None
           /\ log' = (log ++ [PostGetUsageBasedPremiumRequests (payloadOf teamId);
                              PostGetHardLimit (payloadOf teamId)])%list
       | Err _, _ =>
           usageStatus = mkStatus false None
           /\ log' = (log ++ [PostGetUsageBasedPremiumRequests
                                (payloadOf teamId)])%list
       end
    /\ (isEnabled usageStatus = false ->
        forall total team, usageBasedPercent usageStatus total team = 0%Q).
Proof.
  unfold checkUsageBasedStatus, getCurrentUsageLimit. cbv zeta.
  destruct (reply_usageBased d (payloadOf teamId)) as [response|e].
  - destruct (reply_hardLimit d (payloadOf teamId)) as [limitResponse|e].
    + eexists. eexists. split; [reflexivity|]. cbn [isEnabled status_limit].
      split; [|split].
      * split.
        -- intros H. exists response, limitResponse.
           destruct (usageBasedPremiumRequests response) as [[|]|];
             try discriminate. auto.
        -- intros (r & l & Hr & Hflag & _). injection Hr as <-.
           rewrite Hflag. reflexivity.
      * split; [reflexivity|]. rewrite <- app_assoc. reflexivity.
      * intros H total team. unfold usageBasedPercent.
        cbn [isEnabled]. rewrite H. reflexivity.
    + eexists. eexists. split; [reflexivity|]. cbn [isEnabled].
      split; [|split].
      * split; [discriminate|]. intros (r & l & _ & _ & H). discriminate.
      * split; [reflexivity|]. rewrite <- app_assoc. reflexivity.
      * reflexivity.
  - eexists. eexists. split; [reflexivity|]. cbn [isEnabled].
    split; [|split].
    + split; [discriminate|]. intros (r & l & H & _). discriminate.
    + destruct (reply_hardLimit d (payloadOf teamId)); split; reflexivity.
    + reflexivity.
Qed.

Lemma deleteAll_char c s :
  forall prev fuel,
    (String.length s < fuel)%nat ->
    deleteAll fuel (chr c) prev s = without c s.
Proof.
  induction s as [|a s IH]; intros prev fuel Hfuel;
    (destruct fuel as [|fuel]; [cbn in Hfuel; lia|]).
  - reflexivity.
  - cbn [deleteAll without]. unfold matchAt. cbn [rmatch chr snd].
    destruct (Ascii.eqb c a).
    + cbn [after snd fst].
      replace (String.length s <? String.length (String a s))%nat
        with true by (symmetry; apply Nat.ltb_lt; cbn; lia).
      apply IH. cbn in Hfuel. lia.
    + f_equal. apply IH. cbn in Hfuel. lia.
Qed.

Lemma includes_char c a s :
  JS.includes (String a s) (String c EmptyString)
  = if Ascii.eqb c a then true else JS.includes s (String c EmptyString).
Proof.
  cbn [JS.includes String.prefix].
  destruct (ascii_dec c a) as [->|Hne].
  - rewrite Ascii.eqb_refl. destruct s; reflexivity.
  - apply Ascii.eqb_neq in Hne. rewrite Hne. reflexivity.
Qed.

Lemma without_spec c s :
  JS.includes (without c s) (String c EmptyString) = false
  /\ (JS.includes s (String c EmptyString) = false -> without c s = s).
Proof.
  induction s as [|a s [IH1 IH2]]; [split; reflexivity|].
  cbn [without]. rewrite includes_char. destruct (Ascii.eqb c a) eqn:E.
  - split; [exact IH1|discriminate].
  - rewrite includes_char, E. split; [exact IH1|].
    intros H. f_equal. apply IH2, H.
Qed.

(** X21.  [getStripeSessionUrl] returns the reply of its one request
    with every double quote removed and every other character kept in
    its place: the result holds no double quote, a reply without one
    is returned as it is, and a failed request is thrown on. *)
Theorem stripe_url_without_quotes (d : Service) (log : list Call) :
  match reply_stripeSession d with
  | Ok data =>
      fst (getStripeSessionUrl d log) = Ok (without quote data)
      /\ JS.includes (without quote data) (String quote EmptyString) = false
      /\ (JS.includes data (String quote EmptyString) = false ->
          fst (getStripeSessionUrl d log) = Ok data)
  | Err error => fst (getStripeSessionUrl d log) = Err error
  end
  /\ snd (getStripeSessionUrl d log) = (log ++ [GetStripeSession])%list.
Proof.
  unfold getStripeSessionUrl. cbn [fst snd]. split; [|reflexivity].
  destruct (reply_stripeSession d) as [data|e]; [|reflexivity].
  unfold replaceAll. rewrite deleteAll_char by lia.
  destruct (without_spec quote data) as [H1 H2].
  split; [reflexivity|]. split; [exact H1|].
  intros H. rewrite (H2 H). reflexivity.
Qed.

End DashboardFacts.
